(** * HattrickData: the player record service ([server.py])

    A shallow embedding of the two request handlers of [server.py],
    [save_player] (POST /players/{player_id}) and [get_all_players]
    (GET /players), together with the library behaviour they rely on:
    [datetime.strptime] / [strftime] for the two date formats in use,
    [json.dumps] / [json.loads], the two SQLite tables and the
    connections opened on them.

    Python [str] values are modelled as [string], one [ascii] per code
    point, so the model covers code points up to U+00FF.  JSON numbers with
    a fraction or an exponent (Python floats) are outside the model: where
    a handler meets one, the model gives no reply ([Unknown],
    [Undetermined]).  Integers are unbounded and values nest to any depth;
    a text with a syntax error and an integer of more than 4300 digits, or
    with many brackets, on which the interpreter may raise something else
    than the syntax error, is set apart ([DecodeRaises]).  [strftime]
    writes the year as glibc does, without leading zeros.  A handler takes
    the request as FastAPI hands it over: the path and query parameters,
    and for [save_player] the body already decoded by [request.json()];
    the clock is an argument too.

    The file has the definitions first (text, calendar, JSON, store,
    handlers, sample requests, schema), then the facts about each of them,
    then the claims of the specification, C1 to C10, and the theorems
    applied to the sample requests, then further properties of the start-up
    and of the handlers, X1 to X22. *)

From Stdlib Require Import Bool Arith NArith ZArith Lia List String Ascii.
From Stdlib Require Import Decimal DecimalFacts DecimalPos DecimalZ.
From Stdlib Require Import Permutation Sorted Wf_nat.
Import ListNotations.

Open Scope string_scope.
Open Scope nat_scope.

(** ** Characters and fixed-width decimal fields *)

Module Text.

Definition code (c : ascii) : nat := nat_of_ascii c.

(** [lo <= c <= hi], the character class [[lo-hi]]. *)
Definition between (lo hi c : ascii) : bool :=
  (code lo <=? code c) && (code c <=? code hi).

Definition is_digit (c : ascii) : bool := between "0" "9" c.

Definition digit_val (c : ascii) : nat := code c - 48.

Definition digit_chr (n : nat) : ascii := ascii_of_nat (48 + n).

(** [n] written with exactly two decimal digits ([%02d], for [n < 100]). *)
Definition zfill2 (n : nat) : string :=
  String (digit_chr (n / 10)) (String (digit_chr (n mod 10)) "").

(** [n] written with exactly four decimal digits ([%04d], for [n < 10000]). *)
Definition zfill4 (n : nat) : string :=
  String (digit_chr (n / 1000))
    (String (digit_chr ((n / 100) mod 10))
       (String (digit_chr ((n / 10) mod 10))
          (String (digit_chr (n mod 10)) ""))).

(** [n] written without leading zeros ([%d], for [n < 10000]). *)
Definition unpadded (n : nat) : string :=
  if n <? 10 then String (digit_chr n) ""
  else if n <? 100 then zfill2 n
  else if n <? 1000 then String (digit_chr (n / 100)) (zfill2 (n mod 100))
  else zfill4 n.

Fixpoint starts_with (p s : string) : bool :=
  match p, s with
  | EmptyString, _ => true
  | String a p', String b s' => Ascii.eqb a b && starts_with p' s'
  | String _ _, EmptyString => false
  end.

Fixpoint drop (n : nat) (s : string) : string :=
  match n, s with
  | O, _ => s
  | S n', String _ s' => drop n' s'
  | S _, EmptyString => EmptyString
  end.

(** [sep.join(parts)] *)
Fixpoint join (sep : string) (parts : list string) : string :=
  match parts with
  | [] => ""
  | [p] => p
  | p :: rest => p ++ sep ++ join sep rest
  end.

(** Lexicographic combination of two comparisons. *)
Definition lex (c1 c2 : comparison) : comparison :=
  match c1 with Eq => c2 | _ => c1 end.

End Text.

(** ** Calendar dates and the two [strptime]/[strftime] formats *)

Module Calendar.
Import Text.

(** The date part of a [datetime] object.  Python only builds values with
    [1 <= year <= 9999] and a day that exists in the month; [make_date]
    is that constructor. *)
Record date : Type := mkdate { year : nat; month : nat; day : nat }.

Definition is_leap (y : nat) : bool :=
  ((y mod 4 =? 0) && negb (y mod 100 =? 0)) || (y mod 400 =? 0).

Definition days_in_month (y m : nat) : nat :=
  match m with
  | 1 | 3 | 5 | 7 | 8 | 10 | 12 => 31
  | 4 | 6 | 9 | 11 => 30
  | 2 => if is_leap y then 29 else 28
  | _ => 0
  end.

Definition MAXYEAR : nat := 9999.

Definition valid_date (d : date) : bool :=
  (1 <=? year d) && (year d <=? MAXYEAR) &&
  (1 <=? month d) && (month d <=? 12) &&
  (1 <=? day d) && (day d <=? days_in_month (year d) (month d)).

(** [datetime(y, m, d)]: [None] stands for the [ValueError] raised on a
    year, month or day out of range. *)
Definition make_date (y m d : nat) : option date :=
  let r := mkdate y m d in
  if valid_date r then Some r else None.

(** The regular expressions [_strptime] compiles the directives to, with
    [\d] read as an ASCII digit.  Each
    function tries the alternatives in the order of the pattern and returns
    the value of the group with the text left over.  In both formats used
    here the directive is followed by a literal or by the end of the text,
    and no later alternative can succeed where an earlier one matched, so
    taking the first match is what the backtracking matcher returns.

    [%d] is [3[0-1]|[1-2]\d|0[1-9]|[1-9]| [1-9]]. *)
Definition re_d (s : string) : option (nat * string) :=
  match s with
  | String a (String b r) =>
      if Ascii.eqb a "3" && between "0" "1" b then Some (30 + digit_val b, r)
      else if between "1" "2" a && is_digit b
           then Some (10 * digit_val a + digit_val b, r)
      else if Ascii.eqb a "0" && between "1" "9" b then Some (digit_val b, r)
      else if between "1" "9" a then Some (digit_val a, String b r)
      else if Ascii.eqb a " " && between "1" "9" b then Some (digit_val b, r)
      else None
  | String a EmptyString =>
      if between "1" "9" a then Some (digit_val a, "") else None
  | EmptyString => None
  end.

(** [%m] is [1[0-2]|0[1-9]|[1-9]]. *)
Definition re_m (s : string) : option (nat * string) :=
  match s with
  | String a (String b r) =>
      if Ascii.eqb a "1" && between "0" "2" b then Some (10 + digit_val b, r)
      else if Ascii.eqb a "0" && between "1" "9" b then Some (digit_val b, r)
      else if between "1" "9" a then Some (digit_val a, String b r)
      else None
  | String a EmptyString =>
      if between "1" "9" a then Some (digit_val a, "") else None
  | EmptyString => None
  end.

(** [%Y] is [\d\d\d\d]. *)
Definition re_Y (s : string) : option (nat * string) :=
  match s with
  | String a (String b (String c (String d r))) =>
      if is_digit a && is_digit b && is_digit c && is_digit d
      then Some (1000 * digit_val a + 100 * digit_val b
                 + 10 * digit_val c + digit_val d, r)
      else None
  | _ => None
  end.

(** A literal character of the format. *)
Definition re_lit (c : ascii) (s : string) : option string :=
  match s with
  | String a r => if Ascii.eqb a c then Some r else None
  | EmptyString => None
  end.

(** The end of the text: anything left is "unconverted data remains". *)
Definition at_end (s : string) : bool :=
  match s with EmptyString => true | _ => false end.

Notation "'let?' p ':=' e 'in' k" :=
  (match e with Some p => k | None => None end)
  (at level 10, p pattern, e at level 100, k at level 200).

(** [datetime.strptime(s, "%d/%m/%Y")] on a [str]; [None] is the
    [ValueError]. *)
Definition strptime_dmY (s : string) : option date :=
  let? (d, r) := re_d s in
  let? r := re_lit "/" r in
  let? (m, r) := re_m r in
  let? r := re_lit "/" r in
  let? (y, r) := re_Y r in
  if at_end r then make_date y m d else None.

(** [datetime.strptime(s, "%Y-%m-%d")] on a [str]. *)
Definition strptime_Ymd (s : string) : option date :=
  let? (y, r) := re_Y s in
  let? r := re_lit "-" r in
  let? (m, r) := re_m r in
  let? r := re_lit "-" r in
  let? (d, r) := re_d r in
  if at_end r then make_date y m d else None.

(** [%Y] of [strftime].  CPython hands the directive to the C library,
    and glibc writes the year as a plain decimal number: a year below 1000
    comes out with fewer than four digits, which [%Y] of [strptime] then
    does not read back.  (A C library that pads the year to four digits
    writes the same text from the year 1000 on; the statements about
    formatted dates below are about such years.) *)
Definition strftime_Y (y : nat) : string := unpadded y.

(** [dt.strftime("%Y-%m-%d")], the sortable form. *)
Definition strftime_Ymd (d : date) : string :=
  strftime_Y (year d) ++ "-" ++ zfill2 (month d) ++ "-" ++ zfill2 (day d).

(** [dt.strftime("%d/%m/%Y")], the exchanged form. *)
Definition strftime_dmY (d : date) : string :=
  zfill2 (day d) ++ "/" ++ zfill2 (month d) ++ "/" ++ strftime_Y (year d).

(** Two digits, a slash, two digits, a slash, four digits. *)
Definition ddmmyyyy (s : string) : bool :=
  match s with
  | String da (String db (String p (String ma (String mb (String q
      (String ya (String yb (String yc (String yd EmptyString))))))))) =>
      is_digit da && is_digit db && Ascii.eqb p "/" &&
      is_digit ma && is_digit mb && Ascii.eqb q "/" &&
      is_digit ya && is_digit yb && is_digit yc && is_digit yd
  | _ => false
  end.

(** Chronological order. *)
Definition date_ltb (a b : date) : bool :=
  (year a <? year b)
  || ((year a =? year b)
      && ((month a <? month b)
          || ((month a =? month b) && (day a <? day b)))).

End Calendar.

(** ** JSON values, [json.dumps] and [json.loads] *)

Module Json.
Import Text.

(** What [json.loads] builds, floats left out: [None], [bool], [int],
    [str], [list] and [dict] with [str] keys.  A [dict] keeps its keys in
    insertion order and holds each key once ([wf]). *)
Inductive json : Type :=
| JNull
| JBool (b : bool)
| JInt (z : Z)
| JStr (s : string)
| JArr (items : list json)
| JObj (members : list (string * json)).

Definition dict : Type := list (string * json).

(** [d.get(k)] *)
Fixpoint dict_get (k : string) (d : dict) : option json :=
  match d with
  | [] => None
  | (k', v) :: r => if String.eqb k' k then Some v else dict_get k r
  end.

(** [d[k] = v]: an existing key keeps its place, a new one goes last. *)
Fixpoint dict_set (k : string) (v : json) (d : dict) : dict :=
  match d with
  | [] => [(k, v)]
  | (k', v') :: r =>
      if String.eqb k' k then (k', v) :: r else (k', v') :: dict_set k v r
  end.

(** [dict(pairs)] *)
Definition dict_of_pairs (pairs : list (string * json)) : dict :=
  fold_left (fun d kv => dict_set (fst kv) (snd kv) d) pairs [].

Definition has_key (k : string) (d : dict) : bool :=
  existsb (fun kv => String.eqb (fst kv) k) d.

Fixpoint distinct_keys (d : dict) : bool :=
  match d with
  | [] => true
  | (k, _) :: r => negb (has_key k r) && distinct_keys r
  end.

(** Every [dict] inside the value holds each key once. *)
Fixpoint wf (v : json) : bool :=
  match v with
  | JArr items => forallb wf items
  | JObj members =>
      distinct_keys members && forallb (fun kv => wf (snd kv)) members
  | _ => true
  end.

(** The value [json.loads] gives back for the text of [v]: the same
    value, with [dict] applied to the members of every object. *)
Fixpoint normalize (v : json) : json :=
  match v with
  | JArr items => JArr (map normalize items)
  | JObj members =>
      JObj (dict_of_pairs (map (fun kv => (fst kv, normalize (snd kv)))
                               members))
  | _ => v
  end.

(** Fuel that is enough to scan the text of [v]. *)
Fixpoint weight (v : json) : nat :=
  match v with
  | JArr items => 2 + list_sum (map weight items)
  | JObj members => 2 + list_sum (map (fun kv => weight (snd kv)) members)
  | _ => 1
  end.

(** *** Encoding *)

Definition quote : ascii := "034"%char.
Definition backslash : ascii := "\"%char.

Definition hex_chr (n : nat) : ascii :=
  if n <? 10 then ascii_of_nat (48 + n) else ascii_of_nat (87 + n).

(** The replacement [encode_basestring_ascii] makes for one character:
    the short escapes, the printable ASCII characters as they are, and
    [\u00xx] for the rest. *)
Definition escape_char (c : ascii) : string :=
  if Ascii.eqb c backslash then "\\"
  else if Ascii.eqb c quote then String backslash (String quote "")
  else if Ascii.eqb c "008" then "\b"
  else if Ascii.eqb c "012" then "\f"
  else if Ascii.eqb c "010" then "\n"
  else if Ascii.eqb c "013" then "\r"
  else if Ascii.eqb c "009" then "\t"
  else if between " " "~" c then String c ""
  else "\u00" ++ String (hex_chr (code c / 16)) (String (hex_chr (code c mod 16)) "").

Fixpoint escape (s : string) : string :=
  match s with
  | EmptyString => ""
  | String c r => escape_char c ++ escape r
  end.

Definition encode_basestring_ascii (s : string) : string :=
  String quote (escape s ++ String quote "").

Fixpoint digits_string (u : uint) : string :=
  match u with
  | Nil => ""
  | D0 u => String "0" (digits_string u)
  | D1 u => String "1" (digits_string u)
  | D2 u => String "2" (digits_string u)
  | D3 u => String "3" (digits_string u)
  | D4 u => String "4" (digits_string u)
  | D5 u => String "5" (digits_string u)
  | D6 u => String "6" (digits_string u)
  | D7 u => String "7" (digits_string u)
  | D8 u => String "8" (digits_string u)
  | D9 u => String "9" (digits_string u)
  end.

(** [repr] of an [int]. *)
Definition repr_int (z : Z) : string :=
  match Z.to_int z with
  | Pos u => digits_string u
  | Neg u => String "-" (digits_string u)
  end.

(** [str] of a non-negative [int]. *)
Definition str_nat (n : nat) : string := digits_string (Nat.to_uint n).

(** [json.dumps(v)] with the default separators [", "] and [": "] and
    [ensure_ascii=True]. *)
Fixpoint dumps (v : json) : string :=
  match v with
  | JNull => "null"
  | JBool true => "true"
  | JBool false => "false"
  | JInt z => repr_int z
  | JStr s => encode_basestring_ascii s
  | JArr items => "[" ++ join ", " (map dumps items) ++ "]"
  | JObj members =>
      "{" ++ join ", "
               (map (fun kv => encode_basestring_ascii (fst kv) ++ ": "
                               ++ dumps (snd kv)) members)
          ++ "}"
  end.

(** The text of one member of an object. *)
Definition member_text (kv : string * json) : string :=
  encode_basestring_ascii (fst kv) ++ ": " ++ dumps (snd kv).

(** *** Decoding *)

(** The result of a scanning step on the text that is left: a value, a
    [JSONDecodeError] with its message and the number of characters from
    the reported position to the end of the document, a text the model
    does not cover (a float, a [\uXXXX] escape above U+00FF), or the end of
    the fuel, which [loads] never meets ([loads_has_fuel]). *)
Inductive outcome (A : Type) : Type :=
| Ok (a : A)
| Fail (msg : string) (remaining : nat)
| Unmodelled
| Exhausted.
Arguments Ok {A} a.
Arguments Fail {A} msg remaining.
Arguments Unmodelled {A}.
Arguments Exhausted {A}.

Definition bind {A B : Type} (x : outcome A) (k : A -> outcome B)
  : outcome B :=
  match x with
  | Ok a => k a
  | Fail msg k => Fail msg k
  | Unmodelled => Unmodelled
  | Exhausted => Exhausted
  end.

Notation "'do' p '<-' e ';' k" :=
  (bind e (fun p => k))
  (at level 10, p pattern, e at level 100, k at level 200).

Definition is_ws (c : ascii) : bool :=
  Ascii.eqb c " " || Ascii.eqb c "009" || Ascii.eqb c "010"
  || Ascii.eqb c "013".

Fixpoint skip_ws (s : string) : string :=
  match s with
  | String c r => if is_ws c then skip_ws r else s
  | EmptyString => ""
  end.

Definition hex_val (c : ascii) : option nat :=
  if is_digit c then Some (code c - 48)
  else if between "a" "f" c then Some (code c - 87)
  else if between "A" "F" c then Some (code c - 55)
  else None.

(** The character a short escape stands for. *)
Definition unescape (c : ascii) : option ascii :=
  if Ascii.eqb c quote then Some quote
  else if Ascii.eqb c backslash then Some backslash
  else if Ascii.eqb c "/" then Some "/"%char
  else if Ascii.eqb c "b" then Some "008"%char
  else if Ascii.eqb c "f" then Some "012"%char
  else if Ascii.eqb c "n" then Some "010"%char
  else if Ascii.eqb c "r" then Some "013"%char
  else if Ascii.eqb c "t" then Some "009"%char
  else None.

Definition cons_char {A : Type} (c : ascii) (x : outcome (string * A))
  : outcome (string * A) :=
  do (k, r) <- x; Ok (String c k, r).

(** [scanstring] in strict mode, on the text after the opening quote;
    [opened] is the length of the text from that quote on. *)
Fixpoint scanstring (opened : nat) (s : string) : outcome (string * string) :=
  match s with
  | EmptyString => Fail "Unterminated string starting at" opened
  | String c r =>
      if Ascii.eqb c quote then Ok ("", r)
      else if Ascii.eqb c backslash then
        match r with
        | EmptyString => Fail "Unterminated string starting at" opened
        | String "u" (String h1 (String h2 (String h3 (String h4 r')))) =>
            match hex_val h1, hex_val h2, hex_val h3, hex_val h4, r' with
            | Some a, Some b, Some x, Some y, String _ _ =>
                if (a =? 0) && (b =? 0)
                then cons_char (ascii_of_nat (16 * x + y)) (scanstring opened r')
                else Unmodelled
            | _, _, _, _, _ => Fail "Invalid \uXXXX escape" (String.length r)
            end
        | String "u" _ => Fail "Invalid \uXXXX escape" (String.length r)
        | String e r' =>
            match unescape e with
            | Some x => cons_char x (scanstring opened r')
            | None => Fail "Invalid \escape" (String.length s)
            end
        end
      else if code c <? 32 then
        Fail "Invalid control character at" (String.length s)
      else cons_char c (scanstring opened r)
  end.

Definition push_digit (c : ascii) (u : uint) : uint :=
  match digit_val c with
  | 0 => D0 u | 1 => D1 u | 2 => D2 u | 3 => D3 u | 4 => D4 u
  | 5 => D5 u | 6 => D6 u | 7 => D7 u | 8 => D8 u | _ => D9 u
  end.

(** The digits at the head of the text. *)
Fixpoint scan_digits (s : string) : uint * string :=
  match s with
  | String c r =>
      if is_digit c
      then let (u, r') := scan_digits r in (push_digit c u, r')
      else (Nil, s)
  | EmptyString => (Nil, "")
  end.

(** The integer part of a number: [0], or a digit from 1 to 9 followed by
    any digits. *)
Definition scan_integer (s : string) : option (uint * string) :=
  match s with
  | String c r =>
      if Ascii.eqb c "0" then Some (D0 Nil, r)
      else if between "1" "9" c
           then let (u, r') := scan_digits r in Some (push_digit c u, r')
      else None
  | EmptyString => None
  end.

(** Whether [(\.[0-9]+)] or [([eE][-+]?[0-9]+)] matches at the head: the
    number is then a float. *)
Definition float_tail (s : string) : bool :=
  match s with
  | String "." (String c _) => is_digit c
  | String e r =>
      (Ascii.eqb e "e" || Ascii.eqb e "E")
      && match r with
         | String g (String c _) =>
             is_digit g || ((Ascii.eqb g "-" || Ascii.eqb g "+") && is_digit c)
         | String g EmptyString => is_digit g
         | EmptyString => false
         end
  | EmptyString => false
  end.

Inductive number : Type :=
| IntLit (z : Z)
| FloatLit.

(** [NUMBER_RE.match]: an optional minus sign and the integer part, then
    an optional fraction and an optional exponent. *)
Definition match_number (s : string) : option (number * string) :=
  match s with
  | String c r =>
      if Ascii.eqb c "-" then
        match scan_integer r with
        | Some (u, r') =>
            if float_tail r' then Some (FloatLit, r')
            else Some (IntLit (Z.of_int (Neg u)), r')
        | None => None
        end
      else
        match scan_integer s with
        | Some (u, r') =>
            if float_tail r' then Some (FloatLit, r')
            else Some (IntLit (Z.of_int (Pos u)), r')
        | None => None
        end
  | EmptyString => None
  end.

(** [scan_once] with [JSONArray] and [JSONObject].  A [StopIteration] is
    reported at once as the ["Expecting value"] error [raw_decode] turns it
    into.  [fuel] bounds the number of calls: a call uses one unit and
    either reads a character or calls [scan_once], which reads one, so
    that twice the length of the text and two more is enough for every
    text ([scan_has_fuel]). *)
Fixpoint scan_once (fuel : nat) (s : string) : outcome (json * string) :=
  match fuel with
  | O => Exhausted
  | S fuel' =>
      match s with
      | EmptyString => Fail "Expecting value" 0
      | String c r =>
          if Ascii.eqb c quote then
            do (k, r') <- scanstring (String.length s) r; Ok (JStr k, r')
          else if Ascii.eqb c "{" then
            let r := skip_ws r in
            if starts_with "}" r then Ok (JObj [], drop 1 r)
            else parse_members fuel' r []
          else if Ascii.eqb c "[" then
            let r := skip_ws r in
            if starts_with "]" r then Ok (JArr [], drop 1 r)
            else parse_items fuel' r []
          else if starts_with "null" s then Ok (JNull, drop 4 s)
          else if starts_with "true" s then Ok (JBool true, drop 4 s)
          else if starts_with "false" s then Ok (JBool false, drop 5 s)
          else if starts_with "NaN" s || starts_with "Infinity" s
                  || starts_with "-Infinity" s then Unmodelled
          else
            match match_number s with
            | Some (IntLit z, r') => Ok (JInt z, r')
            | Some (FloatLit, _) => Unmodelled
            | None => Fail "Expecting value" (String.length s)
            end
      end
  end

with parse_items (fuel : nat) (s : string) (acc : list json)
  : outcome (json * string) :=
  match fuel with
  | O => Exhausted
  | S fuel' =>
      do (v, r) <- scan_once fuel' s;
      match skip_ws r with
      | String c r' =>
          if Ascii.eqb c "]" then Ok (JArr (acc ++ [v]), r')
          else if Ascii.eqb c "," then
            parse_items fuel' (skip_ws r') (acc ++ [v])
          else Fail "Expecting ',' delimiter" (S (String.length r'))
      | EmptyString => Fail "Expecting ',' delimiter" 0
      end
  end

with parse_members (fuel : nat) (s : string) (acc : list (string * json))
  : outcome (json * string) :=
  match fuel with
  | O => Exhausted
  | S fuel' =>
      match s with
      | String q r =>
          if Ascii.eqb q quote then
            do (k, r) <- scanstring (String.length s) r;
            let r := skip_ws r in
            if starts_with ":" r then
              do (v, r) <- scan_once fuel' (skip_ws (drop 1 r));
              match skip_ws r with
              | String c r' =>
                  if Ascii.eqb c "}"
                  then Ok (JObj (dict_of_pairs (acc ++ [(k, v)])), r')
                  else if Ascii.eqb c "," then
                    parse_members fuel' (skip_ws r') (acc ++ [(k, v)])
                  else Fail "Expecting ',' delimiter" (S (String.length r'))
              | EmptyString => Fail "Expecting ',' delimiter" 0
              end
            else Fail "Expecting ':' delimiter" (String.length r)
          else Fail "Expecting property name enclosed in double quotes"
                    (String.length s)
      | EmptyString =>
          Fail "Expecting property name enclosed in double quotes" 0
      end
  end.

(** The characters that follow a value inside the text of [dumps], or
    nothing at the end of it. *)
Definition delimited (s : string) : bool :=
  match s with
  | EmptyString => true
  | String c _ => Ascii.eqb c "," || Ascii.eqb c "]" || Ascii.eqb c "}"
  end.

(** The characters the text of a value can start with. *)
Definition value_start (c : ascii) : bool :=
  is_digit c || Ascii.eqb c "-" || Ascii.eqb c quote || Ascii.eqb c "["
  || Ascii.eqb c "{" || Ascii.eqb c "n" || Ascii.eqb c "t"
  || Ascii.eqb c "f".

(** The text of [v], followed by a delimiter, is scanned as [normalize v]
    by any fuel above its weight. *)
Definition scans (v : json) : Prop :=
  forall fuel rest,
    weight v <= fuel -> delimited rest = true ->
    scan_once fuel (dumps v ++ rest) = Ok (normalize v, rest).

(** The longest run of decimal digits in the text. *)
Fixpoint longest_digits (s : string) (run best : nat) : nat :=
  match s with
  | String c r =>
      if is_digit c then longest_digits r (S run) (Nat.max (S run) best)
      else longest_digits r 0 best
  | EmptyString => best
  end.

(** The number of opening brackets and braces in the text, a bound on the
    depth of its nesting. *)
Fixpoint openings (s : string) : nat :=
  match s with
  | String c r =>
      if Ascii.eqb c "[" || Ascii.eqb c "{" then S (openings r)
      else openings r
  | EmptyString => 0
  end.

(** [sys.get_int_max_str_digits()] where the interpreter has the limit
    (CPython from 3.11 on): [int] raises a [ValueError] on a text of more
    digits. *)
Definition int_max_str_digits : nat := 4300.

(** A depth of nesting that the scanner reaches well within the default
    recursion limit of 1000 frames. *)
Definition safe_depth : nat := 100.

(** The text has a run of more digits than [int] converts, or more
    opening brackets than [safe_depth].  Only on such a text can the
    scanner raise the [ValueError] of an integer that is too long, or a
    [RecursionError], before it comes to a syntax error. *)
Definition strains (s : string) : bool :=
  (int_max_str_digits <? longest_digits s 0 0) || (safe_depth <? openings s).

(** What [json.loads] does: return a value, raise the [JSONDecodeError] of
    a syntax error, or raise on a text with a syntax error that strains the
    interpreter: then the exception is the [JSONDecodeError], a
    [ValueError] or a [RecursionError], depending on the interpreter.  The
    model reads an integer of any length and a nesting of any depth where
    the text has no syntax error. *)
Inductive loaded : Type :=
| Decoded (v : json)
| JSONDecodeError (msg : string) (pos : nat)
| DecodeRaises
| NotModelled.

(** [json.loads(s)] for a [str]: [JSONDecoder.decode]. *)
Definition loads (s : string) : loaded :=
  let n := String.length s in
  match scan_once (2 * n + 2) (skip_ws s) with
  | Ok (v, r) =>
      let r := skip_ws r in
      match r with
      | EmptyString => Decoded v
      | _ =>
          if strains s then DecodeRaises
          else JSONDecodeError "Extra data" (n - String.length r)
      end
  | Fail msg k =>
      if strains s then DecodeRaises else JSONDecodeError msg (n - k)
  | Unmodelled | Exhausted => NotModelled
  end.

(** [doc.count('\n', 0, pos)] and the index after the last newline before
    [pos], computed together while walking the first [pos] characters. *)
Fixpoint line_start (doc : string) (pos i : nat) (lines start : nat)
  : nat * nat :=
  match pos, doc with
  | S pos', String c r =>
      if Ascii.eqb c "010" then line_start r pos' (S i) (S lines) (S i)
      else line_start r pos' (S i) lines start
  | _, _ => (lines, start)
  end.

(** [str(e)] of the [JSONDecodeError] raised on [doc]:
    ["%s: line %d column %d (char %d)"]. *)
Definition decode_error_text (doc msg : string) (pos : nat) : string :=
  let (lines, start) := line_start doc pos 0 0 0 in
  msg ++ ": line " ++ str_nat (lines + 1)
      ++ " column " ++ str_nat (pos - start + 1)
      ++ " (char " ++ str_nat pos ++ ")".

End Json.

(** ** The SQLite store: two tables and the connections on them *)

Module Sqlite.

(** A row of [players (id TEXT PRIMARY KEY, name TEXT, specialties TEXT)]. *)
Record player_row : Type :=
  mkplayer { p_id : string; p_name : string; p_specialties : string }.

(** A row of [player_stats (player_id, TSI, salary, fitness, form, skills,
    date, age)], all [TEXT]. *)
Record stats_row : Type :=
  mkstats { s_player_id : string; s_TSI : string; s_salary : string;
            s_fitness : string; s_form : string; s_skills : string;
            s_date : string; s_age : string }.

(** Both tables, rows in insertion order. *)
Record database : Type :=
  mkdb { players : list player_row; player_stats : list stats_row }.

Definition empty : database := mkdb [] [].

(** The [PRIMARY KEY] constraint of [players]. *)
Definition primary_key (db : database) : Prop :=
  NoDup (map p_id (players db)).

Definition has_id (pid : string) (p : player_row) : bool :=
  String.eqb (p_id p) pid.

(** [INSERT INTO players (id, name, specialties) VALUES (?, ?, ?)
     ON CONFLICT(id) DO UPDATE SET name = excluded.name,
                                   specialties = excluded.specialties] *)
Definition upsert_player (pid name specialties : string) (db : database)
  : database :=
  mkdb (if existsb (has_id pid) (players db)
        then map (fun p => if has_id pid p
                           then mkplayer (p_id p) name specialties
                           else p)
                 (players db)
        else players db ++ [mkplayer pid name specialties])
       (player_stats db).

(** [INSERT INTO player_stats (...) VALUES (?, ?, ?, ?, ?, ?, ?, ?)] *)
Definition insert_stats (r : stats_row) (db : database) : database :=
  mkdb (players db) (player_stats db ++ [r]).

(** A row of the [SELECT]: [p.id, p.name, p.specialties, s.age, s.TSI,
    s.salary, s.fitness, s.form, s.skills, s.date]. *)
Record row : Type :=
  mkrow { r_id : string; r_name : string; r_specialties : string;
          r_age : string; r_TSI : string; r_salary : string;
          r_fitness : string; r_form : string; r_skills : string;
          r_date : string }.

Definition select_columns (p : player_row) (s : stats_row) : row :=
  mkrow (p_id p) (p_name p) (p_specialties p) (s_age s) (s_TSI s)
        (s_salary s) (s_fitness s) (s_form s) (s_skills s) (s_date s).

(** [FROM player_stats s JOIN players p ON p.id = s.player_id] *)
Definition join (db : database) : list row :=
  flat_map (fun s => map (fun p => select_columns p s)
                         (filter (has_id (s_player_id s)) (players db)))
           (player_stats db).

(** The two conditions the handler can put in the [WHERE] clause, each
    with the value bound to its placeholder. *)
Inductive condition : Type :=
| IdIs (v : string)      (* "p.id = ?" *)
| DateIs (v : string).   (* "s.date = ?" *)

Definition holds (c : condition) (r : row) : bool :=
  match c with
  | IdIs v => String.eqb (r_id r) v
  | DateIs v => String.eqb (r_date r) v
  end.

(** [" AND ".join(filters)]; no filter, no [WHERE]. *)
Definition where_ (filters : list condition) (r : row) : bool :=
  forallb (fun c => holds c r) filters.

(** [ORDER BY s.date DESC], comparing the texts character by character.
    Rows with equal dates stay in the order of the scan, one of the orders
    SQLite may return. *)
Fixpoint insert_desc (r : row) (l : list row) : list row :=
  match l with
  | [] => [r]
  | x :: t =>
      if String.ltb (r_date r) (r_date x) then x :: insert_desc r t
      else r :: l
  end.

Fixpoint order_by_date_desc (l : list row) : list row :=
  match l with
  | [] => []
  | r :: t => insert_desc r (order_by_date_desc t)
  end.

(** No row comes before a row with a later date. *)
Definition not_before (a b : row) : Prop :=
  String.ltb (r_date a) (r_date b) = false.

(** Whether the snapshot has a row of [players] to join with. *)
Definition has_player (db : database) (s : stats_row) : bool :=
  existsb (has_id (s_player_id s)) (players db).

(** Whether the snapshot belongs to the identity. *)
Definition of_player (pid : string) (s : stats_row) : bool :=
  String.eqb (s_player_id s) pid.

(** The whole query of [get_all_players] for a list of filters. *)
Definition select (filters : list condition) (db : database) : list row :=
  order_by_date_desc (filter (where_ filters) (join db)).

(** The file [players.db] and the number of connections that are open on
    it. *)
Record world : Type :=
  mkworld { disk : database; open_connections : nat }.

(** A connection works on its own view of the tables until [commit]. *)
Record connection : Type := mkconn { view : database }.

(** [sqlite3.connect("players.db")] *)
Definition connect (w : world) : connection * world :=
  (mkconn (disk w), mkworld (disk w) (S (open_connections w))).

(** [cursor.execute] of a statement that changes the tables. *)
Definition execute (stmt : database -> database) (c : connection)
  : connection :=
  mkconn (stmt (view c)).

(** [cursor.execute] of a query followed by [cursor.fetchall()]. *)
Definition fetchall (query : database -> list row) (c : connection)
  : list row :=
  query (view c).

(** [conn.commit()] *)
Definition commit (c : connection) (w : world) : world :=
  mkworld (view c) (open_connections w).

(** [conn.close()] *)
Definition close (c : connection) (w : world) : world :=
  mkworld (disk w) (pred (open_connections w)).

End Sqlite.

(** ** The handlers of [server.py] *)

Module Server.
Import Text Calendar Json Sqlite.

(** The validation library is not pinned by the repository.  The two
    major versions of pydantic differ on a field annotated [Optional[str]]
    with no default (optional in 1.x, required in 2.x) and on numbers given
    for a [str] field (converted in 1.x, rejected in 2.x). *)
Inductive pydantic : Type := V1 | V2.

(** [class Player(BaseModel)] *)
Record Player : Type :=
  mkPlayer { name : string; age : string; TSI : string; salary : string;
             specialties : string; form : string; fitness : string;
             skills : dict; date : option string }.

(** The player with another date. *)
Definition with_date (p : Player) (d : option string) : Player :=
  mkPlayer (name p) (age p) (TSI p) (salary p) (specialties p) (form p)
           (fitness p) (skills p) d.

(** Validation of one [str] field. *)
Definition str_field (lib : pydantic) (v : option json) : option string :=
  match v with
  | Some (JStr s) => Some s
  | Some (JInt z) =>
      match lib with V1 => Some (repr_int z) | V2 => None end
  | Some (JBool b) =>
      match lib with
      | V1 => Some (if b then "True" else "False")
      | V2 => None
      end
  | _ => None
  end.

(** Validation of the [Optional[str]] field. *)
Definition optional_str_field (lib : pydantic) (v : option json)
  : option (option string) :=
  match v with
  | None => match lib with V1 => Some None | V2 => None end
  | Some JNull => Some None
  | Some x => option_map Some (str_field lib (Some x))
  end.

(** Validation of the [dict] field.  Under 1.x a list or a string is
    passed to [dict()], which the model leaves out. *)
Inductive dict_checked : Type :=
| IsDict (d : dict)
| NotDict
| DictUnmodelled.

Definition dict_field (lib : pydantic) (v : option json) : dict_checked :=
  match v with
  | Some (JObj d) => IsDict d
  | Some (JArr _) | Some (JStr _) =>
      match lib with V1 => DictUnmodelled | V2 => NotDict end
  | _ => NotDict
  end.

Inductive validated : Type :=
| Accepted (p : Player)
| Rejected (fields : list string)
| ValidationUnmodelled.

Definition missing {A : Type} (field : string) (v : option A) : list string :=
  match v with Some _ => [] | None => [field] end.

(** [Player] built from the keys of [player_data]: every field is validated, extra keys are
    ignored, and the fields that failed are reported together. *)
Definition validate (lib : pydantic) (data : dict) : validated :=
  let f_name := str_field lib (dict_get "name" data) in
  let f_age := str_field lib (dict_get "age" data) in
  let f_TSI := str_field lib (dict_get "TSI" data) in
  let f_salary := str_field lib (dict_get "salary" data) in
  let f_specialties := str_field lib (dict_get "specialties" data) in
  let f_form := str_field lib (dict_get "form" data) in
  let f_fitness := str_field lib (dict_get "fitness" data) in
  let f_skills := dict_field lib (dict_get "skills" data) in
  let f_date := optional_str_field lib (dict_get "date" data) in
  match f_name, f_age, f_TSI, f_salary, f_specialties, f_form, f_fitness,
        f_skills, f_date with
  | Some n, Some a, Some t, Some sa, Some sp, Some fo, Some fi,
    IsDict sk, Some d => Accepted (mkPlayer n a t sa sp fo fi sk d)
  | _, _, _, _, _, _, _, DictUnmodelled, _ => ValidationUnmodelled
  | _, _, _, _, _, _, _, _, _ =>
      Rejected (missing "name" f_name ++ missing "age" f_age
                ++ missing "TSI" f_TSI ++ missing "salary" f_salary
                ++ missing "specialties" f_specialties
                ++ missing "form" f_form ++ missing "fitness" f_fitness
                ++ match f_skills with IsDict _ => [] | _ => ["skills"] end
                ++ missing "date" f_date)
  end.

(** The exceptions the handlers meet: the [AttributeError] of a body with
    no [get], the [ValidationError] of pydantic with the fields that
    failed, the [JSONDecodeError] of a text, and what [json.loads] raises
    on a text that strains the interpreter ([DecodeRaises]). *)
Inductive exn : Type :=
| AttributeError (type_name : string)
| ValidationError (fields : list string)
| DecodeError (doc msg : string) (pos : nat)
| StrainedDecode (doc : string).

(** [str(e)], where the model gives the text.  The report of a
    [ValidationError] depends on the version of the library and quotes the
    input; the text of a [StrainedDecode] depends on the interpreter. *)
Definition str_exn (e : exn) : option string :=
  match e with
  | AttributeError t => Some ("'" ++ t ++ "' object has no attribute 'get'")
  | DecodeError doc msg pos => Some (decode_error_text doc msg pos)
  | ValidationError _ | StrainedDecode _ => None
  end.

(** [type(v).__name__] *)
Definition type_name (v : json) : string :=
  match v with
  | JNull => "NoneType"
  | JBool _ => "bool"
  | JInt _ => "int"
  | JStr _ => "str"
  | JArr _ => "list"
  | JObj _ => "dict"
  end.

(** What a handler sends back: [{"message": text}], [{"error": text}],
    the error object made from an exception whose text the model does not
    give, or a reply the model does not determine. *)
Inductive reply : Type :=
| Message (text : string)
| Error (text : string)
| ErrorOf (e : exn)
| Unknown.

(** [{"error": str(e)}] *)
Definition error_reply (e : exn) : reply :=
  match str_exn e with
  | Some text => Error text
  | None => ErrorOf e
  end.

(** How a block of statements ends: by falling through with a value, by a
    [return], by an exception, or outside the model. *)
Inductive flow (A : Type) : Type :=
| Continue (a : A)
| Return (r : reply)
| Raise (e : exn)
| Lost.
Arguments Continue {A} a.
Arguments Return {A} r.
Arguments Raise {A} e.
Arguments Lost {A}.

Definition and_then {A B : Type} (x : flow A) (k : A -> flow B) : flow B :=
  match x with
  | Continue a => k a
  | Return r => Return r
  | Raise e => Raise e
  | Lost => Lost
  end.

Notation "'run' p '<-' e ';' k" :=
  (and_then e (fun p => k))
  (at level 10, p pattern, e at level 100, k at level 200).

(** Lines 91-95: a [skills] value that is a [str] is replaced by what it
    decodes to; a text that does not decode ends the request with an
    error object: that of line 95 for a [JSONDecodeError], and for a text
    that strains the interpreter that of line 95 or of line 141, according
    to the exception raised. *)
Definition decode_skills (player_data : json) : flow dict :=
  match player_data with
  | JObj data =>
      match dict_get "skills" data with
      | Some (JStr text) =>
          match loads text with
          | Decoded v => Continue (dict_set "skills" v data)
          | JSONDecodeError msg pos =>
              Return (Error ("Invalid JSON in skills: "
                             ++ decode_error_text text msg pos))
          | DecodeRaises => Return (ErrorOf (StrainedDecode text))
          | NotModelled => Lost
          end
      | _ => Continue data
      end
  | other => Raise (AttributeError (type_name other))
  end.

(** Line 97: [player] is [Player] built from the keys of [player_data]. *)
Definition make_player (lib : pydantic) (data : dict) : flow Player :=
  match validate lib data with
  | Accepted p => Continue p
  | Rejected fields => Raise (ValidationError fields)
  | ValidationUnmodelled => Lost
  end.

(** Lines 87-97, from the decoded body to the validated player. *)
Definition parse_body (lib : pydantic) (player_data : json) : flow Player :=
  run data <- decode_skills player_data;
  make_player lib data.

(** Lines 100-103: the date in sortable form, today's date when
    [strptime] raises (on [None] or on a text it does not accept). *)
Definition sortable_date (now : Calendar.date) (d : option string) : string :=
  match d with
  | Some text =>
      match strptime_dmY text with
      | Some parsed => strftime_Ymd parsed
      | None => strftime_Ymd now
      end
  | None => strftime_Ymd now
  end.

(** The row of [player_stats] written for a player. *)
Definition stats_of (player_id : string) (player : Player) (iso_date : string)
  : stats_row :=
  mkstats player_id (TSI player) (salary player) (fitness player)
          (form player) (dumps (JObj (skills player))) iso_date (age player).

(** The check mark of the message is carried as its UTF-8 bytes. *)
Definition success_text (player_name : string) : string :=
  "✅ Player " ++ player_name ++ " saved successfully".

(** The [try] block of [save_player]: how it ends, the value of [conn] at
    that point and the world.  Where the model does not follow the body
    ([Lost]: a float in the skills text, a value pydantic 1.x converts) it
    does not give the tables either: the world that comes with [Lost], and
    with the reply [Unknown] below, only counts the connections. *)
Definition save_player_try (lib : pydantic) (now : Calendar.date)
    (player_id : string) (player_data : json) (w : world)
  : flow unit * option connection * world :=
  match parse_body lib player_data with
  | Continue player =>
      let iso_date := sortable_date now (date player) in
      let (conn, w) := connect w in
      let conn :=
        execute (upsert_player player_id (name player) (specialties player))
                conn in
      let conn :=
        execute (insert_stats (stats_of player_id player iso_date)) conn in
      let w := commit conn w in
      (Return (Message (success_text (name player))), Some conn, w)
  | Return r => (Return r, None, w)
  | Raise e => (Raise e, None, w)
  | Lost => (Lost, None, w)
  end.

(** [POST /players/{player_id}].  [player_data] is the body as
    [request.json()] decoded it and [now] the reading of the clock. *)
Definition save_player (lib : pydantic) (now : Calendar.date)
    (player_id : string) (player_data : json) (w : world) : reply * world :=
  let '(ending, conn, w) := save_player_try lib now player_id player_data w in
  let answer :=
    match ending with
    | Return r => r
    | Raise e => error_reply e              (* except Exception as e *)
    | Continue _ | Lost => Unknown
    end in
  let w :=                                   (* finally *)
    match conn with
    | Some c => close c w
    | None => w
    end in
  (answer, w).

(** An object of the list [get_all_players] returns: the selected columns
    with [skills] decoded and [date] reformatted. *)
Record entry : Type :=
  mkentry { o_id : string; o_name : string; o_specialties : string;
            o_age : string; o_TSI : string; o_salary : string;
            o_fitness : string; o_form : string; o_skills : json;
            o_date : string }.

(** What [GET /players] gives: the list, the error object, an exception
    that leaves the handler, or a result the model does not determine. *)
Inductive listing : Type :=
| Rows (result : list entry)
| ErrorObject (text : string)
| Uncaught (e : exn)
| Undetermined.

(** Python truth of an [Optional[str]]: [None] and [""] are false. *)
Definition truthy (v : option string) : option string :=
  match v with
  | Some EmptyString => None
  | other => other
  end.

(** Lines 186-189: the stored date back in day/month/year form, or the
    stored text when [strptime] raises. *)
Definition display_date (stored : string) : string :=
  match strptime_Ymd stored with
  | Some d => strftime_dmY d
  | None => stored
  end.

(** [dict(row)] with [skills] replaced by the decoded value and [date] by
    the reformatted one. *)
Definition row_dict (r : row) (decoded : json) : entry :=
  mkentry (r_id r) (r_name r) (r_specialties r) (r_age r) (r_TSI r)
          (r_salary r) (r_fitness r) (r_form r) decoded
          (display_date (r_date r)).

(** Lines 183-191, the loop over the fetched rows. *)
Fixpoint build_result (rows : list row) (result : list entry)
  : flow (list entry) :=
  match rows with
  | [] => Continue result
  | r :: rest =>
      match loads (r_skills r) with
      | Decoded v => build_result rest (result ++ [row_dict r v])
      | JSONDecodeError msg pos => Raise (DecodeError (r_skills r) msg pos)
      | DecodeRaises => Raise (StrainedDecode (r_skills r))
      | NotModelled => Lost
      end
  end.

(** Lines 163-173: the filters, or the early [return] of the error
    object. *)
Definition build_filters (player_id date : option string)
  : flow (list condition) :=
  let filters :=
    match truthy player_id with
    | Some v => [IdIs v]
    | None => []
    end in
  match truthy date with
  | Some text =>
      match strptime_dmY text with
      | Some parsed => Continue (filters ++ [DateIs (strftime_Ymd parsed)])%list
      | None => Return (Error "Invalid date format. Use DD/MM/YYYY.")
      end
  | None => Continue filters
  end.

(** [GET /players].  Where the model does not follow the loop
    ([Undetermined]: a stored skills text with a float) the world that
    comes with it says nothing about the connection. *)
Definition get_all_players (player_id date : option string) (w : world)
  : listing * world :=
  let (conn, w) := connect w in
  match build_filters player_id date with
  | Continue filters =>
      let rows := fetchall (select filters) conn in
      match build_result rows [] with
      | Continue result => (Rows result, close conn w)
      | Raise e => (Uncaught e, w)
      | Return _ | Lost => (Undetermined, w)
      end
  | Return (Error text) => (ErrorObject text, w)
  | Return _ | Raise _ | Lost => (Undetermined, w)
  end.

(** [init_db()] and [add_age_to_stats_if_missing()]: the tables exist, with
    the [age] column, and the connections used are closed. *)
Definition init_db (w : world) : world :=
  let (conn, w) := connect w in
  let w := commit conn w in
  close conn w.

Definition add_age_to_stats_if_missing (w : world) : world :=
  let (conn, w) := connect w in
  close conn w.

(** The service at start-up, on a file with no rows. *)
Definition started : world :=
  add_age_to_stats_if_missing (init_db (mkworld Sqlite.empty 0)).

(** The worlds the service reaches from start-up by serving requests. *)
Inductive reachable (lib : pydantic) : world -> Prop :=
| reach_start : reachable lib started
| reach_save now player_id player_data w :
    reachable lib w ->
    reachable lib (snd (save_player lib now player_id player_data w))
| reach_list player_id date w :
    reachable lib w ->
    reachable lib (snd (get_all_players player_id date w)).

(** The keys of a request body in the documented shape for a player,
    without the [date] key. *)
Definition fields_of (p : Player) : dict :=
  [("name", JStr (name p)); ("age", JStr (age p));
   ("TSI", JStr (TSI p)); ("salary", JStr (salary p));
   ("specialties", JStr (specialties p)); ("form", JStr (form p));
   ("fitness", JStr (fitness p)); ("skills", JObj (skills p))].

(** The body with its [date] key, null when the player has no date. *)
Definition body_of (p : Player) : json :=
  JObj (fields_of p
        ++ [("date", match date p with Some d => JStr d | None => JNull end)]).

(** The object expected in the list for the snapshot saved from [p], when
    the row of [players] carries the name and specialties of [holder]. *)
Definition entry_of (player_id : string) (holder p : Player)
    (shown_date : string) : entry :=
  mkentry player_id (name holder) (specialties holder) (age p) (TSI p)
          (salary p) (fitness p) (form p) (JObj (skills p)) shown_date.

(** Serving Save requests for one identity one after the other. *)
Fixpoint save_all (lib : pydantic) (player_id : string)
    (requests : list (Calendar.date * json)) (w : world) : world :=
  match requests with
  | [] => w
  | (now, body) :: rest =>
      save_all lib player_id rest
               (snd (save_player lib now player_id body w))
  end.

(** A Save request that went through: the reading of the clock, the body,
    the player validated from it and the date its date text denotes. *)
Record saved : Type :=
  mksaved { at_time : Calendar.date; body : json; player : Player;
            on_date : Calendar.date }.

Definition requests_of (batch : list saved) : list (Calendar.date * json) :=
  map (fun q => (at_time q, body q)) batch.

(** The body of [q] is accepted as [player q], with skills that hold each
    key once and a date text that [strptime] reads as [on_date q]. *)
Definition accepted (lib : pydantic) (q : saved) : Prop :=
  parse_body lib (body q) = Continue (player q)
  /\ wf (JObj (skills (player q))) = true
  /\ exists text, date (player q) = Some text
                  /\ strptime_dmY text = Some (on_date q).

(** The snapshot written for [q]. *)
Definition snapshot_of (player_id : string) (q : saved) : stats_row :=
  stats_of player_id (player q) (strftime_Ymd (on_date q)).

(** The tables after the requests of a batch. *)
Fixpoint stored (player_id : string) (batch : list saved) (db : database)
  : database :=
  match batch with
  | [] => db
  | q :: rest =>
      stored player_id rest
        (insert_stats (snapshot_of player_id q)
           (upsert_player player_id (name (player q))
                          (specialties (player q)) db))
  end.

(** What holds of the tables in every world the service reaches: the
    primary key, a row of [players] for every snapshot, and skills texts
    written by [json.dumps]. *)
Definition consistent (db : database) : Prop :=
  primary_key db
  /\ Forall (fun s => has_player db s = true
                      /\ exists v, s_skills s = dumps v) (player_stats db).

(** The object [e] is the snapshot [s] joined with its row of [players],
    with the skills decoded and the date reformatted. *)
Definition shows (db : database) (s : stats_row) (e : entry) : Prop :=
  exists p,
    In p (players db) /\ p_id p = s_player_id s
    /\ o_id e = p_id p /\ o_name e = p_name p
    /\ o_specialties e = p_specialties p
    /\ o_age e = s_age s /\ o_TSI e = s_TSI s /\ o_salary e = s_salary s
    /\ o_fitness e = s_fitness s /\ o_form e = s_form s
    /\ loads (s_skills s) = Decoded (o_skills e)
    /\ o_date e = display_date (s_date s).

End Server.

(** ** Sample requests *)

Module Sample.
Import Json Sqlite Server.

Definition clock : Calendar.date := Calendar.mkdate 2025 1 2.

Definition ann : Player :=
  mkPlayer "Ann" "17" "1200" "300" "Quick" "6" "7"
           [("keeper", JInt 7); ("passing", JStr "5")] (Some "17/03/2024").

(** The same player a week later, renamed. *)
Definition annie : Player :=
  mkPlayer "Annie" "17" "1250" "310" "Quick, Head" "7" "7"
           [("keeper", JInt 8); ("passing", JStr "5")] (Some "24/03/2024").

(** A date that is not in the calendar. *)
Definition feb31 : Player :=
  mkPlayer "Ann" "17" "1200" "300" "Quick" "6" "7"
           [("keeper", JInt 7)] (Some "31/02/2024").

Definition undated : Player :=
  mkPlayer "Ann" "17" "1200" "300" "Quick" "6" "7" [("keeper", JInt 7)] None.

(** A date written without the leading zeros. *)
Definition first_of_feb : Player :=
  mkPlayer "Ann" "17" "1200" "300" "Quick" "6" "7" [("keeper", JInt 7)]
           (Some "1/2/2024").

(** A date before the year 1000, and one after. *)
Definition in_999 : Player :=
  mkPlayer "Ann" "17" "1200" "300" "Quick" "6" "7" [("keeper", JInt 7)]
           (Some "01/01/0999").

Definition in_2024 : Player :=
  mkPlayer "Ann" "18" "1300" "320" "Quick" "6" "7" [("keeper", JInt 8)]
           (Some "01/01/2024").

Definition first_save : saved :=
  mksaved clock (body_of ann) ann (Calendar.mkdate 2024 3 17).

Definition second_save : saved :=
  mksaved clock (body_of annie) annie (Calendar.mkdate 2024 3 24).

(** Tables with a snapshot whose identity has no row in [players]. *)
Definition with_orphan : world :=
  mkworld
    (mkdb [mkplayer "1" "Ann" "Quick"]
          [mkstats "1" "1200" "300" "7" "6" "{}" "2024-03-17" "17";
           mkstats "9" "900" "200" "5" "5" "{}" "2024-03-18" "19"])
    0.

(** Tables with a snapshot whose skills text is not JSON. *)
Definition with_bad_skills : world :=
  mkworld
    (mkdb [mkplayer "1" "Ann" "Quick"]
          [mkstats "1" "1200" "300" "7" "6" "oops" "2024-03-17" "17"])
    0.

End Sample.

(** ** The schema of [players.db] and the start-up of the service *)

Module Schema.

(** A cell of a row: a [TEXT] value or [NULL]. *)
Definition cell : Type := option string.

(** A table: the names of its columns, in the order of their declaration,
    and its rows, one cell for each column. *)
Record table : Type :=
  mktable { columns : list string; records : list (list cell) }.

(** The tables of the file, by name. *)
Definition file : Type := list (string * table).

(** SQLite compares the names of tables and columns without regard to the
    case of the ASCII letters. *)
Definition lower_char (c : ascii) : ascii :=
  if Text.between "A" "Z" c then ascii_of_nat (Text.code c + 32) else c.

Fixpoint lower (s : string) : string :=
  match s with
  | EmptyString => EmptyString
  | String c r => String (lower_char c) (lower r)
  end.

Definition same_name (a b : string) : bool :=
  String.eqb (lower a) (lower b).

Fixpoint find_table (name : string) (f : file) : option table :=
  match f with
  | [] => None
  | (n, t) :: rest =>
      if same_name n name then Some t else find_table name rest
  end.

(** [CREATE TABLE IF NOT EXISTS name (cols)] *)
Definition create_table_if_not_exists (name : string) (cols : list string)
    (f : file) : file :=
  match find_table name f with
  | Some _ => f
  | None => (f ++ [(name, mktable cols [])])%list
  end.

(** [PRAGMA table_info(name)], the names of the columns ([col[1]] of each
    row): no row when there is no such table. *)
Definition table_info (name : string) (f : file) : list string :=
  match find_table name f with
  | Some t => columns t
  | None => []
  end.

Fixpoint replace_table (name : string) (t' : table) (f : file) : file :=
  match f with
  | [] => []
  | (n, t) :: rest =>
      if same_name n name then (n, t') :: rest
      else (n, t) :: replace_table name t' rest
  end.

(** [ALTER TABLE name ADD COLUMN column TEXT]: the rows that exist read
    [NULL] in the new column.  [None] is the [OperationalError] SQLite
    raises when there is no such table or the table has a column of that
    name. *)
Definition add_column (name column : string) (f : file) : option file :=
  match find_table name f with
  | None => None
  | Some t =>
      if existsb (same_name column) (columns t) then None
      else Some (replace_table name
                   (mktable (columns t ++ [column])%list
                            (map (fun r => (r ++ [None])%list) (records t)))
                   f)
  end.

Definition players_columns : list string := ["id"; "name"; "specialties"].

Definition player_stats_columns : list string :=
  ["player_id"; "TSI"; "salary"; "fitness"; "form"; "skills"; "date"; "age"].

(** [init_db()], lines 21-50. *)
Definition init_db (f : file) : file :=
  create_table_if_not_exists "player_stats" player_stats_columns
    (create_table_if_not_exists "players" players_columns f).

(** [add_age_to_stats_if_missing()], lines 54-62; [None] when the
    [ALTER TABLE] raises, which nothing catches. *)
Definition add_age_to_stats_if_missing (f : file) : option file :=
  let columns := table_info "player_stats" f in
  if existsb (String.eqb "age") columns then Some f
  else add_column "player_stats" "age" f.

(** Lines 65-66, run when the module is loaded. *)
Definition startup (f : file) : option file :=
  add_age_to_stats_if_missing (init_db f).

(** The table has a column of exactly this name. *)
Definition has_column (name column : string) (f : file) : Prop :=
  exists t, find_table name f = Some t /\ In column (columns t).

End Schema.

(** ** Further notions about the handlers *)

Module Notions.
Import Json Sqlite Server.


(** The fields a body has to give under both versions of the library. *)
Definition required_fields : list string :=
  ["name"; "age"; "TSI"; "salary"; "specialties"; "form"; "fitness";
   "skills"].

(** Every snapshot carries the sortable text of a date of the calendar
    with a year of four digits. *)
Definition dated (db : database) : Prop :=
  Forall (fun s => exists d, Calendar.valid_date d = true
                             /\ 1000 <= Calendar.year d
                             /\ s_date s = Calendar.strftime_Ymd d)
         (player_stats db).

(** The reply is an error object. *)
Definition reported (r : reply) : Prop :=
  match r with Error _ | ErrorOf _ => True | _ => False end.

(** The reply is not the success message. *)
Definition refused (r : reply) : Prop :=
  match r with Message _ => False | _ => True end.

(** The listing came back to the caller as a value, rows or the error
    object, rather than as an exception. *)
Definition answered (l : listing) : Prop :=
  match l with Rows _ | ErrorObject _ => True | _ => False end.

(** A legacy file: [player_stats] as it was before the [age] column, with
    two rows. *)
Definition legacy : Schema.file :=
  [("players", Schema.mktable Schema.players_columns
                 [[Some "1"; Some "Ann"; Some "Quick"]]);
   ("player_stats",
    Schema.mktable ["player_id"; "TSI"; "salary"; "fitness"; "form";
                    "skills"; "date"]
      [[Some "1"; Some "1200"; Some "300"; Some "7"; Some "6"; Some "{}";
        Some "2024-03-17"];
       [Some "1"; Some "1250"; Some "310"; Some "7"; Some "7"; Some "{}";
        Some "2024-03-24"]])].

(** The legacy file after the start-up. *)
Definition migrated : Schema.file :=
  [("players", Schema.mktable Schema.players_columns
                 [[Some "1"; Some "Ann"; Some "Quick"]]);
   ("player_stats",
    Schema.mktable Schema.player_stats_columns
      [[Some "1"; Some "1200"; Some "300"; Some "7"; Some "6"; Some "{}";
        Some "2024-03-17"; None];
       [Some "1"; Some "1250"; Some "310"; Some "7"; Some "7"; Some "{}";
        Some "2024-03-24"; None]])].

(** A file whose [player_stats] has the column under the name [AGE]. *)
Definition shouting : Schema.file :=
  [("player_stats", Schema.mktable ["player_id"; "AGE"] [])].

(** The world after the first sample save. *)
Definition after_ann : world :=
  snd (save_player V2 Sample.clock "42" (body_of Sample.ann) started).


(** The sample body with its skills sent as text. *)
Definition ann_encoded : dict :=
  dict_set "skills" (JStr (dumps (JObj (skills Sample.ann))))
           (fields_of Sample.ann
            ++ [("date", JStr "17/03/2024")])%list.

End Notions.

Example strptime_ok :
  Calendar.strptime_dmY "17/03/2024" = Some (Calendar.mkdate 2024 3 17).
Proof. reflexivity. Qed.

Example strptime_feb31 : Calendar.strptime_dmY "31/02/2024" = None.
Proof. reflexivity. Qed.

Example strptime_short :
  option_map Calendar.strftime_Ymd (Calendar.strptime_dmY "1/2/2024")
  = Some "2024-02-01".
Proof. reflexivity. Qed.

Example dumps_skills :
  Json.dumps (Json.JObj [("keeper", Json.JInt 7); ("form", Json.JStr "a\b");
                         ("l", Json.JArr [Json.JNull; Json.JBool true])])
  = "{" ++ String Json.quote ("keeper" ++ String Json.quote (": 7, "
      ++ String Json.quote ("form" ++ String Json.quote (": "
      ++ String Json.quote ("a\\b" ++ String Json.quote (", "
      ++ String Json.quote ("l" ++ String Json.quote ": [null, true]}"))))))).
Proof. reflexivity. Qed.

Example loads_skills :
  Json.loads (Json.dumps (Json.JObj [("keeper", Json.JInt 7);
                                     ("l", Json.JArr [Json.JNull; Json.JInt (-12)])]))
  = Json.Decoded (Json.JObj [("keeper", Json.JInt 7);
                             ("l", Json.JArr [Json.JNull; Json.JInt (-12)])]).
Proof. reflexivity. Qed.

Example loads_bad :
  Json.loads "{not valid json"
  = Json.JSONDecodeError "Expecting property name enclosed in double quotes" 1.
Proof. reflexivity. Qed.

Example loads_open_bracket : Json.loads "[" = Json.JSONDecodeError "Expecting value" 1.
Proof. reflexivity. Qed.

Example loads_unclosed_list :
  Json.loads "[[1" = Json.JSONDecodeError "Expecting ',' delimiter" 3.
Proof. reflexivity. Qed.

(** * Facts about characters and decimal fields *)

Section TextFacts.
Import Text.

Lemma code_digit_chr n : n < 10 -> code (digit_chr n) = 48 + n.
Proof.
  intros H. unfold code, digit_chr. apply nat_ascii_embedding. lia.
Qed.

Lemma is_digit_bounds c : is_digit c = true <-> 48 <= code c <= 57.
Proof.
  unfold is_digit, between. change (code "0") with 48.
  change (code "9") with 57.
  rewrite andb_true_iff, !Nat.leb_le. tauto.
Qed.

Lemma is_digit_digit_chr n : n < 10 -> is_digit (digit_chr n) = true.
Proof.
  intros H. apply is_digit_bounds. rewrite (code_digit_chr n H). lia.
Qed.

Lemma digit_val_digit_chr n : n < 10 -> digit_val (digit_chr n) = n.
Proof.
  intros H. unfold digit_val. rewrite (code_digit_chr n H). lia.
Qed.

Lemma digit_val_bound c : is_digit c = true -> digit_val c < 10.
Proof.
  intros H. apply is_digit_bounds in H. unfold digit_val. lia.
Qed.

Lemma digit_chr_digit_val c : is_digit c = true -> digit_chr (digit_val c) = c.
Proof.
  intros H. apply is_digit_bounds in H. unfold digit_chr, digit_val.
  replace (48 + (code c - 48)) with (code c) by lia.
  apply ascii_nat_embedding.
Qed.

Lemma between_code lo hi c :
  between lo hi c = true <-> code lo <= code c <= code hi.
Proof.
  unfold between. rewrite andb_true_iff, !Nat.leb_le. tauto.
Qed.

Lemma eqb_code a b : Ascii.eqb a b = true <-> code a = code b.
Proof.
  rewrite Ascii.eqb_eq. split; [intros ->; reflexivity|].
  unfold code. intros H.
  rewrite <- (ascii_nat_embedding a), <- (ascii_nat_embedding b), H.
  reflexivity.
Qed.

Lemma eqb_code_false a b : code a <> code b -> Ascii.eqb a b = false.
Proof.
  intros H. apply not_true_is_false. rewrite eqb_code. exact H.
Qed.

(** The decimal digits of a number below ten thousand. *)
Lemma four_digits n :
  n < 10 * 1000 ->
  n / 1000 < 10 /\ (n / 100) mod 10 < 10 /\ (n / 10) mod 10 < 10
  /\ n mod 10 < 10
  /\ 1000 * (n / 1000) + 100 * ((n / 100) mod 10)
     + 10 * ((n / 10) mod 10) + n mod 10 = n.
Proof.
  intros H.
  pose proof (Nat.div_mod_eq n 10).
  pose proof (Nat.div_mod_eq (n / 10) 10).
  pose proof (Nat.div_mod_eq (n / 10 / 10) 10).
  pose proof (Nat.mod_upper_bound n 10).
  pose proof (Nat.mod_upper_bound (n / 10) 10).
  pose proof (Nat.mod_upper_bound (n / 10 / 10) 10).
  replace (n / 100) with (n / 10 / 10)
    by (rewrite Nat.Div0.div_div; reflexivity).
  replace (n / 1000) with (n / 10 / 10 / 10)
    by (rewrite !Nat.Div0.div_div; reflexivity).
  lia.
Qed.

Lemma two_digits n :
  n < 100 -> n / 10 < 10 /\ n mod 10 < 10 /\ 10 * (n / 10) + n mod 10 = n.
Proof.
  intros H.
  pose proof (Nat.div_mod_eq n 10).
  pose proof (Nat.mod_upper_bound n 10). lia.
Qed.

Lemma zfill2_digits a b :
  a < 10 -> b < 10 ->
  zfill2 (10 * a + b) = String (digit_chr a) (String (digit_chr b) "").
Proof.
  intros Ha Hb. unfold zfill2.
  replace ((10 * a + b) / 10) with a
    by (apply (Nat.div_unique _ 10 a b); lia).
  replace ((10 * a + b) mod 10) with b
    by (apply (Nat.mod_unique _ 10 a b); lia).
  reflexivity.
Qed.

Lemma zfill4_digits a b c d :
  a < 10 -> b < 10 -> c < 10 -> d < 10 ->
  zfill4 (1000 * a + 100 * b + 10 * c + d)
  = String (digit_chr a) (String (digit_chr b)
      (String (digit_chr c) (String (digit_chr d) ""))).
Proof.
  intros Ha Hb Hc Hd. unfold zfill4.
  set (n := 1000 * a + 100 * b + 10 * c + d).
  replace (n / 1000) with a
    by (apply (Nat.div_unique _ 1000 a (100 * b + 10 * c + d));
        unfold n; lia).
  replace (n / 100) with (10 * a + b)
    by (apply (Nat.div_unique _ 100 _ (10 * c + d)); unfold n; lia).
  replace (n / 10) with (10 * (10 * a + b) + c)
    by (apply (Nat.div_unique _ 10 _ d); unfold n; lia).
  replace (n mod 10) with d
    by (apply (Nat.mod_unique _ 10 (10 * (10 * a + b) + c) d);
        unfold n; lia).
  replace ((10 * a + b) mod 10) with b
    by (apply (Nat.mod_unique _ 10 a b); lia).
  replace ((10 * (10 * a + b) + c) mod 10) with c
    by (apply (Nat.mod_unique _ 10 (10 * a + b) c); lia).
  reflexivity.
Qed.

End TextFacts.

(** * Facts about the date formats *)

Section CalendarFacts.
Import Text Calendar.

Lemma MAXYEAR_eq : MAXYEAR = 9 * 1000 + 999.
Proof. reflexivity. Qed.

Lemma valid_date_bounds d :
  valid_date d = true ->
  1 <= year d /\ year d < 10 * 1000 /\ 1 <= month d <= 12
  /\ 1 <= day d <= 31.
Proof.
  unfold valid_date. rewrite !andb_true_iff, !Nat.leb_le, MAXYEAR_eq.
  intros [[[[[Hy1 Hy2] Hm1] Hm2] Hd1] Hd2].
  assert (days_in_month (year d) (month d) <= 31).
  { unfold days_in_month.
    destruct (month d) as [|[|[|[|[|[|[|[|[|[|[|[|[|m]]]]]]]]]]]]];
      try destruct (is_leap _); lia. }
  lia.
Qed.

Lemma strftime_Y_zfill4 y : 1000 <= y -> strftime_Y y = zfill4 y.
Proof.
  intros H. unfold strftime_Y, unpadded.
  rewrite !(proj2 (Nat.ltb_ge _ _)) by lia. reflexivity.
Qed.

Lemma re_Y_zfill4 y rest :
  y < 10 * 1000 -> re_Y (zfill4 y ++ rest) = Some (y, rest).
Proof.
  intros H. destruct (four_digits y H) as (H1 & H2 & H3 & H4 & Hsum).
  unfold zfill4. cbn [append]. unfold re_Y.
  rewrite !is_digit_digit_chr, !digit_val_digit_chr by assumption.
  cbn [andb]. rewrite Hsum. reflexivity.
Qed.

Lemma re_m_zfill2 m rest :
  1 <= m <= 12 -> re_m (zfill2 m ++ rest) = Some (m, rest).
Proof.
  intros [H1 H2].
  do 13 (destruct m as [|m]; [try lia; try reflexivity|]). lia.
Qed.

Lemma re_d_zfill2 d rest :
  1 <= d <= 31 -> re_d (zfill2 d ++ rest) = Some (d, rest).
Proof.
  intros [H1 H2].
  do 32 (destruct d as [|d]; [try lia; try reflexivity|]). lia.
Qed.

Lemma make_date_valid d :
  valid_date d = true -> make_date (year d) (month d) (day d) = Some d.
Proof.
  intros H. unfold make_date. destruct d as [y m dd]. cbn [year month day].
  rewrite H. reflexivity.
Qed.

(** The sortable form of a date with a four-digit year parses back to the
    date. *)
Lemma strptime_Ymd_strftime d :
  valid_date d = true -> 1000 <= year d ->
  strptime_Ymd (strftime_Ymd d) = Some d.
Proof.
  intros Hv Hk. destruct (valid_date_bounds d Hv) as (_ & Hy & Hm & Hd).
  unfold strptime_Ymd, strftime_Ymd. rewrite strftime_Y_zfill4 by exact Hk.
  rewrite re_Y_zfill4 by assumption. cbn [append re_lit Ascii.eqb Bool.eqb].
  rewrite re_m_zfill2 by assumption. cbn [append re_lit Ascii.eqb Bool.eqb].
  change (zfill2 (day d)) with (zfill2 (day d) ++ "").
  rewrite re_d_zfill2 by assumption. cbn [at_end].
  apply make_date_valid, Hv.
Qed.

(** So does the day/month/year form. *)
Lemma strptime_dmY_strftime d :
  valid_date d = true -> 1000 <= year d ->
  strptime_dmY (strftime_dmY d) = Some d.
Proof.
  intros Hv Hk. destruct (valid_date_bounds d Hv) as (_ & Hy & Hm & Hd).
  unfold strptime_dmY, strftime_dmY. rewrite strftime_Y_zfill4 by exact Hk.
  rewrite re_d_zfill2 by assumption. cbn [append re_lit Ascii.eqb Bool.eqb].
  rewrite re_m_zfill2 by assumption. cbn [append re_lit Ascii.eqb Bool.eqb].
  change (zfill4 (year d)) with (zfill4 (year d) ++ "").
  rewrite re_Y_zfill4 by assumption. cbn [at_end].
  apply make_date_valid, Hv.
Qed.

Lemma make_date_inv y m d r :
  make_date y m d = Some r -> r = mkdate y m d /\ valid_date r = true.
Proof.
  unfold make_date. destruct (valid_date (mkdate y m d)) eqn:Hv; [|discriminate].
  intros [= <-]. split; [reflexivity | exact Hv].
Qed.

(** [strptime] only returns dates that exist. *)
Lemma strptime_dmY_valid s d : strptime_dmY s = Some d -> valid_date d = true.
Proof.
  unfold strptime_dmY.
  destruct (re_d s) as [[dd r1]|]; [|discriminate].
  destruct (re_lit "/" r1) as [r2|]; [|discriminate].
  destruct (re_m r2) as [[m r3]|]; [|discriminate].
  destruct (re_lit "/" r3) as [r4|]; [|discriminate].
  destruct (re_Y r4) as [[y r5]|]; [|discriminate].
  destruct (at_end r5); [|discriminate].
  intros H. apply make_date_inv in H. apply H.
Qed.

End CalendarFacts.

Section CalendarOrder.
Import Text Calendar.

Lemma digit_not_slash c : is_digit c = true -> Ascii.eqb c "/" = false.
Proof.
  intros H. apply is_digit_bounds in H. apply eqb_code_false.
  change (code "/") with 47. lia.
Qed.

Lemma re_d_digits a b r n r' :
  is_digit a = true -> is_digit b = true ->
  re_d (String a (String b r)) = Some (n, r') ->
  (n = 10 * digit_val a + digit_val b /\ r' = r) \/ r' = String b r.
Proof.
  intros Ha Hb. unfold re_d.
  destruct (Ascii.eqb a "3" && between "0" "1" b) eqn:E1.
  { apply andb_prop in E1. destruct E1 as [E1 _].
    apply Ascii.eqb_eq in E1. subst a. intros [= <- <-]. left. split; reflexivity. }
  destruct (between "1" "2" a && is_digit b) eqn:E2.
  { intros [= <- <-]. left. split; reflexivity. }
  destruct (Ascii.eqb a "0" && between "1" "9" b) eqn:E3.
  { apply andb_prop in E3. destruct E3 as [E3 _].
    apply Ascii.eqb_eq in E3. subst a. intros [= <- <-]. left. split; reflexivity. }
  destruct (between "1" "9" a).
  { intros [= <- <-]. right. reflexivity. }
  destruct (Ascii.eqb a " " && between "1" "9" b) eqn:E5; [|discriminate].
  apply andb_prop in E5. destruct E5 as [E5 _].
  apply Ascii.eqb_eq in E5. subst a. discriminate Ha.
Qed.

Lemma re_m_digits a b r n r' :
  is_digit a = true -> is_digit b = true ->
  re_m (String a (String b r)) = Some (n, r') ->
  (n = 10 * digit_val a + digit_val b /\ r' = r) \/ r' = String b r.
Proof.
  intros Ha Hb. unfold re_m.
  destruct (Ascii.eqb a "1" && between "0" "2" b) eqn:E1.
  { apply andb_prop in E1. destruct E1 as [E1 _].
    apply Ascii.eqb_eq in E1. subst a. intros [= <- <-]. left. split; reflexivity. }
  destruct (Ascii.eqb a "0" && between "1" "9" b) eqn:E3.
  { apply andb_prop in E3. destruct E3 as [E3 _].
    apply Ascii.eqb_eq in E3. subst a. intros [= <- <-]. left. split; reflexivity. }
  destruct (between "1" "9" a); [|discriminate].
  intros [= <- <-]. right. reflexivity.
Qed.

(** A text made of two digits, two digits and four digits that [strptime]
    accepts is the day/month/year form of the date it denotes, when the
    year has no leading zero. *)
Lemma ddmmyyyy_canonical s d :
  ddmmyyyy s = true -> strptime_dmY s = Some d -> 1000 <= year d ->
  strftime_dmY d = s.
Proof.
  intros Hshape Hparse Hk. revert Hk.
  do 10 (destruct s as [|? s]; [discriminate Hshape|]).
  destruct s; [|discriminate Hshape].
  cbn [ddmmyyyy] in Hshape. rewrite !andb_true_iff in Hshape.
  destruct Hshape as [[[[[[[[[Ha Hb] Hp] Hc] He] Hq] Hf] Hg] Hh] Hi].
  apply Ascii.eqb_eq in Hp, Hq. subst.
  unfold strptime_dmY in Hparse.
  destruct (re_d _) as [[dd r1]|] eqn:Hd; [|discriminate].
  apply re_d_digits in Hd; [|assumption..].
  destruct Hd as [[-> ->] | ->];
    [|cbn [re_lit] in Hparse; rewrite digit_not_slash in Hparse by assumption;
      discriminate].
  cbn [re_lit Ascii.eqb Bool.eqb] in Hparse.
  destruct (re_m _) as [[mm r2]|] eqn:Hm; [|discriminate].
  apply re_m_digits in Hm; [|assumption..].
  destruct Hm as [[-> ->] | ->];
    [|cbn [re_lit] in Hparse; rewrite digit_not_slash in Hparse by assumption;
      discriminate].
  cbn [re_lit Ascii.eqb Bool.eqb] in Hparse.
  unfold re_Y in Hparse. rewrite Hf, Hg, Hh, Hi in Hparse.
  cbn [andb at_end] in Hparse.
  apply make_date_inv in Hparse. destruct Hparse as [-> _].
  unfold strftime_dmY. cbn [year month day]. intros Hk.
  rewrite strftime_Y_zfill4 by exact Hk.
  rewrite !zfill2_digits, zfill4_digits by (apply digit_val_bound; assumption).
  rewrite !digit_chr_digit_val by assumption. reflexivity.
Qed.

Lemma ascii_compare_code a b : Ascii.compare a b = Nat.compare (code a) (code b).
Proof.
  unfold Ascii.compare, code, nat_of_ascii.
  apply N2Nat.inj_compare.
Qed.

Ltac compare_cases :=
  repeat match goal with
         | |- context [?a ?= ?b] =>
             destruct (Nat.compare_spec a b); cbn [lex]
         end;
  try reflexivity; try lia.

Lemma compare_zfill2 a b s t :
  a < 100 -> b < 100 ->
  String.compare (zfill2 a ++ s) (zfill2 b ++ t)
  = lex (a ?= b) (String.compare s t).
Proof.
  intros Ha Hb.
  destruct (two_digits a Ha) as (Ha1 & Ha0 & Hsa).
  destruct (two_digits b Hb) as (Hb1 & Hb0 & Hsb).
  unfold zfill2. cbn [append String.compare].
  rewrite !ascii_compare_code, !code_digit_chr by assumption.
  compare_cases.
Qed.

Lemma compare_zfill4 a b s t :
  a < 10 * 1000 -> b < 10 * 1000 ->
  String.compare (zfill4 a ++ s) (zfill4 b ++ t)
  = lex (a ?= b) (String.compare s t).
Proof.
  intros Ha Hb.
  destruct (four_digits a Ha) as (Ha3 & Ha2 & Ha1 & Ha0 & Hsa).
  destruct (four_digits b Hb) as (Hb3 & Hb2 & Hb1 & Hb0 & Hsb).
  unfold zfill4. cbn [append String.compare].
  rewrite !ascii_compare_code, !code_digit_chr by assumption.
  compare_cases.
Qed.

(** The order of the sortable texts is the order of the calendar, for
    years of four digits. *)
Lemma sortable_order a b :
  valid_date a = true -> valid_date b = true ->
  1000 <= year a -> 1000 <= year b ->
  String.ltb (strftime_Ymd a) (strftime_Ymd b) = date_ltb a b.
Proof.
  intros Ha Hb Hka Hkb.
  destruct (valid_date_bounds a Ha) as (_ & Hya & Hma & Hda).
  destruct (valid_date_bounds b Hb) as (_ & Hyb & Hmb & Hdb).
  unfold String.ltb, strftime_Ymd, date_ltb.
  rewrite !strftime_Y_zfill4 by assumption.
  rewrite compare_zfill4 by assumption. cbn [append String.compare].
  change (Ascii.compare "-" "-") with Eq. cbv iota.
  rewrite compare_zfill2 by lia. cbn [append String.compare].
  change (Ascii.compare "-" "-") with Eq. cbv iota.
  change (zfill2 (day a)) with (zfill2 (day a) ++ "").
  change (zfill2 (day b)) with (zfill2 (day b) ++ "").
  rewrite compare_zfill2 by lia. cbn [String.compare].
  destruct (Nat.compare_spec (year a) (year b)) as [Hy|Hy|Hy]; cbn [lex].
  - rewrite Hy, Nat.ltb_irrefl, Nat.eqb_refl. cbn [orb andb].
    destruct (Nat.compare_spec (month a) (month b)) as [Hm|Hm|Hm]; cbn [lex].
    + rewrite Hm, Nat.ltb_irrefl, Nat.eqb_refl. cbn [orb andb].
      destruct (Nat.compare_spec (day a) (day b)) as [Hd|Hd|Hd]; cbn [lex].
      * rewrite Hd, Nat.ltb_irrefl. reflexivity.
      * symmetry. apply Nat.ltb_lt. exact Hd.
      * symmetry. apply Nat.ltb_ge. lia.
    + rewrite (proj2 (Nat.ltb_lt _ _) Hm). reflexivity.
    + rewrite (proj2 (Nat.ltb_ge _ _)) by lia.
      rewrite (proj2 (Nat.eqb_neq _ _)) by lia. reflexivity.
  - rewrite (proj2 (Nat.ltb_lt _ _) Hy). reflexivity.
  - rewrite (proj2 (Nat.ltb_ge _ _)) by lia.
    rewrite (proj2 (Nat.eqb_neq _ _)) by lia. reflexivity.
Qed.

Lemma strftime_Ymd_inj a b :
  valid_date a = true -> valid_date b = true ->
  1000 <= year a -> 1000 <= year b ->
  strftime_Ymd a = strftime_Ymd b -> a = b.
Proof.
  intros Ha Hb Hka Hkb H.
  apply strptime_Ymd_strftime in Ha, Hb; try assumption. rewrite H in Ha.
  congruence.
Qed.

Lemma date_ltb_trans a b c :
  date_ltb a b = true -> date_ltb b c = true -> date_ltb a c = true.
Proof.
  unfold date_ltb.
  rewrite !orb_true_iff, !andb_true_iff, !orb_true_iff, !andb_true_iff,
    !Nat.ltb_lt, !Nat.eqb_eq.
  lia.
Qed.

End CalendarOrder.

(** * Facts about the JSON text *)

Section JsonFacts.
Import Text Json.

(** Induction on JSON values, with the hypothesis for every item of an
    array and every value of an object. *)
Lemma json_induction (P : json -> Prop) :
  P JNull ->
  (forall b, P (JBool b)) ->
  (forall z, P (JInt z)) ->
  (forall s, P (JStr s)) ->
  (forall items, Forall P items -> P (JArr items)) ->
  (forall members, Forall (fun kv => P (snd kv)) members -> P (JObj members)) ->
  forall v, P v.
Proof.
  intros Hnull Hbool Hint Hstr Harr Hobj.
  fix IH 1. intros [ | b | z | s | items | members].
  - exact Hnull.
  - apply Hbool.
  - apply Hint.
  - apply Hstr.
  - apply Harr. induction items as [|x xs IHxs]; constructor.
    + apply IH.
    + exact IHxs.
  - apply Hobj. induction members as [|[k x] ms IHms]; constructor.
    + apply IH.
    + exact IHms.
Qed.

Lemma append_nil_r s : s ++ "" = s.
Proof. induction s as [|c s IH]; cbn; [reflexivity | now rewrite IH]. Qed.

Lemma append_assoc (a b c : string) : (a ++ b) ++ c = a ++ (b ++ c).
Proof. induction a as [|x a IH]; cbn; [reflexivity | now rewrite IH]. Qed.

Lemma length_append (a b : string) :
  String.length (a ++ b) = String.length a + String.length b.
Proof. induction a as [|x a IH]; cbn; [reflexivity | now rewrite IH]. Qed.

(** ** Strings *)

Lemma escape_char_nonempty c : exists x y, escape_char c = String x y.
Proof.
  unfold escape_char.
  repeat match goal with
         | |- context [if ?b then _ else _] => destruct b
         end; cbn; eauto.
Qed.

Lemma scanstring_escape_char c x y opened :
  scanstring opened (escape_char c ++ String x y)
  = cons_char c (scanstring opened (String x y)).
Proof.
  destruct c as [[] [] [] [] [] [] [] []]; reflexivity.
Qed.

Lemma escaped_nonempty s rest :
  exists x y, escape s ++ String quote rest = String x y.
Proof.
  destruct s as [|c s]; cbn [escape append]; [eauto|].
  destruct (escape_char_nonempty c) as (x & y & ->). cbn. eauto.
Qed.

(** [scanstring] gives back the string whose escaped text it reads. *)
Lemma scanstring_escape s rest opened :
  scanstring opened (escape s ++ String quote rest) = Ok (s, rest).
Proof.
  induction s as [|c s IH].
  - reflexivity.
  - cbn [escape]. rewrite append_assoc.
    destruct (escaped_nonempty s rest) as (x & y & E).
    rewrite E, scanstring_escape_char, <- E, IH. reflexivity.
Qed.


(** ** Integers *)

Lemma delimited_not_digit c r : delimited (String c r) = true -> is_digit c = false.
Proof.
  cbn [delimited]. rewrite !orb_true_iff, !Ascii.eqb_eq.
  intros [[->| ->]| ->]; reflexivity.
Qed.

Lemma float_tail_delimited rest : delimited rest = true -> float_tail rest = false.
Proof.
  destruct rest as [|c r]; [reflexivity|].
  cbn [delimited]. rewrite !orb_true_iff, !Ascii.eqb_eq.
  intros [[->| ->]| ->]; reflexivity.
Qed.

Lemma scan_digits_string u rest :
  delimited rest = true -> scan_digits (digits_string u ++ rest) = (u, rest).
Proof.
  intros Hd. induction u as [|u IH|u IH|u IH|u IH|u IH|u IH|u IH|u IH|u IH|u IH];
    try (cbn [digits_string append scan_digits];
         match goal with
         | |- context [is_digit ?c] => change (is_digit c) with true
         end;
         cbv iota; rewrite IH; reflexivity).
  cbn [digits_string append]. destruct rest as [|c r]; [reflexivity|].
  cbn [scan_digits]. rewrite (delimited_not_digit c r Hd). reflexivity.
Qed.

(** The digits of a normalised decimal number are read back as the
    number. *)
Lemma scan_integer_string u rest :
  u <> Nil -> (forall u', u = D0 u' -> u' = Nil) -> delimited rest = true ->
  scan_integer (digits_string u ++ rest) = Some (u, rest).
Proof.
  intros Hnil Hzero Hd.
  destruct u as [|u|u|u|u|u|u|u|u|u|u]; [congruence | ..];
    try (cbn [digits_string append scan_integer];
         match goal with
         | |- context [Ascii.eqb ?c "0"] => change (Ascii.eqb c "0") with false
         end;
         match goal with
         | |- context [between "1" "9" ?c] =>
             change (between "1" "9" c) with true
         end;
         cbv iota; rewrite scan_digits_string by assumption; reflexivity).
  rewrite (Hzero u eq_refl). reflexivity.
Qed.

Lemma to_int_normal z :
  Decimal.norm (Z.to_int z) = Z.to_int z.
Proof.
  rewrite <- DecimalZ.to_of, DecimalZ.of_to. reflexivity.
Qed.

Lemma unorm_fixed u :
  unorm u = u -> u <> Nil /\ (forall u', u = D0 u' -> u' = Nil).
Proof.
  intros H. split.
  - intros ->. discriminate H.
  - intros u' ->. rewrite unorm_D0 in H. unfold unorm in H.
    destruct (nzhead u') eqn:E.
    + injection H as H. congruence.
    + exfalso. apply (nzhead_nonzero u' u'). congruence.
    + discriminate H. + discriminate H. + discriminate H. + discriminate H.
    + discriminate H. + discriminate H. + discriminate H. + discriminate H.
    + discriminate H.
Qed.

Lemma nzhead_fixed u :
  nzhead u = u -> forall u', u = D0 u' -> u' = Nil.
Proof.
  intros H u' ->. exfalso. apply (nzhead_nonzero (D0 u') u'). exact H.
Qed.

Lemma match_number_repr z rest :
  delimited rest = true ->
  match_number (repr_int z ++ rest) = Some (IntLit z, rest).
Proof.
  intros Hd. pose proof (to_int_normal z) as Hn.
  pose proof (DecimalZ.of_to z) as Hz.
  unfold repr_int. destruct (Z.to_int z) as [u|u].
  - cbn [norm] in Hn. injection Hn as Hn. apply unorm_fixed in Hn.
    destruct Hn as [Hnil Hzero].
    assert (E : match_number (digits_string u ++ rest)
                = match scan_integer (digits_string u ++ rest) with
                  | Some (u, r') =>
                      if float_tail r' then Some (FloatLit, r')
                      else Some (IntLit (Z.of_int (Pos u)), r')
                  | None => None
                  end).
    { destruct u; [congruence | reflexivity ..]. }
    rewrite E, scan_integer_string by assumption.
    rewrite float_tail_delimited by assumption. rewrite Hz. reflexivity.
  - cbn [norm] in Hn.
    assert (Hfix : nzhead u = u /\ u <> Nil).
    { destruct (nzhead u) eqn:E; try discriminate Hn;
        injection Hn as Hn; split; congruence. }
    destruct Hfix as [Hfix Hnil].
    cbn [append match_number]. change (Ascii.eqb "-" "-") with true. cbv iota.
    rewrite scan_integer_string; [|assumption|apply nzhead_fixed; assumption|assumption].
    rewrite float_tail_delimited by assumption. rewrite Hz. reflexivity.
Qed.

Lemma repr_int_head z :
  exists c t, repr_int z = String c t
              /\ (is_digit c || Ascii.eqb c "-") = true.
Proof.
  pose proof (to_int_normal z) as Hn.
  unfold repr_int. destruct (Z.to_int z) as [u|u].
  - cbn [norm] in Hn. injection Hn as Hn. apply unorm_fixed in Hn.
    destruct Hn as [Hnil _].
    destruct u; [congruence | cbn [digits_string]; eauto ..].
  - eauto.
Qed.

Lemma number_start_tests c :
  (is_digit c || Ascii.eqb c "-") = true ->
  Ascii.eqb c quote = false /\ Ascii.eqb c "{" = false
  /\ Ascii.eqb c "[" = false /\ Ascii.eqb "n" c = false
  /\ Ascii.eqb "t" c = false /\ Ascii.eqb "f" c = false
  /\ Ascii.eqb "N" c = false /\ Ascii.eqb "I" c = false.
Proof.
  destruct c as [[] [] [] [] [] [] [] []]; intros H; try discriminate H;
    repeat split; reflexivity.
Qed.

(** A text that starts like a number and matches as an integer is scanned
    as that integer. *)
Lemma scan_once_number fuel c r n r' :
  (is_digit c || Ascii.eqb c "-") = true ->
  match_number (String c r) = Some (IntLit n, r') ->
  scan_once (S fuel) (String c r) = Ok (JInt n, r').
Proof.
  intros Hc Hm.
  destruct (number_start_tests c Hc)
    as (Hq & Hobj & Harr & Hn & Ht & Hf & HN & HI).
  assert (Hinf : starts_with "-Infinity" (String c r) = false).
  { destruct (starts_with "-Infinity" (String c r)) eqn:E; [exfalso|reflexivity].
    cbn [starts_with] in E. apply andb_prop in E. destruct E as [E1 E2].
    apply Ascii.eqb_eq in E1. subst c.
    destruct r as [|x r0]; [discriminate E2|].
    apply andb_prop in E2. destruct E2 as [E2 _].
    apply Ascii.eqb_eq in E2. subst x. discriminate Hm. }
  cbn [scan_once]. rewrite Hq, Hobj, Harr, Hinf.
  cbn [starts_with]. rewrite Hn, Ht, Hf, HN, HI. cbn [andb orb].
  rewrite Hm. reflexivity.
Qed.

Lemma scan_once_int fuel z rest :
  delimited rest = true ->
  scan_once (S fuel) (repr_int z ++ rest) = Ok (JInt z, rest).
Proof.
  intros Hd. destruct (repr_int_head z) as (c & t & E & Hc).
  pose proof (match_number_repr z rest Hd) as Hm.
  rewrite E in *. cbn [append] in *.
  apply scan_once_number; assumption.
Qed.

(** ** Values *)

Lemma weight_pos v : 1 <= weight v.
Proof. destruct v; cbn; lia. Qed.

Lemma dumps_head v : exists c t, dumps v = String c t /\ value_start c = true.
Proof.
  destruct v as [ | [] | z | s | items | members]; cbn [dumps];
    try (do 2 eexists; split; [reflexivity | reflexivity]).
  destruct (repr_int_head z) as (c & t & E & Hc).
  exists c, t. split; [exact E|]. unfold value_start.
  rewrite Hc. reflexivity.
Qed.

Lemma value_start_tests c :
  value_start c = true ->
  is_ws c = false /\ Ascii.eqb "]" c = false /\ Ascii.eqb "}" c = false.
Proof.
  destruct c as [[] [] [] [] [] [] [] []]; intros H; try discriminate H;
    repeat split; reflexivity.
Qed.

Lemma skip_ws_dumps v r : skip_ws (dumps v ++ r) = dumps v ++ r.
Proof.
  destruct (dumps_head v) as (c & t & E & Hc). rewrite E. cbn [append skip_ws].
  destruct (value_start_tests c Hc) as (-> & _). reflexivity.
Qed.

Lemma starts_with_close_dumps v r close :
  close = "]"%char \/ close = "}"%char ->
  starts_with (String close "") (dumps v ++ r) = false.
Proof.
  destruct (dumps_head v) as (c & t & E & Hc). rewrite E.
  cbn [append starts_with].
  destruct (value_start_tests c Hc) as (_ & H1 & H2).
  intros [-> | ->]; [rewrite H1 | rewrite H2]; reflexivity.
Qed.

Lemma scan_once_str fuel s rest :
  scan_once (S fuel) (encode_basestring_ascii s ++ rest) = Ok (JStr s, rest).
Proof.
  unfold encode_basestring_ascii. cbn [append]. rewrite append_assoc.
  cbn [append scan_once]. change (Ascii.eqb quote quote) with true.
  cbv iota. rewrite scanstring_escape. reflexivity.
Qed.

Lemma parse_items_dumps items :
  Forall scans items -> items <> [] ->
  forall fuel acc rest,
    1 + list_sum (map weight items) <= fuel ->
    parse_items fuel (join ", " (map dumps items) ++ String "]" rest) acc
    = Ok (JArr (acc ++ map normalize items), rest).
Proof.
  induction 1 as [|x xs Hx Hxs IH]; [congruence|].
  intros _ fuel acc rest Hfuel.
  destruct fuel as [|fuel]; [cbn in Hfuel; lia|].
  cbn [map list_sum fold_right] in Hfuel. pose proof (weight_pos x) as Hw.
  destruct xs as [|y ys].
  - cbn [map join parse_items].
    rewrite Hx by (first [lia | reflexivity]).
    cbn [bind]. change (skip_ws (String "]" rest)) with (String "]" rest).
    cbv iota. change (Ascii.eqb "]" "]") with true. reflexivity.
  - change (join ", " (map dumps (x :: y :: ys)))
      with (dumps x ++ ", " ++ join ", " (map dumps (y :: ys))).
    rewrite !append_assoc. cbn [append parse_items].
    pose proof (weight_pos y) as Hwy.
    cbn [map list_sum fold_right] in Hfuel.
    rewrite Hx by (first [lia | reflexivity]).
    cbn [bind].
    match goal with
    | |- context [skip_ws (String "," ?t)] =>
        change (skip_ws (String "," t)) with (String "," t)
    end.
    cbv iota. change (Ascii.eqb "," "]") with false.
    change (Ascii.eqb "," ",") with true. cbv iota.
    match goal with
    | |- context [skip_ws (String " " ?t)] =>
        change (skip_ws (String " " t)) with (skip_ws t)
    end.
    cbn [map join]. 
    change (match map dumps ys with
            | [] => dumps y
            | _ :: _ => dumps y ++ ", " ++ join ", " (map dumps ys)
            end) with (join ", " (map dumps (y :: ys))).
    assert (Hskip : forall r, skip_ws (join ", " (map dumps (y :: ys)) ++ r)
                              = join ", " (map dumps (y :: ys)) ++ r).
    { intros r. destruct ys as [|w ws].
      - cbn [map join]. apply skip_ws_dumps.
      - change (join ", " (map dumps (y :: w :: ws)))
          with (dumps y ++ ", " ++ join ", " (map dumps (w :: ws))).
        rewrite append_assoc. apply skip_ws_dumps. }
    rewrite Hskip, IH
      by (first [congruence | cbn [map list_sum fold_right]; lia]).
    rewrite <- List.app_assoc. reflexivity.
Qed.

Lemma member_text_eq k v tail :
  member_text (k, v) ++ tail
  = String quote (escape k ++ String quote
      (String ":" (String " " (dumps v ++ tail)))).
Proof.
  unfold member_text, encode_basestring_ascii. cbn [fst snd append].
  rewrite !append_assoc. cbn [append]. rewrite ?append_assoc. reflexivity.
Qed.

Lemma skip_ws_members m ms r :
  skip_ws (join ", " (map member_text (m :: ms)) ++ r)
  = join ", " (map member_text (m :: ms)) ++ r.
Proof.
  destruct m as [k v]. destruct ms as [|m' ms'].
  - cbn [map join]. rewrite member_text_eq. reflexivity.
  - change (join ", " (map member_text ((k, v) :: m' :: ms')))
      with (member_text (k, v) ++ ", " ++ join ", " (map member_text (m' :: ms'))).
    rewrite append_assoc, member_text_eq. reflexivity.
Qed.

Lemma parse_members_dumps members :
  Forall (fun kv => scans (snd kv)) members -> members <> [] ->
  forall fuel acc rest,
    1 + list_sum (map (fun kv => weight (snd kv)) members) <= fuel ->
    parse_members fuel
      (join ", " (map member_text members) ++ String "}" rest) acc
    = Ok (JObj (dict_of_pairs
                  (acc ++ map (fun kv => (fst kv, normalize (snd kv)))
                              members)), rest).
Proof.
  induction 1 as [|[k x] xs Hx Hxs IH]; [congruence|].
  intros _ fuel acc rest Hfuel.
  destruct fuel as [|fuel]; [cbn in Hfuel; lia|].
  cbn [map list_sum fold_right snd] in Hfuel.
  pose proof (weight_pos x) as Hw. cbn [snd] in Hx.
  destruct xs as [|y ys].
  - cbn [map join]. rewrite member_text_eq. cbn [parse_members].
    change (Ascii.eqb quote quote) with true. cbv iota.
    rewrite scanstring_escape. cbn [bind].
    match goal with
    | |- context [skip_ws (String ":" ?t)] =>
        change (skip_ws (String ":" t)) with (String ":" t)
    end.
    cbn [starts_with drop]. change (Ascii.eqb ":" ":") with true.
    cbn [andb].
    match goal with
    | |- context [skip_ws (String " " ?t)] =>
        change (skip_ws (String " " t)) with (skip_ws t)
    end.
    rewrite skip_ws_dumps, Hx by (first [lia | reflexivity]).
    cbn [bind]. change (skip_ws (String "}" rest)) with (String "}" rest).
    cbv iota. change (Ascii.eqb "}" "}") with true. reflexivity.
  - change (join ", " (map member_text ((k, x) :: y :: ys)))
      with (member_text (k, x) ++ ", "
            ++ join ", " (map member_text (y :: ys))).
    rewrite append_assoc, member_text_eq. cbn [parse_members].
    change (Ascii.eqb quote quote) with true. cbv iota.
    rewrite scanstring_escape. cbn [bind].
    match goal with
    | |- context [skip_ws (String ":" ?t)] =>
        change (skip_ws (String ":" t)) with (String ":" t)
    end.
    cbn [starts_with drop]. change (Ascii.eqb ":" ":") with true.
    cbn [andb].
    match goal with
    | |- context [skip_ws (String " " ?t)] =>
        change (skip_ws (String " " t)) with (skip_ws t)
    end.
    pose proof (weight_pos (snd y)) as Hwy.
    cbn [map list_sum fold_right] in Hfuel.
    rewrite append_assoc. cbn [append].
    rewrite skip_ws_dumps, Hx by (first [lia | reflexivity]).
    cbn [bind].
    match goal with
    | |- context [skip_ws (String "," ?t)] =>
        change (skip_ws (String "," t)) with (String "," t)
    end.
    cbv iota. change (Ascii.eqb "," "}") with false.
    change (Ascii.eqb "," ",") with true. cbv iota.
    match goal with
    | |- context [skip_ws (String " " ?t)] =>
        change (skip_ws (String " " t)) with (skip_ws t)
    end.
    rewrite skip_ws_members, IH
      by (first [congruence | cbn [map list_sum fold_right]; lia]).
    rewrite <- List.app_assoc. reflexivity.
Qed.

(** The text [dumps] writes for a value is scanned back. *)
Lemma scan_once_dumps v : scans v.
Proof.
  induction v as [ | b | z | s | items IH | members IH] using json_induction;
    intros fuel rest Hfuel Hd; cbn [weight] in Hfuel;
    (destruct fuel as [|fuel]; [lia|]).
  - reflexivity.
  - destruct b; reflexivity.
  - apply scan_once_int, Hd.
  - apply scan_once_str.
  - cbn [dumps normalize append]. rewrite append_assoc. cbn [append scan_once].
    change (Ascii.eqb "[" quote) with false.
    change (Ascii.eqb "[" "{") with false.
    change (Ascii.eqb "[" "[") with true. cbv iota zeta.
    destruct items as [|x xs].
    + reflexivity.
    + assert (Hskip : forall r, skip_ws (join ", " (map dumps (x :: xs)) ++ r)
                                = join ", " (map dumps (x :: xs)) ++ r).
      { intros r. destruct xs as [|w ws].
        - cbn [map join]. apply skip_ws_dumps.
        - change (join ", " (map dumps (x :: w :: ws)))
            with (dumps x ++ ", " ++ join ", " (map dumps (w :: ws))).
          rewrite append_assoc. apply skip_ws_dumps. }
      assert (Hclose : starts_with "]" (join ", " (map dumps (x :: xs))
                                        ++ String "]" rest) = false).
      { destruct xs as [|w ws].
        - cbn [map join]. apply starts_with_close_dumps. left. reflexivity.
        - change (join ", " (map dumps (x :: w :: ws)))
            with (dumps x ++ ", " ++ join ", " (map dumps (w :: ws))).
          rewrite append_assoc. apply starts_with_close_dumps. left.
          reflexivity. }
      rewrite Hskip, Hclose.
      rewrite parse_items_dumps by (first [assumption | congruence | lia]).
      reflexivity.
  - cbn [dumps normalize append]. rewrite append_assoc. cbn [append scan_once].
    change (Ascii.eqb "{" quote) with false.
    change (Ascii.eqb "{" "{") with true. cbv iota zeta.
    destruct members as [|m ms].
    + reflexivity.
    + change (fun kv : string * json =>
                encode_basestring_ascii (fst kv) ++ ": " ++ dumps (snd kv))
        with member_text.
      rewrite skip_ws_members.
      assert (Hclose : starts_with "}" (join ", " (map member_text (m :: ms))
                                        ++ String "}" rest) = false).
      { destruct m as [k v]. destruct ms as [|m' ms'].
        - cbn [map join]. rewrite member_text_eq. reflexivity.
        - change (join ", " (map member_text ((k, v) :: m' :: ms')))
            with (member_text (k, v) ++ ", "
                  ++ join ", " (map member_text (m' :: ms'))).
          rewrite append_assoc, member_text_eq. reflexivity. }
      rewrite Hclose.
      rewrite parse_members_dumps by (first [assumption | congruence | lia]).
      reflexivity.
Qed.

Lemma join_length_bound {A : Type} (w : A -> nat) (text : A -> string) l :
  Forall (fun x => w x <= String.length (text x)) l ->
  list_sum (map w l) <= String.length (join ", " (map text l)).
Proof.
  induction 1 as [|x xs Hx Hxs IH]; [cbn; lia|].
  destruct xs as [|y ys].
  - cbn [map join list_sum fold_right]. lia.
  - change (join ", " (map text (x :: y :: ys)))
      with (text x ++ ", " ++ join ", " (map text (y :: ys))).
    rewrite !length_append.
    change (list_sum (map w (x :: y :: ys)))
      with (w x + list_sum (map w (y :: ys))).
    lia.
Qed.

Lemma weight_le_length v : weight v <= String.length (dumps v).
Proof.
  induction v as [ | b | z | s | items IH | members IH] using json_induction.
  - cbn. lia.
  - destruct b; cbn; lia.
  - cbn [weight dumps]. destruct (repr_int_head z) as (c & t & -> & _).
    cbn. lia.
  - cbn. lia.
  - cbn [weight dumps]. rewrite !length_append.
    pose proof (join_length_bound weight dumps items IH).
    cbn [String.length]. lia.
  - cbn [weight dumps]. rewrite !length_append.
    pose proof (join_length_bound (fun kv => weight (snd kv)) member_text
                  members) as H.
    cbn [String.length].
    assert (Hm : Forall (fun kv => weight (snd kv)
                                   <= String.length (member_text kv)) members).
    { eapply Forall_impl; [|exact IH]. intros kv Hkv. cbv beta in Hkv.
      unfold member_text. rewrite !length_append. lia. }
    specialize (H Hm). unfold member_text in H. lia.
Qed.

(** [json.loads(json.dumps(v))] returns a value: [v] with [dict] applied to
    the members of its objects. *)
Lemma loads_dumps v : loads (dumps v) = Decoded (normalize v).
Proof.
  unfold loads.
  pose proof (skip_ws_dumps v "") as Hs. rewrite append_nil_r in Hs.
  rewrite Hs. rewrite <- (append_nil_r (dumps v)) at 2.
  rewrite scan_once_dumps;
    [reflexivity | pose proof (weight_le_length v); lia | reflexivity].
Qed.

Lemma has_key_false k d :
  has_key k d = false -> forall kv, In kv d -> String.eqb (fst kv) k = false.
Proof.
  unfold has_key. intros H kv Hin.
  destruct (String.eqb (fst kv) k) eqn:E; [|reflexivity].
  rewrite <- H. symmetry. apply existsb_exists. exists kv. split; assumption.
Qed.

Lemma dict_set_fresh k v d :
  has_key k d = false -> dict_set k v d = (d ++ [(k, v)])%list.
Proof.
  induction d as [|[k' v'] d IH]; [reflexivity|].
  cbn [has_key existsb fst]. intros H. apply orb_false_elim in H.
  destruct H as [H1 H2]. cbn [dict_set app]. rewrite H1.
  unfold has_key in IH. rewrite IH by assumption. reflexivity.
Qed.

Lemma has_key_app k (d1 d2 : dict) :
  has_key k (d1 ++ d2)%list = has_key k d1 || has_key k d2.
Proof. unfold has_key. apply existsb_app. Qed.

Lemma fold_dict_set_fresh m :
  distinct_keys m = true ->
  forall acc,
    (forall kv, In kv m -> has_key (fst kv) acc = false) ->
    fold_left (fun d kv => dict_set (fst kv) (snd kv) d) m acc
    = (acc ++ m)%list.
Proof.
  induction m as [|[k v] m IH]; intros Hd acc Hacc.
  - cbn. now rewrite List.app_nil_r.
  - cbn [distinct_keys] in Hd. apply andb_prop in Hd. destruct Hd as [Hk Hd].
    apply negb_true_iff in Hk.
    cbn [fold_left fst snd].
    rewrite dict_set_fresh by (apply (Hacc (k, v)); left; reflexivity).
    rewrite IH; [now rewrite <- List.app_assoc | assumption |].
    intros kv Hin. rewrite has_key_app.
    rewrite (Hacc kv) by (right; assumption).
    cbn [has_key existsb fst orb]. rewrite String.eqb_sym.
    rewrite (has_key_false k m Hk kv Hin). reflexivity.
Qed.

(** [dict(pairs)] is [pairs] when no key occurs twice. *)
Lemma dict_of_pairs_distinct m : distinct_keys m = true -> dict_of_pairs m = m.
Proof.
  intros H. unfold dict_of_pairs. rewrite fold_dict_set_fresh; auto.
Qed.

Lemma normalize_wf v : wf v = true -> normalize v = v.
Proof.
  induction v as [ | b | z | s | items IH | members IH] using json_induction;
    try reflexivity; cbn [wf normalize]; intros H.
  - f_equal. induction IH as [|x xs Hx Hxs IHxs]; [reflexivity|].
    cbn [forallb] in H. apply andb_prop in H. destruct H as [H1 H2].
    cbn [map]. rewrite Hx, IHxs by assumption. reflexivity.
  - apply andb_prop in H. destruct H as [Hd Hw].
    assert (E : map (fun kv => (fst kv, normalize (snd kv))) members = members).
    { clear Hd. induction IH as [|[k x] xs Hx Hxs IHxs]; [reflexivity|].
      cbn [forallb snd] in Hw. apply andb_prop in Hw. destruct Hw as [H1 H2].
      cbn [map fst snd]. cbn [snd] in Hx.
      rewrite Hx, IHxs by assumption. reflexivity. }
    rewrite E, dict_of_pairs_distinct by assumption. reflexivity.
Qed.

(** The round trip of a Python value through its JSON text. *)
Lemma loads_dumps_wf v : wf v = true -> loads (dumps v) = Decoded v.
Proof.
  intros H. rewrite loads_dumps, normalize_wf by assumption. reflexivity.
Qed.

(** ** Fuel *)

Lemma skip_ws_length s : String.length (skip_ws s) <= String.length s.
Proof.
  induction s as [|c r IH]; cbn [skip_ws String.length]; [lia|].
  destruct (is_ws c); cbn [String.length]; lia.
Qed.

Lemma drop_length n s : String.length (drop n s) <= String.length s.
Proof.
  revert s. induction n as [|n IH]; intros [|c r]; cbn [drop String.length];
    try lia.
  specialize (IH r). lia.
Qed.

Lemma cons_char_ok {A : Type} c (x : outcome (string * A)) k r :
  cons_char c x = Ok (k, r) -> exists k', x = Ok (k', r).
Proof.
  unfold cons_char. destruct x as [[k' r']| | |]; cbn [bind]; try discriminate.
  intros [= <- <-]. exists k'. reflexivity.
Qed.

(** [scanstring] reads at least the closing quote. *)
Lemma scanstring_shorter opened s k r :
  scanstring opened s = Ok (k, r) -> String.length r < String.length s.
Proof.
  remember (String.length s) as n eqn:Hn. revert s Hn k r.
  induction n as [n IH] using lt_wf_ind. intros s Hn k r H.
  assert (Hrec : forall c s' k r,
             String.length s' < n ->
             cons_char c (scanstring opened s') = Ok (k, r) ->
             String.length r < String.length s').
  { intros c s' k0 r0 Hlt Hc. apply cons_char_ok in Hc. destruct Hc as [k' Hc].
    apply (IH (String.length s') Hlt s' eq_refl k' r0 Hc). }
  destruct s as [|c s]; [discriminate H|].
  cbn [scanstring] in H. cbn [String.length] in Hn.
  destruct (Ascii.eqb c quote).
  { injection H as <- <-. subst n. lia. }
  destruct (Ascii.eqb c backslash).
  - destruct s as [|e s']; [discriminate H|]. cbn [String.length] in Hn.
    destruct (Ascii.eqb_spec e "u") as [->|Hne].
    + destruct s' as [|h1 [|h2 [|h3 [|h4 r']]]]; try discriminate H.
      destruct (hex_val h1), (hex_val h2), (hex_val h3), (hex_val h4), r';
        try discriminate H.
      destruct ((n0 =? 0) && (n1 =? 0)); [|discriminate H].
      apply Hrec in H; cbn [String.length] in *; lia.
    + assert (H' : match unescape e with
                   | Some x => cons_char x (scanstring opened s')
                   | None => Fail "Invalid \escape"
                               (String.length (String c (String e s')))
                   end = Ok (k, r)).
      { destruct e as [[] [] [] [] [] [] [] []]; try exact H.
        exfalso. apply Hne. reflexivity. }
      destruct (unescape e); [|discriminate H'].
      apply Hrec in H'; cbn [String.length] in *; lia.
  - destruct (code c <? 32); [discriminate H|].
    apply Hrec in H; cbn [String.length] in *; lia.
Qed.

Lemma scan_digits_length s u r :
  scan_digits s = (u, r) -> String.length r <= String.length s.
Proof.
  revert u r. induction s as [|c s IH]; intros u r; cbn [scan_digits].
  - intros [= <- <-]. lia.
  - destruct (is_digit c).
    + destruct (scan_digits s) as [u' r'] eqn:E. intros [= <- <-].
      specialize (IH u' r' eq_refl). cbn [String.length]. lia.
    + intros [= <- <-]. lia.
Qed.

Lemma scan_integer_shorter s u r :
  scan_integer s = Some (u, r) -> String.length r < String.length s.
Proof.
  destruct s as [|c s]; [discriminate|]. cbn [scan_integer String.length].
  destruct (Ascii.eqb c "0"); [intros [= <- <-]; lia|].
  destruct (between "1" "9" c); [|discriminate].
  destruct (scan_digits s) as [u' r'] eqn:E. intros [= <- <-].
  apply scan_digits_length in E. lia.
Qed.

Lemma match_number_shorter s n r :
  match_number s = Some (n, r) -> String.length r < String.length s.
Proof.
  destruct s as [|c s]; [discriminate|]. cbn [match_number].
  destruct (Ascii.eqb c "-").
  - destruct (scan_integer s) as [[u r']|] eqn:E; [|discriminate].
    apply scan_integer_shorter in E.
    destruct (float_tail r'); intros [= <- <-]; cbn [String.length]; lia.
  - destruct (scan_integer (String c s)) as [[u r']|] eqn:E; [|discriminate].
    apply scan_integer_shorter in E.
    destruct (float_tail r'); intros [= <- <-]; exact E.
Qed.

Lemma bind_ok {A B : Type} (x : outcome A) (k : A -> outcome B) b :
  bind x k = Ok b -> exists a, x = Ok a /\ k a = Ok b.
Proof.
  destruct x; cbn [bind]; try discriminate. intros H. exists a. auto.
Qed.

(** A value takes at least one character. *)
Lemma scan_shorter fuel :
  (forall s v r, scan_once fuel s = Ok (v, r) ->
                 String.length r < String.length s)
  /\ (forall s acc v r, parse_items fuel s acc = Ok (v, r) ->
                        String.length r < String.length s)
  /\ (forall s acc v r, parse_members fuel s acc = Ok (v, r) ->
                        String.length r < String.length s).
Proof.
  induction fuel as [|fuel (IHs & IHi & IHm)].
  { repeat split; intros; discriminate. }
  split; [|split].
  - intros s v r H. cbn [scan_once] in H.
    destruct s as [|c s]; [discriminate H|].
    destruct (Ascii.eqb c quote).
    { apply bind_ok in H. destruct H as ([k r'] & Hs & H).
      injection H as <- <-. apply scanstring_shorter in Hs.
      cbn [String.length]. lia. }
    destruct (Ascii.eqb c "{").
    { pose proof (skip_ws_length s) as Hw.
      destruct (starts_with "}" (skip_ws s)) eqn:E.
      - injection H as <- <-.
        change (String.length (drop 1 (skip_ws s)) < S (String.length s)).
        pose proof (drop_length 1 (skip_ws s)). lia.
      - apply IHm in H. cbn [String.length]. lia. }
    destruct (Ascii.eqb c "[").
    { pose proof (skip_ws_length s) as Hw.
      destruct (starts_with "]" (skip_ws s)) eqn:E.
      - injection H as <- <-.
        change (String.length (drop 1 (skip_ws s)) < S (String.length s)).
        pose proof (drop_length 1 (skip_ws s)). lia.
      - apply IHi in H. cbn [String.length]. lia. }
    destruct (starts_with "null" (String c s)) eqn:E1.
    { injection H as <- <-.
      change (String.length (drop 3 s) < S (String.length s)).
      pose proof (drop_length 3 s). lia. }
    destruct (starts_with "true" (String c s)) eqn:E2.
    { injection H as <- <-.
      change (String.length (drop 3 s) < S (String.length s)).
      pose proof (drop_length 3 s). lia. }
    destruct (starts_with "false" (String c s)) eqn:E3.
    { injection H as <- <-.
      change (String.length (drop 4 s) < S (String.length s)).
      pose proof (drop_length 4 s). lia. }
    destruct (starts_with "NaN" (String c s) || starts_with "Infinity" (String c s)
              || starts_with "-Infinity" (String c s)); [discriminate H|].
    destruct (match_number (String c s)) as [[[z|] r']|] eqn:E;
      try discriminate H.
    injection H as <- <-. apply match_number_shorter in E. exact E.
  - intros s acc v r H. cbn [parse_items] in H.
    apply bind_ok in H. destruct H as ([v' r'] & Hs & H).
    apply IHs in Hs. pose proof (skip_ws_length r') as Hw.
    destruct (skip_ws r') as [|c r'']; [discriminate H|].
    cbn [String.length] in Hw.
    destruct (Ascii.eqb c "]"); [injection H as <- <-; lia|].
    destruct (Ascii.eqb c ","); [|discriminate H].
    apply IHi in H. pose proof (skip_ws_length r''). lia.
  - intros s acc v r H. cbn [parse_members] in H.
    destruct s as [|q s]; [discriminate H|].
    destruct (Ascii.eqb q quote); [|discriminate H].
    apply bind_ok in H. destruct H as ([k r1] & Hk & H).
    apply scanstring_shorter in Hk. pose proof (skip_ws_length r1) as Hw1.
    destruct (starts_with ":" (skip_ws r1)); [|discriminate H].
    apply bind_ok in H. destruct H as ([v' r2] & Hv & H).
    apply IHs in Hv.
    pose proof (skip_ws_length (drop 1 (skip_ws r1))) as Hw2.
    pose proof (drop_length 1 (skip_ws r1)) as Hd.
    pose proof (skip_ws_length r2) as Hw3.
    destruct (skip_ws r2) as [|c r3]; [discriminate H|].
    cbn [String.length] in *.
    destruct (Ascii.eqb c "}"); [injection H as <- <-; lia|].
    destruct (Ascii.eqb c ","); [|discriminate H].
    apply IHm in H. pose proof (skip_ws_length r3). lia.
Qed.

Lemma bind_not_exhausted {A B : Type} (x : outcome A) (k : A -> outcome B) :
  x <> Exhausted -> (forall a, x = Ok a -> k a <> Exhausted) ->
  bind x k <> Exhausted.
Proof.
  destruct x; cbn [bind]; intros H1 H2; try discriminate.
  - apply H2. reflexivity.
  - contradiction.
Qed.

Lemma cons_char_not_exhausted {A : Type} c (x : outcome (string * A)) :
  x <> Exhausted -> cons_char c x <> Exhausted.
Proof.
  intros H. unfold cons_char. apply bind_not_exhausted; [exact H|].
  intros [k r] _. discriminate.
Qed.

Lemma scanstring_not_exhausted opened s : scanstring opened s <> Exhausted.
Proof.
  remember (String.length s) as n eqn:Hn. revert s Hn.
  induction n as [n IH] using lt_wf_ind. intros s Hn.
  assert (Hrec : forall c s', String.length s' < n ->
                              cons_char c (scanstring opened s') <> Exhausted).
  { intros c s' Hlt. apply cons_char_not_exhausted.
    apply (IH (String.length s') Hlt s' eq_refl). }
  destruct s as [|c s]; [discriminate|].
  cbn [scanstring]. cbn [String.length] in Hn.
  destruct (Ascii.eqb c quote); [discriminate|].
  destruct (Ascii.eqb c backslash).
  - destruct s as [|e s']; [discriminate|]. cbn [String.length] in Hn.
    destruct (Ascii.eqb_spec e "u") as [->|Hne].
    + destruct s' as [|h1 [|h2 [|h3 [|h4 r']]]]; try discriminate.
      destruct (hex_val h1), (hex_val h2), (hex_val h3), (hex_val h4), r';
        try discriminate.
      destruct ((n0 =? 0) && (n1 =? 0)); [|discriminate].
      apply Hrec. cbn [String.length] in *. lia.
    + assert (H' : match unescape e with
                   | Some x => cons_char x (scanstring opened s')
                   | None => Fail "Invalid \escape"
                               (String.length (String c (String e s')))
                   end <> Exhausted).
      { destruct (unescape e); [|discriminate].
        apply Hrec. cbn [String.length] in *. lia. }
      destruct e as [[] [] [] [] [] [] [] []]; try exact H'.
      exfalso. apply Hne. reflexivity.
  - destruct (code c <? 32); [discriminate|].
    apply Hrec. lia.
Qed.

(** Twice the length of the text and one more unit of fuel is enough for
    [scan_once], and two more for a list of items or members. *)
Lemma scan_has_fuel fuel :
  (forall s, 2 * String.length s + 1 <= fuel -> scan_once fuel s <> Exhausted)
  /\ (forall s acc, 2 * String.length s + 2 <= fuel ->
                    parse_items fuel s acc <> Exhausted)
  /\ (forall s acc, 2 * String.length s + 2 <= fuel ->
                    parse_members fuel s acc <> Exhausted).
Proof.
  induction fuel as [|fuel (IHs & IHi & IHm)].
  { repeat split; intros; lia. }
  split; [|split].
  - intros s Hf. cbn [scan_once].
    destruct s as [|c s]; [discriminate|]. cbn [String.length] in Hf.
    pose proof (skip_ws_length s) as Hw.
    destruct (Ascii.eqb c quote).
    { apply bind_not_exhausted; [apply scanstring_not_exhausted|].
      intros [k r] _. discriminate. }
    destruct (Ascii.eqb c "{").
    { destruct (starts_with "}" (skip_ws s)); [discriminate|].
      apply IHm. lia. }
    destruct (Ascii.eqb c "[").
    { destruct (starts_with "]" (skip_ws s)); [discriminate|].
      apply IHi. lia. }
    destruct (starts_with "null" (String c s)); [discriminate|].
    destruct (starts_with "true" (String c s)); [discriminate|].
    destruct (starts_with "false" (String c s)); [discriminate|].
    destruct (starts_with "NaN" (String c s) || starts_with "Infinity" (String c s)
              || starts_with "-Infinity" (String c s)); [discriminate|].
    destruct (match_number (String c s)) as [[[z|] r']|]; discriminate.
  - intros s acc Hf. cbn [parse_items].
    apply bind_not_exhausted; [apply IHs; lia|].
    intros [v r] Hv. apply (proj1 (scan_shorter fuel)) in Hv.
    pose proof (skip_ws_length r) as Hw.
    destruct (skip_ws r) as [|c r']; [discriminate|].
    cbn [String.length] in Hw.
    destruct (Ascii.eqb c "]"); [discriminate|].
    destruct (Ascii.eqb c ","); [|discriminate].
    apply IHi. pose proof (skip_ws_length r'). lia.
  - intros s acc Hf. cbn [parse_members].
    destruct s as [|q s]; [discriminate|]. cbn [String.length] in Hf.
    destruct (Ascii.eqb q quote); [|discriminate].
    apply bind_not_exhausted; [apply scanstring_not_exhausted|].
    intros [k r1] Hk. apply scanstring_shorter in Hk.
    pose proof (skip_ws_length r1) as Hw1.
    destruct (starts_with ":" (skip_ws r1)); [|discriminate].
    pose proof (skip_ws_length (drop 1 (skip_ws r1))) as Hw2.
    pose proof (drop_length 1 (skip_ws r1)) as Hd.
    apply bind_not_exhausted; [apply IHs; lia|].
    intros [v r2] Hv. apply (proj1 (scan_shorter fuel)) in Hv.
    pose proof (skip_ws_length r2) as Hw3.
    destruct (skip_ws r2) as [|c r3]; [discriminate|].
    cbn [String.length] in Hw3.
    destruct (Ascii.eqb c "}"); [discriminate|].
    destruct (Ascii.eqb c ","); [|discriminate].
    apply IHm. pose proof (skip_ws_length r3). lia.
Qed.

(** [loads] gives the scanner enough fuel for any text. *)
Lemma loads_has_fuel s :
  scan_once (2 * String.length s + 2) (skip_ws s) <> Exhausted.
Proof.
  apply (proj1 (scan_has_fuel _)). pose proof (skip_ws_length s). lia.
Qed.

(** Where [loads] gives no answer, the scanner met a text outside the
    model: it is never for lack of fuel. *)
Lemma loads_not_modelled s :
  loads s = NotModelled ->
  scan_once (2 * String.length s + 2) (skip_ws s) = Unmodelled.
Proof.
  unfold loads. pose proof (loads_has_fuel s) as Hf.
  destruct (scan_once _ _) as [[v r]| | |]; try reflexivity;
    try contradiction.
  - destruct (skip_ws r); [discriminate|]. destruct (strains s); discriminate.
  - destruct (strains s); discriminate.
Qed.

(** The [JSONDecodeError] is given for texts that do not strain the
    interpreter, and only they are left to its choice of exception. *)
Lemma loads_error_unstrained s msg pos :
  loads s = JSONDecodeError msg pos -> strains s = false.
Proof.
  unfold loads. destruct (scan_once _ _) as [[v r]| | |]; try discriminate.
  - destruct (skip_ws r); [discriminate|]. destruct (strains s);
      [discriminate | reflexivity].
  - destruct (strains s); [discriminate | reflexivity].
Qed.

Lemma loads_raises_strained s : loads s = DecodeRaises -> strains s = true.
Proof.
  unfold loads. destruct (scan_once _ _) as [[v r]| | |]; try discriminate.
  - destruct (skip_ws r); [discriminate|]. destruct (strains s);
      [reflexivity | discriminate].
  - destruct (strains s); [reflexivity | discriminate].
Qed.

End JsonFacts.

(** * Facts about the tables *)

Section StoreFacts.
Import Sqlite.

Lemma has_id_eq pid p : has_id pid p = true <-> p_id p = pid.
Proof. unfold has_id. apply String.eqb_eq. Qed.

Lemma filter_none {A : Type} (f : A -> bool) l :
  (forall x, In x l -> f x = false) -> filter f l = [].
Proof.
  induction l as [|x l IH]; [reflexivity|]. intros H. cbn [filter].
  rewrite (H x) by (left; reflexivity). apply IH.
  intros y Hy. apply H. right. exact Hy.
Qed.

Lemma filter_all {A : Type} (f : A -> bool) l :
  (forall x, In x l -> f x = true) -> filter f l = l.
Proof.
  induction l as [|x l IH]; [reflexivity|]. intros H. cbn [filter].
  rewrite (H x) by (left; reflexivity). f_equal. apply IH.
  intros y Hy. apply H. right. exact Hy.
Qed.

(** Under the primary key an identity selects at most one row. *)
Lemma filter_has_id pid t :
  NoDup (map p_id t) ->
  filter (has_id pid) t
  = match find (has_id pid) t with Some p => [p] | None => [] end.
Proof.
  induction t as [|p t IH]; [reflexivity|].
  cbn [map]. intros Hnd. inversion Hnd as [|? ? Hnotin Hnd']. subst.
  cbn [filter find]. destruct (has_id pid p) eqn:E.
  - f_equal. apply filter_none. intros q Hq.
    apply not_true_is_false. intros Hq'.
    apply has_id_eq in E, Hq'. apply Hnotin. rewrite E, <- Hq'.
    apply in_map. exact Hq.
  - apply IH. exact Hnd'.
Qed.

Lemma find_has_id pid t p : find (has_id pid) t = Some p -> In p t /\ p_id p = pid.
Proof.
  intros H. apply find_some in H. destruct H as [H1 H2].
  split; [exact H1 | apply has_id_eq; exact H2].
Qed.

Lemma existsb_find pid t :
  existsb (has_id pid) t = match find (has_id pid) t with
                           | Some _ => true
                           | None => false
                           end.
Proof.
  induction t as [|p t IH]; [reflexivity|].
  cbn [existsb find]. destruct (has_id pid p); [reflexivity | exact IH].
Qed.

Lemma upsert_ids pid name sp db :
  map p_id (players (upsert_player pid name sp db))
  = if existsb (has_id pid) (players db) then map p_id (players db)
    else (map p_id (players db) ++ [pid])%list.
Proof.
  unfold upsert_player. cbn [players].
  destruct (existsb (has_id pid) (players db)).
  - rewrite map_map. apply map_ext. intros p.
    destruct (has_id pid p); reflexivity.
  - rewrite map_app. reflexivity.
Qed.

(** The upsert keeps the primary key. *)
Lemma upsert_primary_key pid name sp db :
  primary_key db -> primary_key (upsert_player pid name sp db).
Proof.
  unfold primary_key. intros H. rewrite upsert_ids.
  destruct (existsb (has_id pid) (players db)) eqn:E; [exact H|].
  apply NoDup_app; [exact H | repeat constructor; intros [] | ].
  intros q Hq [<- | []].
  apply in_map_iff in Hq. destruct Hq as (p & Hp & Hin).
  assert (existsb (has_id pid) (players db) = true); [|congruence].
  apply existsb_exists. exists p. split; [exact Hin | apply has_id_eq, Hp].
Qed.

(** After the upsert the identity has the given name and specialties. *)
Lemma upsert_find pid name sp db :
  find (has_id pid) (players (upsert_player pid name sp db))
  = Some (mkplayer pid name sp).
Proof.
  unfold upsert_player. cbn [players].
  destruct (existsb (has_id pid) (players db)) eqn:E.
  - induction (players db) as [|p t IH]; [discriminate E|].
    cbn [existsb] in E. cbn [map find]. destruct (has_id pid p) eqn:Ep.
    + unfold has_id at 1. cbn [p_id]. apply has_id_eq in Ep. rewrite Ep.
      rewrite String.eqb_refl. reflexivity.
    + rewrite Ep. apply IH. exact E.
  - rewrite existsb_find in E.
    induction (players db) as [|p t IH].
    + cbn. unfold has_id. cbn [p_id]. rewrite String.eqb_refl. reflexivity.
    + cbn [find] in E. cbn [List.app find]. destruct (has_id pid p); [discriminate E|].
      apply IH. exact E.
Qed.

(** The rows of other identities are left as they are. *)
Lemma upsert_find_other pid name sp db q :
  q <> pid ->
  find (has_id q) (players (upsert_player pid name sp db))
  = find (has_id q) (players db).
Proof.
  intros Hq. unfold upsert_player. cbn [players].
  assert (Hnew : has_id q (mkplayer pid name sp) = false).
  { unfold has_id. cbn [p_id]. apply String.eqb_neq. congruence. }
  destruct (existsb (has_id pid) (players db)).
  - induction (players db) as [|p t IH]; [reflexivity|].
    cbn [map find]. destruct (has_id pid p) eqn:Ep.
    + assert (has_id q p = false) as ->.
      { apply has_id_eq in Ep. unfold has_id. apply String.eqb_neq. congruence. }
      assert (has_id q (mkplayer (p_id p) name sp) = false) as ->.
      { apply has_id_eq in Ep. unfold has_id. cbn [p_id].
        apply String.eqb_neq. congruence. }
      exact IH.
    + destruct (has_id q p); [reflexivity | exact IH].
  - induction (players db) as [|p t IH].
    + cbn [List.app find]. rewrite Hnew. reflexivity.
    + cbn [List.app find]. destruct (has_id q p); [reflexivity | exact IH].
Qed.

Lemma filter_flat_map {A B : Type} (f : B -> bool) (g : A -> list B) l :
  filter f (flat_map g l) = flat_map (fun x => filter f (g x)) l.
Proof.
  induction l as [|x l IH]; [reflexivity|].
  cbn [flat_map]. rewrite filter_app, IH. reflexivity.
Qed.

(** Under the primary key the join has one row for each snapshot whose
    identity is in [players], in the order of the snapshots. *)
Lemma join_primary_key db :
  primary_key db ->
  exists pairs,
    join db = map (fun ps => select_columns (fst ps) (snd ps)) pairs
    /\ map snd pairs = filter (has_player db) (player_stats db)
    /\ Forall (fun ps => In (fst ps) (players db)
                         /\ p_id (fst ps) = s_player_id (snd ps)) pairs.
Proof.
  intros Hpk. unfold join, has_player.
  induction (player_stats db) as [|s t IH].
  - exists []. repeat split. constructor.
  - destruct IH as (pairs & Hj & Hs & Hall).
    cbn [flat_map filter]. rewrite (filter_has_id _ _ Hpk), existsb_find.
    destruct (find (has_id (s_player_id s)) (players db)) as [p|] eqn:E.
    + exists ((p, s) :: pairs). cbn [map List.app fst snd]. rewrite Hj, Hs.
      repeat split. constructor; [|exact Hall].
      apply find_has_id in E. exact E.
    + exists pairs. cbn [map List.app]. repeat split; assumption.
Qed.

(** The join restricted to one identity. *)
Lemma join_of_player db pid :
  primary_key db ->
  filter (where_ [IdIs pid]) (join db)
  = match find (has_id pid) (players db) with
    | Some p => map (select_columns p) (filter (of_player pid) (player_stats db))
    | None => []
    end.
Proof.
  intros Hpk. unfold join. rewrite filter_flat_map.
  induction (player_stats db) as [|s t IH].
  - cbn. destruct (find _ _); reflexivity.
  - cbn [flat_map filter]. rewrite IH. clear IH.
    rewrite (filter_has_id _ _ Hpk). unfold of_player at 2.
    destruct (String.eqb (s_player_id s) pid) eqn:E.
    + apply String.eqb_eq in E. rewrite E.
      destruct (find (has_id pid) (players db)) as [p|] eqn:F; [|reflexivity].
      cbn [map filter where_ forallb holds select_columns r_id].
      apply find_has_id in F. destruct F as [_ ->].
      rewrite String.eqb_refl. reflexivity.
    + destruct (find (has_id (s_player_id s)) (players db)) as [p|] eqn:F.
      * cbn [map filter where_ forallb holds select_columns r_id].
        apply find_has_id in F. destruct F as [_ ->]. rewrite E.
        reflexivity.
      * reflexivity.
Qed.

(** ** Ordering *)

Lemma insert_desc_perm r l : Permutation (insert_desc r l) (r :: l).
Proof.
  induction l as [|x t IH]; [reflexivity|].
  cbn [insert_desc]. destruct (String.ltb (r_date r) (r_date x)).
  - rewrite IH. apply perm_swap.
  - reflexivity.
Qed.

Lemma order_by_date_desc_perm l : Permutation (order_by_date_desc l) l.
Proof.
  induction l as [|r t IH]; [reflexivity|].
  cbn [order_by_date_desc]. rewrite insert_desc_perm, IH. reflexivity.
Qed.

Lemma ltb_false_flip a b : String.ltb a b = true -> String.ltb b a = false.
Proof.
  unfold String.ltb. rewrite (String.compare_antisym b a).
  destruct (String.compare a b); cbn; congruence.
Qed.

Lemma insert_desc_sorted r l :
  Sorted not_before l -> Sorted not_before (insert_desc r l).
Proof.
  induction 1 as [|x t Hs IH Hhd].
  - repeat constructor.
  - cbn [insert_desc]. destruct (String.ltb (r_date r) (r_date x)) eqn:E.
    + constructor; [exact IH|].
      destruct t as [|y t'].
      * cbn. constructor. apply ltb_false_flip, E.
      * cbn [insert_desc]. destruct (String.ltb (r_date r) (r_date y)).
        -- constructor. inversion Hhd. assumption.
        -- constructor. apply ltb_false_flip, E.
    + constructor; [constructor; assumption|]. constructor. exact E.
Qed.

Lemma order_by_date_desc_sorted l : Sorted not_before (order_by_date_desc l).
Proof.
  induction l as [|r t IH]; [constructor|].
  cbn [order_by_date_desc]. apply insert_desc_sorted, IH.
Qed.

(** Ordering the image of a list orders the list. *)
Lemma order_by_date_desc_map {A : Type} (f : A -> row) l :
  exists l', order_by_date_desc (map f l) = map f l' /\ Permutation l' l.
Proof.
  assert (Hins : forall x l, exists l',
             insert_desc (f x) (map f l) = map f l' /\ Permutation l' (x :: l)).
  { intros x. induction l0 as [|y t IH].
    - exists [x]. split; reflexivity.
    - cbn [map insert_desc].
      destruct (String.ltb (r_date (f x)) (r_date (f y))).
      + destruct IH as (l' & E & P). exists (y :: l'). cbn [map]. rewrite E.
        split; [reflexivity|]. rewrite P. apply perm_swap.
      + exists (x :: y :: t). split; reflexivity. }
  induction l as [|x t IH].
  - exists []. split; reflexivity.
  - destruct IH as (l' & E & P). cbn [map order_by_date_desc]. rewrite E.
    destruct (Hins x l') as (l'' & E' & P'). exists l''.
    split; [exact E'|]. rewrite P', P. reflexivity.
Qed.

Lemma Sorted_map {A B : Type} (R : B -> B -> Prop) (f : A -> B) l :
  Sorted R (map f l) -> Sorted (fun a b => R (f a) (f b)) l.
Proof.
  induction l as [|x t IH]; [constructor|].
  cbn [map]. intros H. inversion H as [|? ? Hs Hhd]. subst.
  constructor; [apply IH, Hs|].
  destruct t; constructor. inversion Hhd. assumption.
Qed.

End StoreFacts.

(** * Facts about the handlers *)

Section ServerFacts.
Import Text Calendar Json Sqlite Server.

(** ** Save *)

(** What an accepted body does to the world. *)
Lemma save_player_accepted lib now pid data p w :
  parse_body lib data = Continue p ->
  save_player lib now pid data w
  = (Message (success_text (name p)),
     mkworld (insert_stats (stats_of pid p (sortable_date now (date p)))
                (upsert_player pid (name p) (specialties p) (disk w)))
             (open_connections w)).
Proof.
  intros H. unfold save_player, save_player_try. rewrite H. reflexivity.
Qed.

(** A body that does not come out of lines 87-97 as a player leaves the
    world as it was. *)
Lemma save_player_not_accepted lib now pid data w :
  (forall p, parse_body lib data <> Continue p) ->
  snd (save_player lib now pid data w) = w
  /\ forall text, fst (save_player lib now pid data w) <> Message text.
Proof.
  intros H. unfold save_player, save_player_try.
  destruct (parse_body lib data) as [p|r|e|] eqn:E.
  - exfalso. apply (H p). reflexivity.
  - split; [reflexivity|]. cbn [fst]. intros text Ht. subst r.
    unfold parse_body, decode_skills, make_player in E.
    destruct data; try discriminate E.
    destruct (dict_get "skills" members) as [[]|]; cbn [and_then] in E;
      try (destruct (validate lib _); discriminate E).
    destruct (loads s); cbn [and_then] in E;
      try (destruct (validate lib _); discriminate E); discriminate E.
  - split; [reflexivity|]. cbn [fst]. unfold error_reply.
    destruct (str_exn e); discriminate.
  - split; [reflexivity | discriminate].
Qed.

(** Save closes the connection it opens, whatever the request. *)
Lemma save_player_releases lib now pid data w :
  open_connections (snd (save_player lib now pid data w)) = open_connections w.
Proof.
  unfold save_player, save_player_try.
  destruct (parse_body lib data); reflexivity.
Qed.

(** Save only ever adds to [player_stats]. *)
Lemma save_player_appends lib now pid data w :
  exists added,
    player_stats (disk (snd (save_player lib now pid data w)))
    = (player_stats (disk w) ++ added)%list.
Proof.
  unfold save_player, save_player_try.
  destruct (parse_body lib data).
  - eexists. reflexivity.
  - exists []. cbn. now rewrite List.app_nil_r.
  - exists []. cbn. now rewrite List.app_nil_r.
  - exists []. cbn. now rewrite List.app_nil_r.
Qed.

Lemma dict_get_set_other k k' v d :
  k <> k' -> dict_get k (dict_set k' v d) = dict_get k d.
Proof.
  intros Hk. induction d as [|[k0 v0] d IH].
  - cbn. destruct (String.eqb_spec k' k); congruence.
  - cbn [dict_set]. destruct (String.eqb_spec k0 k').
    + cbn [dict_get]. subst k0.
      destruct (String.eqb_spec k' k); congruence.
    + cbn [dict_get]. destruct (String.eqb k0 k); [reflexivity | exact IH].
Qed.

(** The date of an accepted player is what validation makes of the [date]
    key of the body. *)
Lemma parse_body_date lib data p :
  parse_body lib (JObj data) = Continue p ->
  optional_str_field lib (dict_get "date" data) = Some (date p).
Proof.
  unfold parse_body, decode_skills.
  assert (Hv : forall d, make_player lib d = Continue p ->
                         optional_str_field lib (dict_get "date" d)
                         = Some (date p)).
  { intros d. unfold make_player, validate.
    destruct (str_field lib (dict_get "name" d));
    destruct (str_field lib (dict_get "age" d));
    destruct (str_field lib (dict_get "TSI" d));
    destruct (str_field lib (dict_get "salary" d));
    destruct (str_field lib (dict_get "specialties" d));
    destruct (str_field lib (dict_get "form" d));
    destruct (str_field lib (dict_get "fitness" d));
    destruct (dict_field lib (dict_get "skills" d));
    destruct (optional_str_field lib (dict_get "date" d));
    try discriminate; intros [= <-]; reflexivity. }
  destruct (dict_get "skills" data) as [[]|]; cbn [and_then]; try apply Hv.
  destruct (loads s); cbn [and_then]; try discriminate.
  intros H. apply Hv in H. rewrite dict_get_set_other in H by discriminate.
  exact H.
Qed.

Lemma dict_get_set f k v d :
  dict_get f (dict_set k v d)
  = if String.eqb k f then Some v else dict_get f d.
Proof.
  induction d as [|[k0 v0] d IH].
  - reflexivity.
  - cbn [dict_set]. destruct (String.eqb_spec k0 k) as [->|Hk].
    + cbn [dict_get]. destruct (String.eqb k f); reflexivity.
    + cbn [dict_get]. rewrite IH.
      destruct (String.eqb_spec k0 f) as [->|]; [|reflexivity].
      destruct (String.eqb_spec k f); [congruence | reflexivity].
Qed.

(** Setting a key to the value it has changes nothing. *)
Lemma dict_set_same k v d : dict_get k d = Some v -> dict_set k v d = d.
Proof.
  induction d as [|[k0 v0] d IH]; cbn [dict_get dict_set]; [discriminate|].
  destruct (String.eqb_spec k0 k); [intros [= ->]; reflexivity|].
  intros H. rewrite IH by exact H. reflexivity.
Qed.

(** What validation makes of a body that differs from an accepted one in
    its [date] key only: the same player with the date of that body, or
    the report that [date] fails. *)
Lemma validate_other_date lib d1 d2 p :
  (forall f, f <> "date" -> dict_get f d1 = dict_get f d2) ->
  validate lib d2 = Accepted p ->
  validate lib d1
  = match optional_str_field lib (dict_get "date" d1) with
    | Some x => Accepted (with_date p x)
    | None => Rejected ["date"]
    end.
Proof.
  intros H. unfold validate.
  rewrite (H "name"), (H "age"), (H "TSI"), (H "salary"), (H "specialties"),
    (H "form"), (H "fitness"), (H "skills") by discriminate.
  destruct (str_field lib (dict_get "name" d2));
  destruct (str_field lib (dict_get "age" d2));
  destruct (str_field lib (dict_get "TSI" d2));
  destruct (str_field lib (dict_get "salary" d2));
  destruct (str_field lib (dict_get "specialties" d2));
  destruct (str_field lib (dict_get "form" d2));
  destruct (str_field lib (dict_get "fitness" d2));
  destruct (dict_field lib (dict_get "skills" d2));
  destruct (optional_str_field lib (dict_get "date" d2));
  try discriminate; intros [= <-];
  destruct (optional_str_field lib (dict_get "date" d1)); reflexivity.
Qed.

(** The same for the whole of lines 87-97: a body that is accepted once
    its [date] is set to null is accepted with the date it has, or
    reported for its [date] alone. *)
Lemma parse_body_other_date lib data p :
  parse_body lib (JObj (dict_set "date" JNull data)) = Continue p ->
  date p = None
  /\ parse_body lib (JObj data)
     = match optional_str_field lib (dict_get "date" data) with
       | Some x => Continue (with_date p x)
       | None => Raise (ValidationError ["date"])
       end.
Proof.
  intros Hp. split.
  { apply parse_body_date in Hp. rewrite dict_get_set in Hp.
    cbn in Hp. congruence. }
  revert Hp. unfold parse_body, decode_skills.
  rewrite dict_get_set_other by discriminate.
  assert (Hv : forall d1 d2,
             (forall f, f <> "date" -> dict_get f d1 = dict_get f d2) ->
             dict_get "date" d1 = dict_get "date" data ->
             make_player lib d2 = Continue p ->
             make_player lib d1
             = match optional_str_field lib (dict_get "date" data) with
               | Some x => Continue (with_date p x)
               | None => Raise (ValidationError ["date"])
               end).
  { intros d1 d2 Hsame Hdate. unfold make_player.
    destruct (validate lib d2) as [p'| |] eqn:E; try discriminate.
    intros [= ->]. rewrite (validate_other_date lib d1 d2 p Hsame E), Hdate.
    destruct (optional_str_field lib (dict_get "date" data)); reflexivity. }
  assert (Hdata : forall f, f <> "date" ->
                            dict_get f data
                            = dict_get f (dict_set "date" JNull data)).
  { intros f Hf. rewrite dict_get_set_other by exact Hf. reflexivity. }
  destruct (dict_get "skills" data) as [[]|]; cbn [and_then];
    try (apply Hv; [exact Hdata | reflexivity]).
  destruct (loads s); cbn [and_then]; try discriminate.
  apply Hv.
  - intros f Hf. destruct (String.eqb_spec f "skills") as [->|Hs].
    + rewrite !dict_get_set. reflexivity.
    + rewrite !dict_get_set_other by assumption. reflexivity.
  - apply dict_get_set_other. discriminate.
Qed.

(** ** List *)

Lemma get_all_players_disk pid date w :
  disk (snd (get_all_players pid date w)) = disk w.
Proof.
  unfold get_all_players. cbn [connect].
  destruct (build_filters pid date) as [f|[]|e|]; try reflexivity.
  destruct (build_result _ _); reflexivity.
Qed.

(** A listing that gets through closes its connection. *)
Lemma get_all_players_rows pid date w filters result :
  build_filters pid date = Continue filters ->
  build_result (select filters (disk w)) [] = Continue result ->
  get_all_players pid date w = (Rows result, w).
Proof.
  intros Hf Hr. unfold get_all_players. cbn [connect]. rewrite Hf.
  unfold fetchall. cbn [view]. rewrite Hr. destruct w. reflexivity.
Qed.

(** A malformed date filter ends the request with the connection open. *)
Lemma get_all_players_bad_date pid text w :
  text <> "" -> strptime_dmY text = None ->
  get_all_players pid (Some text) w
  = (ErrorObject "Invalid date format. Use DD/MM/YYYY.",
     mkworld (disk w) (S (open_connections w))).
Proof.
  intros Hne Hbad. unfold get_all_players, build_filters. cbn [connect].
  destruct text as [|c t]; [congruence|]. cbn [truthy]. rewrite Hbad.
  reflexivity.
Qed.

Lemma build_result_map (g : row -> json) rows :
  Forall (fun r => loads (r_skills r) = Decoded (g r)) rows ->
  forall acc,
    build_result rows acc
    = Continue (acc ++ map (fun r => row_dict r (g r)) rows)%list.
Proof.
  induction 1 as [|r rows Hr Hrows IH]; intros acc.
  - cbn. now rewrite List.app_nil_r.
  - cbn [build_result map]. rewrite Hr, IH, <- List.app_assoc. reflexivity.
Qed.

Lemma build_result_inv rows :
  forall acc result,
    build_result rows acc = Continue result ->
    exists new,
      result = (acc ++ new)%list
      /\ Forall2 (fun r e => exists v, loads (r_skills r) = Decoded v
                                       /\ e = row_dict r v) rows new.
Proof.
  induction rows as [|r rows IH]; intros acc result H.
  - cbn in H. injection H as <-. exists []. split; [now rewrite List.app_nil_r|].
    constructor.
  - cbn [build_result] in H. destruct (loads (r_skills r)) as [v| | |] eqn:E;
      try discriminate H.
    apply IH in H. destruct H as (new & -> & Hall).
    exists (row_dict r v :: new). split; [now rewrite <- List.app_assoc|].
    constructor; [eauto | exact Hall].
Qed.

Lemma where_nothing l : filter (where_ []) l = l.
Proof. apply filter_all. reflexivity. Qed.

(** The stored date of a snapshot is shown in day/month/year form. *)
Lemma display_date_strftime d :
  valid_date d = true -> 1000 <= year d ->
  display_date (strftime_Ymd d) = strftime_dmY d.
Proof.
  intros H Hk. unfold display_date.
  rewrite strptime_Ymd_strftime by assumption. reflexivity.
Qed.

(** ** Worlds the service reaches *)

Lemma has_player_upsert pid name sp db s :
  has_player db s = true ->
  has_player (upsert_player pid name sp db) s = true.
Proof.
  unfold has_player. rewrite !existsb_find.
  destruct (String.eqb_spec (s_player_id s) pid) as [->|Hne].
  - rewrite upsert_find. reflexivity.
  - rewrite upsert_find_other by exact Hne. auto.
Qed.

Lemma has_player_upserted pid name sp db s :
  s_player_id s = pid -> has_player (upsert_player pid name sp db) s = true.
Proof.
  intros <-. unfold has_player. rewrite existsb_find, upsert_find. reflexivity.
Qed.

Lemma save_keeps_consistent pid p iso db :
  consistent db ->
  consistent (insert_stats (stats_of pid p iso)
                (upsert_player pid (name p) (specialties p) db)).
Proof.
  intros [Hpk Hall]. split.
  - apply (upsert_primary_key pid (name p) (specialties p) db Hpk).
  - cbn [insert_stats player_stats upsert_player]. apply Forall_app. split.
    + eapply Forall_impl; [|exact Hall]. intros s [Hs Hv]. split; [|exact Hv].
      apply (has_player_upsert pid (name p) (specialties p) db s Hs).
    + constructor; [|constructor]. split.
      * apply (has_player_upserted pid (name p) (specialties p) db).
        reflexivity.
      * eexists. reflexivity.
Qed.

Lemma reachable_consistent lib w : reachable lib w -> consistent (disk w).
Proof.
  induction 1 as [|now pid data w Hw IH|pid date w Hw IH].
  - split; constructor.
  - destruct (parse_body lib data) as [p| | |] eqn:E.
    + rewrite (save_player_accepted lib now pid data p w E). cbn [snd disk].
      apply save_keeps_consistent, IH.
    + destruct (save_player_not_accepted lib now pid data w) as [-> _];
        [congruence | exact IH].
    + destruct (save_player_not_accepted lib now pid data w) as [-> _];
        [congruence | exact IH].
    + destruct (save_player_not_accepted lib now pid data w) as [-> _];
        [congruence | exact IH].
  - rewrite get_all_players_disk. exact IH.
Qed.

(** ** A batch of saves under one identity *)

Lemma accepted_sortable lib q :
  accepted lib q ->
  forall now, sortable_date now (date (player q)) = strftime_Ymd (on_date q).
Proof.
  intros (_ & _ & text & Hd & Hp) now. unfold sortable_date.
  rewrite Hd, Hp. reflexivity.
Qed.

Lemma save_all_stored lib pid batch :
  Forall (accepted lib) batch ->
  forall w,
    save_all lib pid (requests_of batch) w
    = mkworld (stored pid batch (disk w)) (open_connections w).
Proof.
  induction 1 as [|q batch Hq Hbatch IH]; intros w.
  - destruct w. reflexivity.
  - cbn [requests_of map save_all]. fold (requests_of batch).
    rewrite (save_player_accepted lib _ pid _ (player q) w (proj1 Hq)).
    cbn [snd]. rewrite IH. cbn [disk open_connections stored].
    rewrite (accepted_sortable lib q Hq). reflexivity.
Qed.

Lemma stored_stats pid batch :
  forall db,
    player_stats (stored pid batch db)
    = (player_stats db ++ map (snapshot_of pid) batch)%list.
Proof.
  induction batch as [|q batch IH]; intros db.
  - cbn. now rewrite List.app_nil_r.
  - cbn [stored map]. rewrite IH. cbn [insert_stats upsert_player player_stats].
    rewrite <- List.app_assoc. reflexivity.
Qed.

Lemma stored_primary_key pid batch :
  forall db, primary_key db -> primary_key (stored pid batch db).
Proof.
  induction batch as [|q batch IH]; intros db H; [exact H|].
  cbn [stored]. apply IH.
  apply (upsert_primary_key pid (name (player q)) (specialties (player q)) db H).
Qed.

Lemma stored_find pid batch :
  forall db q,
    batch <> [] ->
    find (has_id pid) (players (stored pid batch db))
    = Some (mkplayer pid (name (player (last batch q)))
                     (specialties (player (last batch q)))).
Proof.
  induction batch as [|q0 batch IH]; intros db q Hne; [congruence|].
  cbn [stored]. destruct batch as [|q1 batch].
  - cbn [stored last]. cbn [insert_stats players].
    apply upsert_find.
  - rewrite (IH _ q) by congruence. reflexivity.
Qed.

(** ** Chronological order *)

Lemma date_ltb_spec a b :
  date_ltb a b = true
  <-> year a < year b
      \/ (year a = year b
          /\ (month a < month b \/ (month a = month b /\ day a < day b))).
Proof.
  unfold date_ltb.
  rewrite !orb_true_iff, !andb_true_iff, !orb_true_iff, !andb_true_iff,
    !Nat.ltb_lt, !Nat.eqb_eq. tauto.
Qed.

Lemma date_not_ltb_trans a b c :
  date_ltb a b = false -> date_ltb b c = false -> date_ltb a c = false.
Proof.
  intros H1 H2. apply not_true_iff_false. apply not_true_iff_false in H1, H2.
  rewrite date_ltb_spec in *. lia.
Qed.

Lemma date_ltb_total a b :
  a <> b -> date_ltb a b = false -> date_ltb b a = true.
Proof.
  intros Hne H. apply not_true_iff_false in H. rewrite date_ltb_spec in *.
  assert (year a <> year b \/ month a <> month b \/ day a <> day b).
  { destruct a as [y m d], b as [y' m' d']. cbn [year month day].
    destruct (Nat.eq_dec y y'); [|lia].
    destruct (Nat.eq_dec m m'); [|lia].
    destruct (Nat.eq_dec d d'); [|lia].
    exfalso. apply Hne. congruence. }
  lia.
Qed.

(** A list in which no date comes before a later one and no date occurs
    twice is in strictly descending order. *)
Lemma newest_first {A : Type} (d : A -> Calendar.date) l :
  Sorted (fun a b => date_ltb (d a) (d b) = false) l ->
  NoDup (map d l) ->
  StronglySorted (fun a b => date_ltb (d b) (d a) = true) l.
Proof.
  intros Hs Hnd. apply Sorted_StronglySorted in Hs.
  - induction Hs as [|x l Hl IH Hx]; [constructor|].
    cbn [map] in Hnd. inversion Hnd as [|? ? Hnotin Hnd']. subst.
    constructor; [apply IH, Hnd'|].
    rewrite Forall_forall in *. intros y Hy.
    apply date_ltb_total; [|apply Hx, Hy].
    intros E. apply Hnotin. rewrite E. apply in_map, Hy.
  - intros a b c. apply date_not_ltb_trans.
Qed.

End ServerFacts.

Section ListingFacts.
Import Text Calendar Json Sqlite Server.

Lemma build_result_image_from {A : Type} (f : A -> row) (e : A -> entry) l :
  (forall q, In q l ->
             exists v, loads (r_skills (f q)) = Decoded v
                       /\ row_dict (f q) v = e q) ->
  forall acc,
    build_result (map f l) acc = Continue (acc ++ map e l)%list.
Proof.
  induction l as [|q l IH]; intros H acc.
  - cbn. now rewrite List.app_nil_r.
  - destruct (H q (or_introl eq_refl)) as (v & Hv & He).
    cbn [map build_result]. rewrite Hv, He, IH, <- List.app_assoc.
    + reflexivity.
    + intros q' Hq'. apply H. right. exact Hq'.
Qed.

(** The loop over rows that all decode builds one object for each row. *)
Lemma build_result_image {A : Type} (f : A -> row) (e : A -> entry) l :
  (forall q, In q l ->
             exists v, loads (r_skills (f q)) = Decoded v
                       /\ row_dict (f q) v = e q) ->
  build_result (map f l) [] = Continue (map e l).
Proof.
  intros H. apply (build_result_image_from f e l H []).
Qed.

Lemma Sorted_weaken_in {A : Type} (R R' : A -> A -> Prop) l :
  Sorted R l ->
  (forall a b, In a l -> In b l -> R a b -> R' a b) ->
  Sorted R' l.
Proof.
  induction 1 as [|x l Hs IH Hhd]; intros H; [constructor|].
  constructor.
  - apply IH. intros a b Ha Hb. apply H; right; assumption.
  - destruct Hhd as [|y l' Hxy]; constructor.
    apply H; [left; reflexivity | right; left; reflexivity | exact Hxy].
Qed.

Lemma Forall2_map_left {A B C : Type} (f : A -> B) (R : B -> C -> Prop) l l' :
  Forall2 R (map f l) l' -> Forall2 (fun a c => R (f a) c) l l'.
Proof.
  revert l'. induction l as [|a l IH]; intros l' H.
  - inversion H. constructor.
  - cbn [map] in H. inversion H. subst. constructor; [assumption|].
    apply IH. assumption.
Qed.

Lemma Forall2_map_snd {A B C : Type} (R : B -> C -> Prop) (l : list (A * B)) l' :
  Forall2 (fun ab c => R (snd ab) c) l l' -> Forall2 R (map snd l) l'.
Proof.
  induction 1; cbn [map]; constructor; assumption.
Qed.

Lemma Forall2_impl_in {A B : Type} (R R' : A -> B -> Prop) l l' :
  Forall2 R l l' ->
  (forall a b, In a l -> R a b -> R' a b) ->
  Forall2 R' l l'.
Proof.
  induction 1 as [|a b l l' Hab Hl IH]; intros H; constructor.
  - apply H; [left; reflexivity | exact Hab].
  - apply IH. intros a' b' Ha'. apply H. right. exact Ha'.
Qed.

Lemma Forall2_length_eq {A B : Type} (R : A -> B -> Prop) l l' :
  Forall2 R l l' -> List.length l = List.length l'.
Proof. induction 1; cbn; congruence. Qed.

Lemma truthy_nonempty pid : pid <> "" -> truthy (Some pid) = Some pid.
Proof. destruct pid; [congruence | reflexivity]. Qed.

End ListingFacts.

(** * The claims of the specification *)

Section Claims.
Import Text Calendar Json Sqlite Server.

(** C1 (the code departs from the claim).  Every request should release
    the connection it opened on every exit path.  [save_player] does
    ([save_player_releases]); [get_all_players] asked for the date
    ["not-a-date"] returns the error object of line 173 and leaves its
    connection open: one more connection is open after the call than
    before. *)
Theorem list_malformed_date_leaves_connection_open :
  get_all_players None (Some "not-a-date") started
  = (ErrorObject "Invalid date format. Use DD/MM/YYYY.",
     mkworld Sqlite.empty 1)
  /\ open_connections started = 0.
Proof. split; reflexivity. Qed.

(** C2 as amended.  A valid payload whose date text has the zero-padded
    shape DD/MM/YYYY and is read by [strptime] as a date of the year 1000
    or later, saved into an empty store, is stored with that date in the
    form YYYY-MM-DD and, listed with no filters, comes back as exactly one
    object with the saved fields, the saved skills mapping and the original
    date text. *)
Theorem save_then_list_round_trip lib now pid data p text d n :
  parse_body lib data = Continue p ->
  wf (JObj (skills p)) = true ->
  date p = Some text ->
  ddmmyyyy text = true ->
  strptime_dmY text = Some d ->
  1000 <= year d ->
  exists w1,
    save_player lib now pid data (mkworld Sqlite.empty n)
    = (Message (success_text (name p)), w1)
    /\ map s_date (player_stats (disk w1)) = [strftime_Ymd d]
    /\ strptime_Ymd (strftime_Ymd d) = Some d
    /\ get_all_players None None w1 = (Rows [entry_of pid p p text], w1).
Proof.
  intros Hp Hwf Hdate Hshape Hparse Hyear.
  pose proof (strptime_dmY_valid text d Hparse) as Hvalid.
  rewrite (save_player_accepted lib now pid data p _ Hp).
  eexists. split; [reflexivity|]. split; [|split].
  { cbn [disk insert_stats player_stats upsert_player Sqlite.empty List.app
         map stats_of s_date].
    unfold sortable_date. rewrite Hdate, Hparse. reflexivity. }
  { apply strptime_Ymd_strftime; assumption. }
  apply (get_all_players_rows None None _ []); [reflexivity|].
  unfold select. rewrite where_nothing.
  unfold join. cbn [disk insert_stats upsert_player players player_stats
                    Sqlite.empty existsb List.app flat_map map filter].
  unfold has_id at 1. cbn [p_id stats_of s_player_id].
  rewrite String.eqb_refl. cbn [map List.app order_by_date_desc insert_desc].
  rewrite (build_result_map (fun _ => JObj (skills p))).
  - cbn [map List.app]. unfold row_dict, entry_of, select_columns.
    cbn [r_id r_name r_specialties r_age r_TSI r_salary r_fitness r_form
         r_date p_id p_name p_specialties s_age s_TSI s_salary s_fitness
         s_form s_date].
    unfold sortable_date. rewrite Hdate, Hparse. unfold stats_of.
    cbn [s_age s_TSI s_salary s_fitness s_form s_date].
    rewrite display_date_strftime by assumption.
    rewrite (ddmmyyyy_canonical text d Hshape Hparse Hyear). reflexivity.
  - constructor; [|constructor]. cbn [select_columns r_skills s_skills].
    apply loads_dumps_wf, Hwf.
Qed.

(** C3.  Two accepted Saves under one identity, whatever the two names,
    leave one row of [players] for the identity, with the identity
    unchanged and the name and specialties of the second Save, and add two
    rows at the end of [player_stats]; and no Save, accepted or not, changes
    or removes a row that [player_stats] already holds. *)
Theorem two_saves_one_player_two_snapshots
    lib now1 now2 pid data1 data2 p1 p2 w :
  primary_key (disk w) ->
  parse_body lib data1 = Continue p1 ->
  parse_body lib data2 = Continue p2 ->
  let first := save_player lib now1 pid data1 w in
  let second := save_player lib now2 pid data2 (snd first) in
  fst first = Message (success_text (name p1))
  /\ fst second = Message (success_text (name p2))
  /\ filter (has_id pid) (players (disk (snd second)))
     = [mkplayer pid (name p2) (specialties p2)]
  /\ player_stats (disk (snd second))
     = (player_stats (disk w)
        ++ [stats_of pid p1 (sortable_date now1 (date p1));
            stats_of pid p2 (sortable_date now2 (date p2))])%list
  /\ List.length (filter (of_player pid) (player_stats (disk (snd second))))
     = List.length (filter (of_player pid) (player_stats (disk w))) + 2
  /\ (forall lib' now pid' data w',
         exists added,
           player_stats (disk (snd (save_player lib' now pid' data w')))
           = (player_stats (disk w') ++ added)%list).
Proof.
  intros Hpk H1 H2 first second. subst first second.
  rewrite (save_player_accepted lib now1 pid data1 p1 w H1). cbn [fst snd].
  rewrite (save_player_accepted lib now2 pid data2 p2 _ H2).
  cbn [fst snd disk].
  assert (Hstats :
    player_stats
      (insert_stats (stats_of pid p2 (sortable_date now2 (date p2)))
         (upsert_player pid (name p2) (specialties p2)
            (insert_stats (stats_of pid p1 (sortable_date now1 (date p1)))
               (upsert_player pid (name p1) (specialties p1) (disk w)))))
    = (player_stats (disk w)
       ++ [stats_of pid p1 (sortable_date now1 (date p1));
           stats_of pid p2 (sortable_date now2 (date p2))])%list).
  { cbn [insert_stats upsert_player player_stats].
    rewrite <- List.app_assoc. reflexivity. }
  set (r1 := stats_of pid p1 (sortable_date now1 (date p1))) in *.
  set (r2 := stats_of pid p2 (sortable_date now2 (date p2))) in *.
  assert (Hpk1 : primary_key
                   (insert_stats r1 (upsert_player pid (name p1)
                                       (specialties p1) (disk w))))
    by exact (upsert_primary_key pid (name p1) (specialties p1) (disk w) Hpk).
  repeat split.
  - rewrite filter_has_id.
    + cbn [insert_stats players]. rewrite upsert_find. reflexivity.
    + exact (upsert_primary_key pid (name p2) (specialties p2) _ Hpk1).
  - exact Hstats.
  - rewrite Hstats, filter_app, List.length_app.
    subst r1 r2. cbn [filter]. unfold of_player at 2 3 4 5, stats_of.
    cbn [s_player_id]. rewrite String.eqb_refl. reflexivity.
  - intros. apply save_player_appends.
Qed.

(** C4 as amended.  After N accepted Saves under one identity, N at least
    one, whose date texts denote N different dates of the year 1000 or
    later, into a store that held no snapshot of the identity, a List
    filtered by the identity returns the N snapshots, each once, the most
    recent date first. *)
Theorem list_by_identity_newest_first lib pid earlier final w :
  pid <> "" ->
  primary_key (disk w) ->
  filter (of_player pid) (player_stats (disk w)) = [] ->
  Forall (accepted lib) (earlier ++ [final]) ->
  Forall (fun q => 1000 <= year (on_date q)) (earlier ++ [final]) ->
  NoDup (map on_date (earlier ++ [final])) ->
  let w' := save_all lib pid (requests_of (earlier ++ [final])) w in
  exists ordered,
    get_all_players (Some pid) None w'
    = (Rows (map (fun q => entry_of pid (player final) (player q)
                                    (strftime_dmY (on_date q))) ordered), w')
    /\ Permutation ordered (earlier ++ [final])
    /\ StronglySorted (fun a b => date_ltb (on_date b) (on_date a) = true)
                      ordered.
Proof.
  intros Hpid Hpk Hnone Hacc Hyears Hnd w'. subst w'.
  set (batch := (earlier ++ [final])%list) in *.
  rewrite (save_all_stored lib pid batch Hacc w).
  set (holder := mkplayer pid (name (player final)) (specialties (player final))).
  set (f := fun q => select_columns holder (snapshot_of pid q)).
  destruct (order_by_date_desc_map f batch) as (ordered & Hord & Hperm).
  assert (Hin : forall q, In q ordered -> accepted lib q).
  { intros q Hq. rewrite Forall_forall in Hacc. apply Hacc.
    apply (Permutation_in _ Hperm Hq). }
  assert (Hvalid : forall q, In q ordered -> valid_date (on_date q) = true).
  { intros q Hq. destruct (Hin q Hq) as (_ & _ & text & _ & Hp).
    apply (strptime_dmY_valid text), Hp. }
  assert (Hyear : forall q, In q ordered -> 1000 <= year (on_date q)).
  { intros q Hq. rewrite Forall_forall in Hyears. apply Hyears.
    apply (Permutation_in _ Hperm Hq). }
  exists ordered. split; [|split].
  - apply (get_all_players_rows (Some pid) None _ [IdIs pid]).
    + unfold build_filters. rewrite truthy_nonempty by exact Hpid. reflexivity.
    + cbn [disk]. unfold select.
      rewrite join_of_player by (apply stored_primary_key, Hpk).
      rewrite (stored_find pid batch (disk w) final)
        by (unfold batch; destruct earlier; discriminate).
      unfold batch at 1 2. rewrite !last_last. fold holder.
      rewrite stored_stats, filter_app, Hnone. cbn [List.app].
      rewrite filter_all
        by (intros s Hs; apply in_map_iff in Hs; destruct Hs as (q & <- & _);
            unfold of_player, snapshot_of, stats_of; cbn [s_player_id];
            apply String.eqb_refl).
      rewrite map_map. fold f. rewrite Hord.
      apply (build_result_image f _ ordered).
      intros q Hq. destruct (Hin q Hq) as (_ & Hwf & _).
      exists (JObj (skills (player q))). split.
      * unfold f, select_columns, snapshot_of, stats_of.
        cbn [r_skills s_skills]. apply loads_dumps_wf, Hwf.
      * unfold row_dict, entry_of, f, select_columns, snapshot_of, stats_of,
          holder.
        cbn [r_id r_name r_specialties r_age r_TSI r_salary r_fitness r_form
             r_date p_id p_name p_specialties s_age s_TSI s_salary s_fitness
             s_form s_date].
        rewrite display_date_strftime by (auto using Hvalid, Hyear).
        reflexivity.
  - exact Hperm.
  - apply newest_first.
    + pose proof (order_by_date_desc_sorted (map f batch)) as Hs.
      rewrite Hord in Hs. apply Sorted_map in Hs.
      apply (Sorted_weaken_in _ _ _ Hs).
      intros a b Ha Hb. unfold not_before, f, select_columns, snapshot_of,
        stats_of. cbn [r_date s_date].
      rewrite sortable_order by (auto using Hvalid, Hyear). auto.
    + apply (Permutation_NoDup (l := map on_date batch)); [|exact Hnd].
      apply Permutation_map. symmetry. exact Hperm.
Qed.

(** C5.  A Save whose [skills] is a text on which [json.loads] raises
    returns an error object and leaves both tables, and the world, as they
    were.  The error object carries the detail of the [JSONDecodeError]
    after the words of line 95; on a text that strains the interpreter it
    is made from the exception the interpreter raised.  So every text
    that does not decode, floats apart, is reported and nothing is
    stored. *)
Theorem save_undecodable_skills_reports_and_stores_nothing
    lib now pid data text w :
  dict_get "skills" data = Some (JStr text) ->
  (forall msg pos,
      loads text = JSONDecodeError msg pos ->
      save_player lib now pid (JObj data) w
      = (Error ("Invalid JSON in skills: " ++ decode_error_text text msg pos),
         w))
  /\ (loads text = DecodeRaises ->
      save_player lib now pid (JObj data) w
      = (ErrorOf (StrainedDecode text), w))
  /\ ((forall v, loads text <> Decoded v) -> loads text <> NotModelled ->
      Notions.reported (fst (save_player lib now pid (JObj data) w))
      /\ snd (save_player lib now pid (JObj data) w) = w).
Proof.
  intros Hs. unfold save_player, save_player_try, parse_body, decode_skills.
  rewrite Hs. split; [|split].
  - intros msg pos Hl. rewrite Hl. reflexivity.
  - intros Hl. rewrite Hl. reflexivity.
  - intros Hv Hn. destruct (loads text) as [v| | |].
    + exfalso. apply (Hv v). reflexivity.
    + split; [exact I | reflexivity].
    + split; [exact I | reflexivity].
    + exfalso. apply Hn. reflexivity.
Qed.

(** C6.  An accepted Save whose date text is present but is not read by
    [strptime] as a date of the calendar returns the success message,
    upserts the player and appends one snapshot whose date is today's, in
    the form YYYY-MM-DD that [strptime] reads back as today. *)
Theorem save_unreal_date_stores_today lib now pid data p text w :
  parse_body lib data = Continue p ->
  date p = Some text ->
  strptime_dmY text = None ->
  save_player lib now pid data w
  = (Message (success_text (name p)),
     mkworld (mkdb (players (upsert_player pid (name p) (specialties p)
                                           (disk w)))
                   (player_stats (disk w)
                    ++ [mkstats pid (TSI p) (salary p) (fitness p) (form p)
                                (dumps (JObj (skills p)))
                                (strftime_Ymd now) (age p)]))
             (open_connections w))
  /\ (valid_date now = true -> 1000 <= year now ->
      strptime_Ymd (strftime_Ymd now) = Some now).
Proof.
  intros Hp Hd Hbad. split; [|apply strptime_Ymd_strftime].
  rewrite (save_player_accepted lib now pid data p w Hp).
  unfold sortable_date. rewrite Hd, Hbad. reflexivity.
Qed.

(** C7 as amended.  Take a body that is accepted once its [date] is set
    to null.  If its [date] is null, or is absent under a validation
    library that gives the field the default null (pydantic 1.x), Save
    returns the success message, upserts the player and appends one
    snapshot whose date is today's in sortable form.  If its [date] is
    absent under a library that requires the field (pydantic 2.x), Save
    returns the error object of the validation error on [date] and the
    world is as it was. *)
Theorem save_null_or_defaulted_date_stores_today lib now pid data p w :
  parse_body lib (JObj (dict_set "date" JNull data)) = Continue p ->
  let saved :=
    (Message (success_text (name p)),
     mkworld (mkdb (players (upsert_player pid (name p) (specialties p)
                                           (disk w)))
                   (player_stats (disk w)
                    ++ [mkstats pid (TSI p) (salary p) (fitness p) (form p)
                                (dumps (JObj (skills p)))
                                (strftime_Ymd now) (age p)]))
             (open_connections w)) in
  (dict_get "date" data = Some JNull ->
   save_player lib now pid (JObj data) w = saved)
  /\ (dict_get "date" data = None -> lib = V1 ->
      save_player lib now pid (JObj data) w = saved)
  /\ (dict_get "date" data = None -> lib = V2 ->
      save_player lib now pid (JObj data) w
      = (ErrorOf (ValidationError ["date"]), w)).
Proof.
  intros Hp saved. subst saved.
  destruct (parse_body_other_date lib data p Hp) as [Hnone Hbody].
  assert (Hsame : with_date p None = p).
  { destruct p. cbn in Hnone. subst. reflexivity. }
  assert (Hsaved : parse_body lib (JObj data) = Continue p ->
            save_player lib now pid (JObj data) w
            = (Message (success_text (name p)),
               mkworld (mkdb (players (upsert_player pid (name p)
                                         (specialties p) (disk w)))
                          (player_stats (disk w)
                           ++ [mkstats pid (TSI p) (salary p) (fitness p)
                                 (form p) (dumps (JObj (skills p)))
                                 (strftime_Ymd now) (age p)]))
                       (open_connections w))).
  { intros H. rewrite (save_player_accepted lib now pid _ p w H).
    unfold sortable_date. rewrite Hnone. reflexivity. }
  split; [|split].
  - intros Hd. apply Hsaved. rewrite Hbody, Hd. cbn [optional_str_field].
    rewrite Hsame. reflexivity.
  - intros Hd ->. apply Hsaved. rewrite Hbody, Hd. cbn [optional_str_field].
    rewrite Hsame. reflexivity.
  - intros Hd ->. unfold save_player, save_player_try. rewrite Hbody, Hd.
    reflexivity.
Qed.

(** C8.  A List whose date parameter is not empty and is not read by
    [strptime] returns the error object that states the expected format,
    not a list of rows, and the tables are as they were. *)
Theorem list_malformed_date_reports_error pid text w :
  text <> "" ->
  strptime_dmY text = None ->
  fst (get_all_players pid (Some text) w)
  = ErrorObject "Invalid date format. Use DD/MM/YYYY."
  /\ disk (snd (get_all_players pid (Some text) w)) = disk w.
Proof.
  intros Hne Hbad. rewrite (get_all_players_bad_date pid text w Hne Hbad).
  split; reflexivity.
Qed.

(** C9.  An empty [player_id] or [date] parameter is treated as an absent
    one: the call gives what the call without the parameter gives, and an
    empty date never gives the error object. *)
Theorem list_empty_parameters_are_absent :
  forall pid date w,
    get_all_players (Some "") date w = get_all_players None date w
    /\ get_all_players pid (Some "") w = get_all_players pid None w
    /\ forall text, fst (get_all_players pid (Some "") w) <> ErrorObject text.
Proof.
  intros pid date w. repeat split.
  intros text. unfold get_all_players, build_filters. cbn [connect truthy].
  destruct (truthy pid); destruct (build_result _ _); discriminate.
Qed.

(** C10.  Under the primary key, a List with no filters returns one
    object for each snapshot that has a row of [players] with its identity,
    joined with that row, and none for a snapshot that has no such row; in
    a world the service reaches from start-up the List does return, with one
    object for every snapshot. *)
Theorem list_is_inner_join lib w :
  primary_key (disk w) ->
  (forall result w',
      get_all_players None None w = (Rows result, w') ->
      exists matched,
        Permutation matched
          (filter (has_player (disk w)) (player_stats (disk w)))
        /\ Forall2 (shows (disk w)) matched result)
  /\ (reachable lib w ->
      exists result,
        get_all_players None None w = (Rows result, w)
        /\ List.length result = List.length (player_stats (disk w))).
Proof.
  intros Hpk.
  destruct (join_primary_key (disk w) Hpk) as (pairs & Hjoin & Hsnd & Hpairs).
  set (f := fun ps : player_row * stats_row =>
              select_columns (fst ps) (snd ps)) in *.
  destruct (order_by_date_desc_map f pairs) as (ordered & Hord & Hperm).
  assert (Hselect : select [] (disk w) = map f ordered).
  { unfold select. rewrite where_nothing, Hjoin. exact Hord. }
  split.
  - intros result w' H. unfold get_all_players in H.
    cbn [connect build_filters truthy] in H.
    unfold fetchall in H. cbn [view] in H. rewrite Hselect in H.
    destruct (build_result (map f ordered) []) as [res| | |] eqn:E;
      try discriminate H.
    injection H as <- _.
    apply build_result_inv in E. destruct E as (new & -> & Hall).
    cbn [List.app]. exists (map snd ordered). split.
    + rewrite <- Hsnd. apply Permutation_map, Hperm.
    + apply Forall2_map_snd. apply Forall2_map_left in Hall.
      apply (Forall2_impl_in _ _ _ _ Hall).
      intros [p s] e Hps (v & Hv & ->).
      assert (Hp : In p (players (disk w)) /\ p_id p = s_player_id s).
      { rewrite Forall_forall in Hpairs.
        apply (Hpairs (p, s)), (Permutation_in _ Hperm Hps). }
      exists p. cbn [snd]. unfold f, row_dict, select_columns.
      cbn [fst snd o_id o_name o_specialties o_age o_TSI o_salary o_fitness
           o_form o_skills o_date r_id r_name r_specialties r_age r_TSI
           r_salary r_fitness r_form r_skills r_date] in *.
      repeat split; tauto.
  - intros Hreach. apply reachable_consistent in Hreach.
    destruct Hreach as [_ Hcons].
    set (g := fun r : row => match loads (r_skills r) with
                             | Decoded v => v
                             | _ => JNull
                             end).
    assert (Hall : filter (has_player (disk w)) (player_stats (disk w))
                   = player_stats (disk w)).
    { apply filter_all. rewrite Forall_forall in Hcons.
      intros s Hs. apply (Hcons s Hs). }
    exists (map (fun ps => row_dict (f ps) (g (f ps))) ordered). split.
    + apply (get_all_players_rows None None w []); [reflexivity|].
      rewrite Hselect.
      apply (build_result_image f _ ordered).
      intros [p s] Hps. exists (g (f (p, s))). split; [|reflexivity].
      assert (Hs : In s (player_stats (disk w))).
      { rewrite <- Hall, <- Hsnd. apply in_map_iff. exists (p, s).
        split; [reflexivity | apply (Permutation_in _ Hperm Hps)]. }
      rewrite Forall_forall in Hcons.
      destruct (Hcons s Hs) as (_ & v & Hv).
      unfold g, f, select_columns. cbn [fst snd r_skills].
      rewrite Hv, loads_dumps. reflexivity.
    + rewrite length_map, (Permutation_length Hperm).
      rewrite <- Hall, <- Hsnd, length_map. reflexivity.
Qed.

End Claims.

(** * The theorems at sample requests *)

Section Witnesses.
Import Text Calendar Json Sqlite Server Sample.

Lemma save_then_list_round_trip_witness :
  exists w1,
    save_player V2 clock "42" (body_of ann) (mkworld Sqlite.empty 0)
    = (Message (success_text "Ann"), w1)
    /\ map s_date (player_stats (disk w1))
       = [strftime_Ymd (mkdate 2024 3 17)]
    /\ strptime_Ymd (strftime_Ymd (mkdate 2024 3 17))
       = Some (mkdate 2024 3 17)
    /\ get_all_players None None w1
       = (Rows [entry_of "42" ann ann "17/03/2024"], w1).
Proof.
  refine (save_then_list_round_trip V2 clock "42" (body_of ann) ann
            "17/03/2024" (mkdate 2024 3 17) 0
            eq_refl eq_refl eq_refl eq_refl eq_refl _).
  apply Nat.leb_le. reflexivity.
Defined.

Lemma two_saves_one_player_two_snapshots_witness :
  primary_key (disk started)
  /\ filter (has_id "42")
       (players (disk (snd (save_player V2 clock "42" (body_of annie)
                              (snd (save_player V2 clock "42" (body_of ann)
                                      started))))))
     = [mkplayer "42" "Annie" "Quick, Head"].
Proof.
  split; [constructor|].
  exact (proj1 (proj2 (proj2
    (two_saves_one_player_two_snapshots V2 clock clock "42"
       (body_of ann) (body_of annie) ann annie started
       (NoDup_nil _) eq_refl eq_refl)))).
Defined.

Lemma sample_batch_accepted :
  Forall (accepted V2) ([first_save] ++ [second_save]).
Proof.
  constructor; [|constructor; [|constructor]].
  - split; [reflexivity|]. split; [reflexivity|].
    exists "17/03/2024". split; reflexivity.
  - split; [reflexivity|]. split; [reflexivity|].
    exists "24/03/2024". split; reflexivity.
Defined.

Lemma sample_batch_years :
  Forall (fun q => 1000 <= year (on_date q)) ([first_save] ++ [second_save]).
Proof.
  repeat constructor; apply Nat.leb_le; reflexivity.
Defined.

Lemma sample_batch_dates :
  NoDup (map on_date ([first_save] ++ [second_save])).
Proof.
  constructor; [|constructor; [intros []|constructor]].
  intros [H|[]]. discriminate H.
Defined.

Lemma list_by_identity_newest_first_witness :
  exists ordered,
    get_all_players (Some "42") None
      (save_all V2 "42" (requests_of ([first_save] ++ [second_save])) started)
    = (Rows (map (fun q => entry_of "42" annie (player q)
                                    (strftime_dmY (on_date q))) ordered),
       save_all V2 "42" (requests_of ([first_save] ++ [second_save])) started)
    /\ Permutation ordered ([first_save] ++ [second_save])
    /\ StronglySorted (fun a b => date_ltb (on_date b) (on_date a) = true)
                      ordered.
Proof.
  refine (list_by_identity_newest_first V2 "42" [first_save] second_save
            started _ (NoDup_nil _) eq_refl sample_batch_accepted
            sample_batch_years sample_batch_dates).
  discriminate.
Defined.

Lemma save_undecodable_skills_witness :
  save_player V2 clock "42" (JObj [("skills", JStr "{not valid json")])
              started
  = (Error ("Invalid JSON in skills: "
            ++ "Expecting property name enclosed in double quotes"
            ++ ": line 1 column 2 (char 1)"), started).
Proof.
  exact (proj1 (save_undecodable_skills_reports_and_stores_nothing
                  V2 clock "42" [("skills", JStr "{not valid json")]
                  "{not valid json" started eq_refl)
           "Expecting property name enclosed in double quotes" 1 eq_refl).
Defined.

Lemma save_unreal_date_stores_today_witness :
  save_player V2 clock "42" (body_of feb31) started
  = (Message (success_text "Ann"),
     mkworld (mkdb [mkplayer "42" "Ann" "Quick"]
                   [mkstats "42" "1200" "300" "7" "6"
                            (dumps (JObj [("keeper", JInt 7)]))
                            "2025-01-02" "17"]) 0).
Proof.
  exact (proj1 (save_unreal_date_stores_today V2 clock "42" (body_of feb31)
                  feb31 "31/02/2024" started eq_refl eq_refl eq_refl)).
Defined.

(** C2 as stated fails for a date text without the leading zeros:
    [strptime] reads ["1/2/2024"], the payload is saved, and the list shows
    ["01/02/2024"], not the text that was sent. *)
Lemma save_then_list_pads_short_date :
  strptime_dmY "1/2/2024" = Some (mkdate 2024 2 1)
  /\ exists w1,
       save_player V2 clock "42" (body_of first_of_feb)
                   (mkworld Sqlite.empty 0)
       = (Message (success_text "Ann"), w1)
       /\ get_all_players None None w1
          = (Rows [entry_of "42" first_of_feb first_of_feb "01/02/2024"], w1)
       /\ "01/02/2024" <> "1/2/2024".
Proof.
  split; [reflexivity|]. eexists. split; [reflexivity|].
  split; [reflexivity | discriminate].
Qed.

(** C4 as stated fails for a date before the year 1000, where [strftime]
    leaves out the leading zero of the year: of two Saves dated
    01/01/0999 and 01/01/2024 the first is stored as ["999-01-01"], which
    sorts above ["2024-01-01"], so that the list has the older snapshot
    first, with its date as stored. *)
Lemma list_by_identity_puts_year_999_first :
  let w := save_all V2 "42" [(clock, body_of in_999);
                             (clock, body_of in_2024)] started in
  strptime_dmY "01/01/0999" = Some (mkdate 999 1 1)
  /\ strptime_dmY "01/01/2024" = Some (mkdate 2024 1 1)
  /\ map s_date (player_stats (disk w)) = ["999-01-01"; "2024-01-01"]
  /\ get_all_players (Some "42") None w
     = (Rows [entry_of "42" in_2024 in_999 "999-01-01";
              entry_of "42" in_2024 in_2024 "01/01/2024"], w).
Proof. repeat split. Qed.

(** C7 as stated fails under pydantic 2.x: the body without a [date] key
    is rejected with a validation error on [date] and nothing is stored. *)
Lemma save_absent_date_rejected_by_pydantic_2 :
  dict_get "date" (fields_of undated) = None
  /\ save_player V2 clock "42" (JObj (fields_of undated)) started
     = (ErrorOf (ValidationError ["date"]), started).
Proof. split; reflexivity. Qed.

Lemma save_null_or_defaulted_date_witness :
  save_player V1 clock "42" (JObj (fields_of undated)) started
  = (Message (success_text "Ann"),
     mkworld (mkdb [mkplayer "42" "Ann" "Quick"]
                   [mkstats "42" "1200" "300" "7" "6"
                            (dumps (JObj [("keeper", JInt 7)]))
                            "2025-01-02" "17"]) 0).
Proof.
  exact (proj1 (proj2 (save_null_or_defaulted_date_stores_today V1 clock "42"
                         (fields_of undated) undated started eq_refl))
           eq_refl eq_refl).
Defined.

Lemma list_malformed_date_reports_error_witness :
  fst (get_all_players None (Some "not-a-date") started)
  = ErrorObject "Invalid date format. Use DD/MM/YYYY."
  /\ disk (snd (get_all_players None (Some "not-a-date") started))
     = disk started.
Proof.
  refine (list_malformed_date_reports_error None "not-a-date" started _
            eq_refl).
  discriminate.
Defined.

Lemma with_orphan_primary_key : primary_key (disk with_orphan).
Proof.
  constructor; [intros []|constructor].
Defined.

Lemma list_is_inner_join_witness :
  (forall result w',
      get_all_players None None with_orphan = (Rows result, w') ->
      exists matched,
        Permutation matched
          (filter (has_player (disk with_orphan))
                  (player_stats (disk with_orphan)))
        /\ Forall2 (shows (disk with_orphan)) matched result)
  /\ (reachable V2 with_orphan ->
      exists result,
        get_all_players None None with_orphan = (Rows result, with_orphan)
        /\ List.length result
           = List.length (player_stats (disk with_orphan))).
Proof.
  exact (list_is_inner_join V2 with_orphan with_orphan_primary_key).
Defined.

(** ** Remarks *)

(** The null date of C7 under pydantic 2.x. *)
Example save_null_date_under_pydantic_2 :
  save_player V2 clock "42" (body_of undated) started
  = (Message (success_text "Ann"),
     mkworld (mkdb [mkplayer "42" "Ann" "Quick"]
                   [mkstats "42" "1200" "300" "7" "6"
                            (dumps (JObj [("keeper", JInt 7)]))
                            "2025-01-02" "17"]) 0).
Proof. reflexivity. Qed.

(** The snapshot of identity ["9"] has no row in [players] and is left
    out of the list. *)
Example orphan_is_left_out :
  get_all_players None None with_orphan
  = (Rows [mkentry "1" "Ann" "Quick" "17" "1200" "300" "7" "6" (JObj [])
                   "17/03/2024"], with_orphan).
Proof. reflexivity. Qed.

(** A date of the year 999 is stored without the leading zero of the
    year, which [strptime] does not read back: the list shows the stored
    text, and the round trip of C2 needs a year of four digits. *)
Example year_999_is_shown_as_stored :
  exists w1,
    save_player V2 clock "42" (body_of in_999) (mkworld Sqlite.empty 0)
    = (Message (success_text "Ann"), w1)
    /\ map s_date (player_stats (disk w1)) = ["999-01-01"]
    /\ get_all_players None None w1
       = (Rows [entry_of "42" in_999 in_999 "999-01-01"], w1).
Proof. eexists. split; [reflexivity|]. split; reflexivity. Qed.

(** The list of the two sample saves, the later date first, with the
    name and specialties of the second save in both objects. *)
Example sample_batch_listed :
  fst (get_all_players (Some "42") None
         (save_all V2 "42" (requests_of [first_save; second_save]) started))
  = Rows [entry_of "42" annie annie "24/03/2024";
          entry_of "42" annie ann "17/03/2024"].
Proof. reflexivity. Qed.

(** An exception in the loop of [get_all_players] leaves the handler with
    the connection open, like the early return of C1. *)
Example list_exception_leaves_connection_open :
  get_all_players None None with_bad_skills
  = (Uncaught (DecodeError "oops" "Expecting value" 0),
     mkworld (disk with_bad_skills) 1).
Proof. reflexivity. Qed.

(** A listing that goes through leaves as many connections open as it
    found. *)
Example list_closes_on_success :
  get_all_players None None started = (Rows [], started).
Proof. reflexivity. Qed.

End Witnesses.

(** * Facts about the schema and the start-up *)

Section SchemaFacts.
Import Schema Notions.

Lemma same_name_lower a b : same_name a b = true <-> lower a = lower b.
Proof. unfold same_name. apply String.eqb_eq. Qed.

Lemma same_name_refl a : same_name a a = true.
Proof. apply same_name_lower. reflexivity. Qed.

Lemma same_name_sym a b : same_name a b = same_name b a.
Proof. unfold same_name. apply String.eqb_sym. Qed.

(** Two names that match a third one match the same names. *)
Lemma same_name_cong n name name' :
  same_name n name = true -> same_name n name' = same_name name name'.
Proof.
  intros H. apply same_name_lower in H. unfold same_name. rewrite H.
  reflexivity.
Qed.

Lemma find_table_app name (f : file) n t :
  find_table name (f ++ [(n, t)])%list
  = match find_table name f with
    | Some x => Some x
    | None => if same_name n name then Some t else None
    end.
Proof.
  induction f as [|[n0 t0] f IH]; [reflexivity|].
  cbn [List.app find_table]. destruct (same_name n0 name); [reflexivity | exact IH].
Qed.

Lemma find_table_replace name t' f name' t :
  find_table name f = Some t ->
  find_table name' (replace_table name t' f)
  = if same_name name name' then Some t' else find_table name' f.
Proof.
  induction f as [|[n0 t0] f IH]; [discriminate|].
  cbn [find_table replace_table]. destruct (same_name n0 name) eqn:E.
  - intros _. cbn [find_table]. rewrite (same_name_cong n0 name name' E).
    destruct (same_name name name'); reflexivity.
  - intros H. cbn [find_table]. rewrite (IH H).
    destruct (same_name n0 name') eqn:E'; [|reflexivity].
    destruct (same_name name name') eqn:E2; [exfalso|reflexivity].
    apply same_name_lower in E', E2.
    assert (same_name n0 name = true) by (apply same_name_lower; congruence).
    congruence.
Qed.

Lemma create_keeps name cols f name' t :
  find_table name' f = Some t ->
  find_table name' (create_table_if_not_exists name cols f) = Some t.
Proof.
  intros H. unfold create_table_if_not_exists.
  destruct (find_table name f); [exact H|].
  rewrite find_table_app, H. reflexivity.
Qed.

Lemma create_makes name cols f :
  find_table name f = None ->
  find_table name (create_table_if_not_exists name cols f)
  = Some (mktable cols []).
Proof.
  intros H. unfold create_table_if_not_exists. rewrite H.
  rewrite find_table_app, H, same_name_refl. reflexivity.
Qed.

Lemma create_found name cols f :
  exists t, find_table name (create_table_if_not_exists name cols f) = Some t.
Proof.
  destruct (find_table name f) as [t|] eqn:E.
  - exists t. apply create_keeps, E.
  - eexists. apply create_makes, E.
Qed.

Lemma create_again name cols f :
  (exists t, find_table name f = Some t) ->
  create_table_if_not_exists name cols f = f.
Proof.
  intros [t H]. unfold create_table_if_not_exists. rewrite H. reflexivity.
Qed.

Lemma create_other name cols f name' :
  same_name name name' = false ->
  find_table name' (create_table_if_not_exists name cols f)
  = find_table name' f.
Proof.
  intros H. unfold create_table_if_not_exists.
  destruct (find_table name f); [reflexivity|].
  rewrite find_table_app, H. destruct (find_table name' f); reflexivity.
Qed.

Lemma exact_name_matches column cols :
  existsb (same_name column) cols = false ->
  existsb (String.eqb column) cols = false.
Proof.
  induction cols as [|c cols IH]; [reflexivity|].
  cbn [existsb]. intros H. apply orb_false_elim in H. destruct H as [H1 H2].
  rewrite (IH H2), orb_false_r.
  destruct (String.eqb_spec column c) as [->|]; [|reflexivity].
  rewrite same_name_refl in H1. discriminate H1.
Qed.

Lemma existsb_eqb_In column cols :
  existsb (String.eqb column) cols = true <-> In column cols.
Proof.
  rewrite existsb_exists. split.
  - intros (c & Hc & E). apply String.eqb_eq in E. subst. exact Hc.
  - intros H. exists column. split; [exact H | apply String.eqb_refl].
Qed.

End SchemaFacts.

(** * Further properties of the start-up *)

Section StartupProperties.
Import Schema Notions.

(** X19.  [init_db] leaves every table the file has, with its columns and
    rows, as it is; it makes [players] and [player_stats] when they are
    absent, empty and with the declared columns; and running it a second
    time changes nothing. *)
Theorem init_db_creates_only_what_is_missing :
  forall f,
    (forall name t, find_table name f = Some t ->
                    find_table name (init_db f) = Some t)
    /\ (find_table "players" f = None ->
        find_table "players" (init_db f) = Some (mktable players_columns []))
    /\ (find_table "player_stats" f = None ->
        find_table "player_stats" (init_db f)
        = Some (mktable player_stats_columns []))
    /\ init_db (init_db f) = init_db f.
Proof.
  intros f. unfold init_db. repeat split.
  - intros name t H. apply create_keeps, create_keeps, H.
  - intros H. apply create_keeps, create_makes, H.
  - intros H. apply create_makes. rewrite create_other; [exact H | reflexivity].
  - set (g := create_table_if_not_exists "players" players_columns f).
    set (h := create_table_if_not_exists "player_stats" player_stats_columns g).
    assert (Hp : create_table_if_not_exists "players" players_columns h = h).
    { apply create_again. destruct (create_found "players" players_columns f)
        as [t Ht]. exists t. apply create_keeps. exact Ht. }
    rewrite Hp. apply create_again. apply create_found.
Qed.

(** X20.  When [player_stats] has no column called age, in any letter
    case, [add_age_to_stats_if_missing] adds the column at the end, every
    row keeps its cells and reads NULL in the new column, the other tables
    are untouched, and a second run changes nothing. *)
Theorem add_age_migrates_without_loss f t :
  find_table "player_stats" f = Some t ->
  existsb (same_name "age") (columns t) = false ->
  exists f',
    add_age_to_stats_if_missing f = Some f'
    /\ find_table "player_stats" f'
       = Some (mktable (columns t ++ ["age"])%list
                       (map (fun r => r ++ [None])%list (records t)))
    /\ (forall name, same_name "player_stats" name = false ->
                     find_table name f' = find_table name f)
    /\ add_age_to_stats_if_missing f' = Some f'.
Proof.
  intros Ht Hnone.
  unfold add_age_to_stats_if_missing at 1. unfold table_info, add_column.
  rewrite Ht, (exact_name_matches "age" _ Hnone), Hnone.
  eexists. split; [reflexivity|]. split; [|split].
  - rewrite (find_table_replace _ _ _ _ t Ht). reflexivity.
  - intros name H. rewrite (find_table_replace _ _ _ _ t Ht), H. reflexivity.
  - unfold add_age_to_stats_if_missing, table_info.
    rewrite (find_table_replace _ _ _ _ t Ht), same_name_refl.
    cbn [columns]. rewrite existsb_app. cbn [existsb].
    rewrite String.eqb_refl, orb_true_r. reflexivity.
Qed.

(** X21.  [add_age_to_stats_if_missing] raises exactly when there is no
    table [player_stats], or when the table has no column spelled [age] but
    has one that differs from it only by the case of its letters; with a
    column spelled [age] it leaves the file as it is. *)
Theorem add_age_outcomes :
  forall f,
    (add_age_to_stats_if_missing f = None
     <-> find_table "player_stats" f = None
         \/ exists t, find_table "player_stats" f = Some t
                      /\ ~ In "age" (columns t)
                      /\ exists c, In c (columns t)
                                   /\ same_name "age" c = true)
    /\ (has_column "player_stats" "age" f ->
        add_age_to_stats_if_missing f = Some f).
Proof.
  intros f. unfold add_age_to_stats_if_missing, table_info, add_column,
    has_column.
  destruct (find_table "player_stats" f) as [t|] eqn:Ht.
  - destruct (existsb (String.eqb "age") (columns t)) eqn:Hage.
    + split.
      * split; [discriminate|]. intros [H | (t' & [= <-] & Hn & _)];
          [discriminate H|]. exfalso. apply Hn, existsb_eqb_In, Hage.
      * reflexivity.
    + assert (Hnot : ~ In "age" (columns t)).
      { intros H. apply existsb_eqb_In in H. congruence. }
      destruct (existsb (same_name "age") (columns t)) eqn:Hsame.
      * split.
        -- split; [|reflexivity]. intros _. right. exists t.
           split; [reflexivity|]. split; [exact Hnot|].
           apply existsb_exists in Hsame. exact Hsame.
        -- intros (t' & [= <-] & Hin). contradiction.
      * split.
        -- split; [discriminate|].
           intros [H | (t' & [= <-] & _ & c & Hc & E)]; [discriminate H|].
           exfalso. assert (existsb (same_name "age") (columns t) = true);
             [|congruence].
           apply existsb_exists. exists c. split; assumption.
        -- intros (t' & [= <-] & Hin). contradiction.
  - split.
    + split; [intros _; left; reflexivity | reflexivity].
    + intros (t & H & _). discriminate H.
Qed.

(** X22.  When the start-up goes through, [players] exists,
    [player_stats] has the column [age], every table the file had is still
    there with its rows, as it was or with the [age] column added at the
    end, and a second start-up changes nothing. *)
Theorem startup_makes_the_schema_ready f f' :
  startup f = Some f' ->
  (exists p, find_table "players" f' = Some p)
  /\ has_column "player_stats" "age" f'
  /\ (forall name t,
         find_table name f = Some t ->
         find_table name f' = Some t
         \/ find_table name f'
            = Some (mktable (columns t ++ ["age"])%list
                            (map (fun r => r ++ [None])%list (records t))))
  /\ startup f' = Some f'.
Proof.
  unfold startup. intros H.
  destruct (init_db_creates_only_what_is_missing f) as (Hkeep & _ & _ & Hidem).
  assert (Hplayers : exists p, find_table "players" (init_db f) = Some p).
  { unfold init_db. destruct (create_found "players" players_columns f)
      as [p Hp]. exists p. apply create_keeps, Hp. }
  assert (Hstats : exists s, find_table "player_stats" (init_db f) = Some s).
  { unfold init_db. apply create_found. }
  destruct Hstats as [s Hs].
  unfold add_age_to_stats_if_missing, table_info in H. rewrite Hs in H.
  destruct (existsb (String.eqb "age") (columns s)) eqn:Hage.
  - injection H as <-. split; [exact Hplayers|]. split; [|split].
    + exists s. split; [exact Hs | apply existsb_eqb_In, Hage].
    + intros name t Ht. left. apply Hkeep, Ht.
    + rewrite Hidem. unfold add_age_to_stats_if_missing, table_info.
      rewrite Hs, Hage. reflexivity.
  - unfold add_column in H. rewrite Hs in H.
    destruct (existsb (same_name "age") (columns s)) eqn:Hsame;
      [discriminate H|].
    injection H as <-.
    assert (Hnew : find_table "player_stats"
                     (replace_table "player_stats"
                        (mktable (columns s ++ ["age"])%list
                           (map (fun r => r ++ [None])%list (records s)))
                        (init_db f))
                   = Some (mktable (columns s ++ ["age"])%list
                             (map (fun r => r ++ [None])%list (records s)))).
    { rewrite (find_table_replace _ _ _ _ s Hs). reflexivity. }
    split; [|split; [|split]].
    + destruct Hplayers as [p Hp]. exists p.
      rewrite (find_table_replace _ _ _ _ s Hs). exact Hp.
    + eexists. split; [exact Hnew|]. cbn [columns].
      apply in_or_app. right. left. reflexivity.
    + intros name t Ht. apply Hkeep in Ht.
      rewrite (find_table_replace _ _ _ _ s Hs).
      destruct (same_name "player_stats" name) eqn:E.
      * right. assert (t = s); [|subst; reflexivity].
        assert (find_table name (init_db f) = find_table "player_stats" (init_db f)).
        { clear - E. induction (init_db f) as [|[n0 t0] g IH]; [reflexivity|].
          cbn [find_table]. rewrite same_name_sym in E.
          rewrite same_name_sym, (same_name_cong name "player_stats" n0 E).
          rewrite same_name_sym.
          destruct (same_name n0 "player_stats"); [reflexivity | exact IH]. }
        congruence.
      * left. exact Ht.
    + set (g := replace_table _ _ _) in *.
      assert (Hg : init_db g = g).
      { unfold init_db.
        rewrite (create_again "players").
        - apply create_again. eexists. exact Hnew.
        - destruct Hplayers as [p Hp]. exists p. unfold g.
          rewrite (find_table_replace _ _ _ _ s Hs). exact Hp. }
      rewrite Hg. unfold add_age_to_stats_if_missing, table_info.
      rewrite Hnew. cbn [columns]. rewrite existsb_app. cbn [existsb].
      rewrite String.eqb_refl, orb_true_r. reflexivity.
Qed.

End StartupProperties.

(** * Further facts about the handlers *)

Section HandlerFacts.
Import Text Calendar Json Sqlite Server Notions.

(** What validation read from the body of an accepted player. *)
Lemma validate_accepted lib d p :
  validate lib d = Accepted p ->
  str_field lib (dict_get "name" d) = Some (name p)
  /\ str_field lib (dict_get "age" d) = Some (age p)
  /\ str_field lib (dict_get "TSI" d) = Some (TSI p)
  /\ str_field lib (dict_get "salary" d) = Some (salary p)
  /\ str_field lib (dict_get "specialties" d) = Some (specialties p)
  /\ str_field lib (dict_get "form" d) = Some (form p)
  /\ str_field lib (dict_get "fitness" d) = Some (fitness p)
  /\ dict_field lib (dict_get "skills" d) = IsDict (skills p)
  /\ optional_str_field lib (dict_get "date" d) = Some (date p).
Proof.
  unfold validate.
  destruct (str_field lib (dict_get "name" d));
  destruct (str_field lib (dict_get "age" d));
  destruct (str_field lib (dict_get "TSI" d));
  destruct (str_field lib (dict_get "salary" d));
  destruct (str_field lib (dict_get "specialties" d));
  destruct (str_field lib (dict_get "form" d));
  destruct (str_field lib (dict_get "fitness" d));
  destruct (dict_field lib (dict_get "skills" d));
  destruct (optional_str_field lib (dict_get "date" d));
  try discriminate; intros [= <-]; repeat split.
Qed.

Lemma validate_needs lib d p f :
  validate lib d = Accepted p -> In f required_fields ->
  dict_get f d <> None.
Proof.
  intros H Hin E. apply validate_accepted in H.
  destruct H as (H1 & H2 & H3 & H4 & H5 & H6 & H7 & H8 & _).
  cbn [required_fields In] in Hin.
  repeat (destruct Hin as [<- | Hin];
          [rewrite E in *; discriminate|]).
  exact Hin.
Qed.


Lemma not_message_refused r : (forall text, r <> Message text) -> refused r.
Proof. destruct r; cbn; [intros H; apply (H text); reflexivity | auto..]. Qed.

(** ** The rows of a query *)

Lemma select_in filters db r :
  In r (select filters db) -> In r (join db) /\ where_ filters r = true.
Proof.
  unfold select. intros H.
  apply (Permutation_in _ (order_by_date_desc_perm _)) in H.
  apply filter_In in H. exact H.
Qed.

Lemma select_intro filters db r :
  In r (join db) -> where_ filters r = true -> In r (select filters db).
Proof.
  intros H1 H2. unfold select.
  apply (Permutation_in _ (Permutation_sym (order_by_date_desc_perm _))).
  apply filter_In. split; assumption.
Qed.

Lemma join_in db r :
  In r (join db) ->
  exists p s, In p (players db) /\ In s (player_stats db)
              /\ p_id p = s_player_id s /\ r = select_columns p s.
Proof.
  unfold join. intros H. apply in_flat_map in H.
  destruct H as (s & Hs & H). apply in_map_iff in H.
  destruct H as (p & <- & Hp). apply filter_In in Hp. destruct Hp as [Hp E].
  exists p, s. repeat split; try assumption. apply has_id_eq, E.
Qed.

Lemma join_intro db p s :
  In p (players db) -> In s (player_stats db) ->
  p_id p = s_player_id s -> In (select_columns p s) (join db).
Proof.
  intros Hp Hs E. unfold join. apply in_flat_map. exists s.
  split; [exact Hs|]. apply (in_map (fun q => select_columns q s)).
  apply filter_In.
  split; [exact Hp | apply has_id_eq, E].
Qed.

Lemma get_all_players_rows_inv pid date w result w' :
  get_all_players pid date w = (Rows result, w') ->
  exists filters,
    build_filters pid date = Continue filters
    /\ build_result (select filters (disk w)) [] = Continue result.
Proof.
  unfold get_all_players. cbn [connect]. unfold fetchall. cbn [view].
  destruct (build_filters pid date) as [filters|[]|e|]; try discriminate.
  destruct (build_result _ _) eqn:E; try discriminate.
  intros [= <- _]. exists filters. split; [reflexivity | exact E].
Qed.

Lemma build_result_total rows :
  Forall (fun r => exists v, loads (r_skills r) = Decoded v) rows ->
  exists result, build_result rows [] = Continue result.
Proof.
  intros H.
  set (g := fun r : row => match loads (r_skills r) with
                           | Decoded v => v
                           | _ => JNull
                           end).
  exists (map (fun r => row_dict r (g r)) rows).
  apply (build_result_map g rows).
  eapply Forall_impl; [|exact H]. intros r [v Hv]. unfold g. rewrite Hv.
  reflexivity.
Qed.

Lemma Forall2_right {A B : Type} (R : A -> B -> Prop) (Q : B -> Prop) l l' :
  Forall2 R l l' ->
  (forall a b, In a l -> R a b -> Q b) ->
  Forall Q l'.
Proof.
  induction 1 as [|a b l l' Hab Hl IH]; intros H; constructor.
  - apply (H a); [left; reflexivity | exact Hab].
  - apply IH. intros a' b' Ha'. apply H. right. exact Ha'.
Qed.

Lemma Forall2_in_left {A B : Type} (R : A -> B -> Prop) l l' a :
  Forall2 R l l' -> In a l -> exists b, In b l' /\ R a b.
Proof.
  induction 1 as [|x y l l' Hxy Hl IH]; intros Hin; [destruct Hin|].
  destruct Hin as [<- | Hin].
  - exists y. split; [left; reflexivity | exact Hxy].
  - destruct (IH Hin) as (b & Hb & Rb). exists b. split; [right|]; assumption.
Qed.



(** The texts of the two formats have the shape of the formats. *)
Lemma strftime_dmY_shape d :
  valid_date d = true -> 1000 <= year d -> ddmmyyyy (strftime_dmY d) = true.
Proof.
  intros H Hk. destruct (valid_date_bounds d H) as (_ & Hy & Hm & Hd).
  destruct (four_digits (year d) Hy) as (H3 & H2 & H1 & H0 & _).
  destruct (two_digits (month d)) as (Hm1 & Hm0 & _); [lia|].
  destruct (two_digits (day d)) as (Hd1 & Hd0 & _); [lia|].
  unfold strftime_dmY. rewrite strftime_Y_zfill4 by exact Hk.
  unfold zfill2, zfill4. cbn [append ddmmyyyy].
  rewrite !is_digit_digit_chr by assumption. reflexivity.
Qed.

Lemma sortable_date_dated now d :
  valid_date now = true -> 1000 <= year now ->
  (forall text day, d = Some text -> strptime_dmY text = Some day ->
                    1000 <= year day) ->
  exists day, valid_date day = true /\ 1000 <= year day
              /\ sortable_date now d = strftime_Ymd day.
Proof.
  intros Hnow Hk Hd. unfold sortable_date. destruct d as [text|].
  - destruct (strptime_dmY text) as [parsed|] eqn:E.
    + exists parsed. split; [apply (strptime_dmY_valid text), E|].
      split; [apply (Hd text); [reflexivity | exact E] | reflexivity].
    + exists now. auto.
  - exists now. auto.
Qed.

End HandlerFacts.

(** * Further properties of the handlers *)

Section HandlerProperties.
Import Text Calendar Json Sqlite Server Notions.

(** X1.  Whatever the request and however it ends, [save_player] leaves as
    many connections open as it found: the one it opens is closed by the
    [finally] block, and a request that ends before [connect] opens none. *)
Theorem save_player_leaves_connections_as_found :
  forall lib now pid data w,
    open_connections (snd (save_player lib now pid data w))
    = open_connections w.
Proof.
  intros. unfold save_player, save_player_try.
  destruct (parse_body lib data); reflexivity.
Qed.

(** X2.  [get_all_players] closes its connection when it returns the
    list: then as many connections are open as before.  When it returns
    the error object, or an exception leaves the loop, one more connection
    is open than before. *)
Theorem list_connection_accounting :
  forall pid date w,
    match fst (get_all_players pid date w) with
    | Rows _ =>
        open_connections (snd (get_all_players pid date w))
        = open_connections w
    | ErrorObject _ | Uncaught _ =>
        open_connections (snd (get_all_players pid date w))
        = S (open_connections w)
    | Undetermined => True
    end.
Proof.
  intros pid date w. unfold get_all_players. cbn [connect].
  destruct (build_filters pid date) as [f|[]|e|]; try reflexivity; try exact I.
  destruct (build_result _ _); try reflexivity; exact I.
Qed.

(** X3.  A Save whose reply the model determines is all or nothing:
    either the body is accepted, the reply is the success message and the
    tables are the old ones with the player upserted and one snapshot
    appended, or the reply is an error object and the world is exactly as
    it was. *)
Theorem save_is_all_or_nothing :
  forall lib now pid data w,
    fst (save_player lib now pid data w) <> Unknown ->
    (exists p,
        parse_body lib data = Continue p
        /\ save_player lib now pid data w
           = (Message (success_text (name p)),
              mkworld (insert_stats
                         (stats_of pid p (sortable_date now (date p)))
                         (upsert_player pid (name p) (specialties p)
                                        (disk w)))
                      (open_connections w)))
    \/ (reported (fst (save_player lib now pid data w))
        /\ snd (save_player lib now pid data w) = w).
Proof.
  intros lib now pid data w Hknown.
  destruct (parse_body lib data) as [p| | |] eqn:E.
  - left. exists p. split; [reflexivity|]. apply save_player_accepted, E.
  - right. destruct (save_player_not_accepted lib now pid data w) as [H1 H2];
      [congruence|]. split; [|exact H1].
    destruct (fst (save_player lib now pid data w)); cbn [reported]; auto.
    exfalso. apply (H2 text). reflexivity.
  - right. destruct (save_player_not_accepted lib now pid data w) as [H1 H2];
      [congruence|]. split; [|exact H1].
    destruct (fst (save_player lib now pid data w)); cbn [reported]; auto.
    exfalso. apply (H2 text). reflexivity.
  - exfalso. apply Hknown. unfold save_player, save_player_try. rewrite E.
    reflexivity.
Qed.

(** X4.  [get_all_players] never writes: whatever it is asked and however
    it ends, both tables are as they were. *)
Theorem list_never_writes :
  forall pid date w, disk (snd (get_all_players pid date w)) = disk w.
Proof.
  intros pid date w. unfold get_all_players. cbn [connect].
  destruct (build_filters pid date) as [f|[]|e|]; try reflexivity.
  destruct (build_result _ _); reflexivity.
Qed.

(** X5.  On tables that satisfy the primary key, any Save keeps the
    primary key, keeps every identity that had a row, and leaves the rows of
    the other identities as they were. *)
Theorem save_keeps_primary_key_and_other_players lib now pid data w :
  primary_key (disk w) ->
  let after := disk (snd (save_player lib now pid data w)) in
  primary_key after
  /\ (forall q, existsb (has_id q) (players (disk w)) = true ->
                existsb (has_id q) (players after) = true)
  /\ (forall q, q <> pid ->
                find (has_id q) (players after)
                = find (has_id q) (players (disk w))).
Proof.
  intros Hpk after. subst after.
  destruct (parse_body lib data) as [p| | |] eqn:E;
    try (destruct (save_player_not_accepted lib now pid data w) as [-> _];
         [congruence | auto]).
  rewrite (save_player_accepted lib now pid data p w E).
  cbn [snd disk]. split; [|split].
  - exact (upsert_primary_key pid (name p) (specialties p) (disk w) Hpk).
  - intros q Hq. cbn [insert_stats players]. rewrite existsb_find in *.
    destruct (String.eqb_spec q pid) as [->|Hne].
    + rewrite upsert_find. reflexivity.
    + rewrite upsert_find_other by exact Hne. exact Hq.
  - intros q Hq. cbn [insert_stats players]. apply upsert_find_other, Hq.
Qed.

(** X6.  A body that lacks one of name, age, TSI, salary, specialties,
    form, fitness and skills is refused, under either version of the
    validation library, and nothing is stored. *)
Theorem save_missing_field_is_refused lib now pid data w field :
  In field required_fields ->
  dict_get field data = None ->
  refused (fst (save_player lib now pid (JObj data) w))
  /\ snd (save_player lib now pid (JObj data) w) = w.
Proof.
  intros Hin Hnone.
  destruct (save_player_not_accepted lib now pid (JObj data) w) as [H1 H2].
  - intros p Hp. unfold parse_body, decode_skills in Hp.
    assert (Hv : forall d, dict_get field d = None ->
                           make_player lib d <> Continue p).
    { intros d Hd H. unfold make_player in H.
      destruct (validate lib d) eqn:E; try discriminate H.
      injection H as ->. exact (validate_needs lib d p field E Hin Hd). }
    destruct (dict_get "skills" data) as [[]|] eqn:Hs; cbn [and_then] in Hp;
      try (apply (Hv data Hnone Hp)).
    destruct (loads s); cbn [and_then] in Hp; try discriminate Hp.
    apply (Hv (dict_set "skills" v data)); [|exact Hp].
    rewrite dict_get_set. destruct (String.eqb_spec "skills" field) as [<-|];
      [congruence | exact Hnone].
  - split; [apply not_message_refused, H2 | exact H1].
Qed.

(** X7.  A [skills] value sent as the text of a mapping is handled exactly
    like the body that carries the mapping itself. *)
Theorem encoded_skills_same_as_mapping lib now pid data text m w :
  dict_get "skills" data = Some (JStr text) ->
  loads text = Decoded (JObj m) ->
  save_player lib now pid (JObj data) w
  = save_player lib now pid (JObj (dict_set "skills" (JObj m) data)) w.
Proof.
  intros Hs Hl.
  assert (E : parse_body lib (JObj data)
              = parse_body lib (JObj (dict_set "skills" (JObj m) data))).
  { unfold parse_body, decode_skills. rewrite Hs, Hl, dict_get_set.
    rewrite String.eqb_refl. reflexivity. }
  unfold save_player, save_player_try. rewrite E. reflexivity.
Qed.

(** X8.  The skills text Save writes for a player decodes, in List, to the
    mapping of the player, whenever the mapping holds each key once. *)
Theorem stored_skills_decode_back pid p iso :
  wf (JObj (skills p)) = true ->
  loads (s_skills (stats_of pid p iso)) = Decoded (JObj (skills p)).
Proof.
  intros H. unfold stats_of. cbn [s_skills]. apply loads_dumps_wf, H.
Qed.

(** X9.  A date text that Save reads as a date of the year 1000 or later,
    with or without leading zeros in the day and the month, is listed in
    the form with two, two and four digits, and that form is read as the
    same date. *)
Theorem accepted_date_is_listed_zero_padded now text d :
  strptime_dmY text = Some d ->
  1000 <= year d ->
  display_date (sortable_date now (Some text)) = strftime_dmY d
  /\ ddmmyyyy (strftime_dmY d) = true
  /\ strptime_dmY (strftime_dmY d) = Some d.
Proof.
  intros H Hk. pose proof (strptime_dmY_valid text d H) as Hv.
  unfold sortable_date. rewrite H. split; [|split].
  - apply display_date_strftime; assumption.
  - apply strftime_dmY_shape; assumption.
  - apply strptime_dmY_strftime; assumption.
Qed.

(** X10.  The sortable texts Save stores for two date texts of the year
    1000 or later compare, as texts, the way the two dates compare in the
    calendar. *)
Theorem sortable_dates_order_as_calendar now now' t1 t2 d1 d2 :
  strptime_dmY t1 = Some d1 ->
  strptime_dmY t2 = Some d2 ->
  1000 <= year d1 ->
  1000 <= year d2 ->
  String.ltb (sortable_date now (Some t1)) (sortable_date now' (Some t2))
  = date_ltb d1 d2.
Proof.
  intros H1 H2 K1 K2. unfold sortable_date. rewrite H1, H2.
  apply sortable_order; try assumption.
  - apply (strptime_dmY_valid t1), H1.
  - apply (strptime_dmY_valid t2), H2.
Qed.

(** X11.  Every object of a List filtered by a non-empty identity carries
    that identity. *)
Theorem list_identity_filter_sound pid date w result w' :
  pid <> "" ->
  get_all_players (Some pid) date w = (Rows result, w') ->
  Forall (fun e => o_id e = pid) result.
Proof.
  intros Hpid H. apply get_all_players_rows_inv in H.
  destruct H as (filters & Hf & Hr).
  assert (Hin : In (IdIs pid) filters).
  { unfold build_filters in Hf. rewrite truthy_nonempty in Hf by exact Hpid.
    destruct (truthy date) as [text|].
    - destruct (strptime_dmY text); [|discriminate Hf].
      injection Hf as <-. left. reflexivity.
    - injection Hf as <-. left. reflexivity. }
  apply build_result_inv in Hr. destruct Hr as (new & -> & Hall).
  cbn [List.app]. apply (Forall2_right _ _ _ _ Hall).
  intros r e Hr (v & _ & ->). unfold row_dict. cbn [o_id].
  apply select_in in Hr. destruct Hr as [_ Hw].
  unfold where_ in Hw. rewrite forallb_forall in Hw.
  apply (Hw (IdIs pid)) in Hin. apply String.eqb_eq, Hin.
Qed.

(** X12.  Every object of a List filtered by a date text that [strptime]
    reads as a date of the year 1000 or later carries that date, in the
    form with leading zeros, whatever the form of the text of the
    filter. *)
Theorem list_date_filter_sound pid text d w result w' :
  text <> "" ->
  strptime_dmY text = Some d ->
  1000 <= year d ->
  get_all_players pid (Some text) w = (Rows result, w') ->
  Forall (fun e => o_date e = strftime_dmY d) result.
Proof.
  intros Hne Hd Hk H. apply get_all_players_rows_inv in H.
  destruct H as (filters & Hf & Hr).
  assert (Hin : In (DateIs (strftime_Ymd d)) filters).
  { unfold build_filters in Hf. rewrite truthy_nonempty, Hd in Hf by exact Hne.
    injection Hf as <-. apply in_or_app. right. left. reflexivity. }
  apply build_result_inv in Hr. destruct Hr as (new & -> & Hall).
  cbn [List.app]. apply (Forall2_right _ _ _ _ Hall).
  intros r e Hr (v & _ & ->). unfold row_dict. cbn [o_date].
  apply select_in in Hr. destruct Hr as [_ Hw].
  unfold where_ in Hw. rewrite forallb_forall in Hw.
  apply (Hw (DateIs (strftime_Ymd d))) in Hin. cbn [holds] in Hin.
  apply String.eqb_eq in Hin. rewrite Hin.
  apply display_date_strftime; [apply (strptime_dmY_valid text), Hd | exact Hk].
Qed.

(** X13.  After an accepted Save whose date text denotes a date of the
    year 1000 or later, a List filtered by the identity and by any text of
    that date, if it returns a list, has the object of the saved snapshot
    in it, whatever else the tables hold. *)
Theorem saved_snapshot_is_found lib now pid data p text d asked w result w' :
  primary_key (disk w) ->
  pid <> "" ->
  parse_body lib data = Continue p ->
  wf (JObj (skills p)) = true ->
  date p = Some text ->
  strptime_dmY text = Some d ->
  1000 <= year d ->
  asked <> "" ->
  strptime_dmY asked = Some d ->
  get_all_players (Some pid) (Some asked)
                  (snd (save_player lib now pid data w))
  = (Rows result, w') ->
  In (entry_of pid p p (strftime_dmY d)) result.
Proof.
  intros Hpk Hpid Hp Hwf Hdate Hd Hk Hasked Hd' H.
  rewrite (save_player_accepted lib now pid data p w Hp) in H. cbn [snd] in H.
  apply get_all_players_rows_inv in H. destruct H as (filters & Hf & Hr).
  unfold build_filters in Hf.
  rewrite !truthy_nonempty, Hd' in Hf by assumption.
  injection Hf as <-. cbn [disk List.app] in Hr.
  set (db := insert_stats _ _) in Hr.
  set (holder := mkplayer pid (name p) (specialties p)).
  set (s := stats_of pid p (sortable_date now (date p))).
  assert (Hrow : In (select_columns holder s)
                    (select [IdIs pid; DateIs (strftime_Ymd d)] db)).
  { apply select_intro.
    - apply join_intro.
      + assert (F : find (has_id pid) (players db) = Some holder)
          by apply upsert_find.
        apply find_has_id in F. apply F.
      + unfold db, insert_stats. cbn [player_stats]. apply in_or_app.
        right. left. reflexivity.
      + reflexivity.
    - unfold where_, holder, s, stats_of, select_columns, sortable_date.
      cbn [forallb holds r_id r_date p_id s_date].
      rewrite Hdate, Hd, !String.eqb_refl. reflexivity. }
  apply build_result_inv in Hr. destruct Hr as (new & -> & Hall).
  cbn [List.app].
  destruct (Forall2_in_left _ _ _ _ Hall Hrow) as (e & He & v & Hv & ->).
  unfold s, stats_of in Hv. cbn [select_columns r_skills s_skills] in Hv.
  rewrite (loads_dumps_wf _ Hwf) in Hv. injection Hv as <-.
  assert (E : row_dict (select_columns holder s) (JObj (skills p))
              = entry_of pid p p (strftime_dmY d)).
  { unfold row_dict, entry_of, select_columns, holder, s, stats_of,
      sortable_date.
    cbn [r_id r_name r_specialties r_age r_TSI r_salary r_fitness r_form
         r_date p_id p_name p_specialties s_age s_TSI s_salary s_fitness
         s_form s_date].
    rewrite Hdate, Hd.
    rewrite display_date_strftime
      by (try exact Hk; apply (strptime_dmY_valid text), Hd).
    reflexivity. }
  rewrite <- E. exact He.
Qed.

(** X14.  In every world the service reaches from start-up, a List, with
    any parameters, comes back with the list or with the error object of
    the date filter: the loop over the rows never raises, because every
    skills text in the table was written by [json.dumps]. *)
Theorem reachable_list_never_raises lib pid date w :
  reachable lib w ->
  answered (fst (get_all_players pid date w)).
Proof.
  intros Hreach. apply reachable_consistent in Hreach.
  destruct Hreach as [_ Hall]. rewrite Forall_forall in Hall.
  unfold get_all_players. cbn [connect]. unfold fetchall. cbn [view].
  destruct (build_filters pid date) as [filters|r|e|] eqn:Hf.
  - destruct (build_result_total (select filters (disk w))) as [result ->];
      [|exact I].
    apply Forall_forall. intros r Hr. apply select_in in Hr.
    destruct Hr as [Hr _]. apply join_in in Hr.
    destruct Hr as (p & s & _ & Hs & _ & ->).
    destruct (Hall s Hs) as (_ & v & Hv).
    exists (normalize v). cbn [select_columns r_skills]. rewrite Hv.
    apply loads_dumps.
  - unfold build_filters in Hf. destruct (truthy date) as [text|];
      [|discriminate Hf].
    destruct (strptime_dmY text); [discriminate Hf|].
    injection Hf as <-. exact I.
  - unfold build_filters in Hf. destruct (truthy date) as [text|];
      [|discriminate Hf].
    destruct (strptime_dmY text); discriminate Hf.
  - unfold build_filters in Hf. destruct (truthy date) as [text|];
      [|discriminate Hf].
    destruct (strptime_dmY text); discriminate Hf.
Qed.

(** X15.  In every world the service reaches from start-up the tables
    satisfy the primary key of [players], and every snapshot has a row of
    [players] with its identity: Save keeps the foreign key that the store
    itself does not check. *)
Theorem reachable_referential_integrity lib w :
  reachable lib w ->
  NoDup (map p_id (players (disk w)))
  /\ forall s, In s (player_stats (disk w)) ->
               exists p, In p (players (disk w)) /\ p_id p = s_player_id s.
Proof.
  intros Hreach. apply reachable_consistent in Hreach.
  destruct Hreach as [Hpk Hall]. split; [exact Hpk|].
  rewrite Forall_forall in Hall. intros s Hs.
  destruct (Hall s Hs) as [Hhas _]. unfold has_player in Hhas.
  apply existsb_exists in Hhas. destruct Hhas as (p & Hp & E).
  exists p. split; [exact Hp | apply has_id_eq, E].
Qed.


(** X17.  With a clock that reads a date of the calendar, of the year
    1000 or later, a Save whose reply the model determines and whose date
    text, if [strptime] reads it, is of the year 1000 or later keeps the
    table dated: the snapshot it appends carries the sortable text of the
    date of the body, or of today. *)
Theorem save_keeps_dated lib now pid data w :
  valid_date now = true ->
  1000 <= year now ->
  (forall p text d,
      parse_body lib data = Continue p -> date p = Some text ->
      strptime_dmY text = Some d -> 1000 <= year d) ->
  fst (save_player lib now pid data w) <> Unknown ->
  dated (disk w) ->
  dated (disk (snd (save_player lib now pid data w))).
Proof.
  intros Hnow Hk Hdate _ Hdated.
  destruct (parse_body lib data) as [p| | |] eqn:E;
    try (destruct (save_player_not_accepted lib now pid data w) as [-> _];
         [congruence | exact Hdated]).
  rewrite (save_player_accepted lib now pid data p w E). cbn [snd disk].
  unfold dated. cbn [insert_stats player_stats]. apply Forall_app.
  split; [exact Hdated|]. constructor; [|constructor].
  unfold stats_of. cbn [s_date]. apply sortable_date_dated; try assumption.
  intros text d. apply (Hdate p text d). reflexivity.
Qed.


End HandlerProperties.

(** * The further properties at sample requests *)

Section FurtherWitnesses.
Import Text Calendar Json Sqlite Server Sample Schema Notions.

Lemma save_keeps_primary_key_witness :
  let after :=
    disk (snd (save_player V2 clock "42" (body_of ann) with_orphan)) in
  primary_key after
  /\ (forall q, existsb (has_id q) (players (disk with_orphan)) = true ->
                existsb (has_id q) (players after) = true)
  /\ (forall q, q <> "42" ->
                find (has_id q) (players after)
                = find (has_id q) (players (disk with_orphan))).
Proof.
  exact (save_keeps_primary_key_and_other_players V2 clock "42" (body_of ann)
           with_orphan with_orphan_primary_key).
Defined.

Lemma save_is_all_or_nothing_witness :
  (exists p,
      parse_body V2 (JObj [("age", JStr "17")]) = Continue p
      /\ save_player V2 clock "42" (JObj [("age", JStr "17")]) with_orphan
         = (Message (success_text (name p)),
            mkworld (insert_stats
                       (stats_of "42" p (sortable_date clock (date p)))
                       (upsert_player "42" (name p) (specialties p)
                                      (disk with_orphan)))
                    (open_connections with_orphan)))
  \/ (reported (fst (save_player V2 clock "42" (JObj [("age", JStr "17")])
                                 with_orphan))
      /\ snd (save_player V2 clock "42" (JObj [("age", JStr "17")])
                          with_orphan)
         = with_orphan).
Proof.
  refine (save_is_all_or_nothing V2 clock "42" (JObj [("age", JStr "17")])
            with_orphan _).
  discriminate.
Defined.

Lemma save_missing_field_witness :
  refused (fst (save_player V2 clock "42" (JObj [("age", JStr "17")]) started))
  /\ snd (save_player V2 clock "42" (JObj [("age", JStr "17")]) started)
     = started.
Proof.
  exact (save_missing_field_is_refused V2 clock "42" [("age", JStr "17")]
           started "name" (or_introl eq_refl) eq_refl).
Defined.

Lemma encoded_skills_witness :
  save_player V2 clock "42" (JObj ann_encoded) started
  = save_player V2 clock "42"
      (JObj (dict_set "skills" (JObj (skills ann)) ann_encoded)) started.
Proof.
  exact (encoded_skills_same_as_mapping V2 clock "42" ann_encoded
           (dumps (JObj (skills ann))) (skills ann) started eq_refl eq_refl).
Defined.

Lemma stored_skills_witness :
  loads (s_skills (stats_of "42" ann "2024-03-17")) = Decoded (JObj (skills ann)).
Proof.
  exact (stored_skills_decode_back "42" ann "2024-03-17" eq_refl).
Defined.

Lemma accepted_date_witness :
  display_date (sortable_date clock (Some "1/2/2024")) = "01/02/2024"
  /\ ddmmyyyy "01/02/2024" = true
  /\ strptime_dmY "01/02/2024" = Some (mkdate 2024 2 1).
Proof.
  refine (accepted_date_is_listed_zero_padded clock "1/2/2024"
            (mkdate 2024 2 1) eq_refl _).
  apply Nat.leb_le. reflexivity.
Defined.

Lemma sortable_dates_witness :
  String.ltb (sortable_date clock (Some "31/12/2023"))
             (sortable_date clock (Some "1/1/2024"))
  = true.
Proof.
  refine (sortable_dates_order_as_calendar clock clock "31/12/2023"
            "1/1/2024" (mkdate 2023 12 31) (mkdate 2024 1 1)
            eq_refl eq_refl _ _);
    apply Nat.leb_le; reflexivity.
Defined.

Lemma list_identity_filter_witness :
  Forall (fun e => o_id e = "42") [entry_of "42" ann ann "17/03/2024"].
Proof.
  refine (list_identity_filter_sound "42" None after_ann
            [entry_of "42" ann ann "17/03/2024"] after_ann _ eq_refl).
  discriminate.
Defined.

Lemma list_date_filter_witness :
  Forall (fun e => o_date e = "17/03/2024") [entry_of "42" ann ann "17/03/2024"].
Proof.
  refine (list_date_filter_sound None "17/3/2024" (mkdate 2024 3 17) after_ann
            [entry_of "42" ann ann "17/03/2024"] after_ann _ eq_refl _
            eq_refl).
  - discriminate.
  - apply Nat.leb_le. reflexivity.
Defined.

Lemma saved_snapshot_witness :
  In (entry_of "42" ann ann "17/03/2024") [entry_of "42" ann ann "17/03/2024"].
Proof.
  refine (saved_snapshot_is_found V2 clock "42" (body_of ann) ann "17/03/2024"
            (mkdate 2024 3 17) "17/3/2024" started
            [entry_of "42" ann ann "17/03/2024"] after_ann
            (NoDup_nil _) _ eq_refl eq_refl eq_refl eq_refl _ _ eq_refl
            eq_refl);
    try discriminate.
  apply Nat.leb_le. reflexivity.
Defined.

Lemma after_ann_reachable : reachable V2 after_ann.
Proof.
  exact (reach_save V2 clock "42" (body_of ann) started (reach_start V2)).
Defined.

Lemma reachable_list_witness :
  answered (fst (get_all_players (Some "42") (Some "17/3/2024") after_ann)).
Proof.
  exact (reachable_list_never_raises V2 (Some "42") (Some "17/3/2024")
           after_ann after_ann_reachable).
Defined.

Lemma reachable_integrity_witness :
  NoDup (map p_id (players (disk after_ann)))
  /\ forall s, In s (player_stats (disk after_ann)) ->
               exists p, In p (players (disk after_ann))
                         /\ p_id p = s_player_id s.
Proof.
  exact (reachable_referential_integrity V2 after_ann after_ann_reachable).
Defined.



Lemma save_keeps_dated_witness : dated (disk after_ann).
Proof.
  refine (save_keeps_dated V2 clock "42" (body_of ann) started eq_refl _ _ _
            (Forall_nil _)).
  - apply Nat.leb_le. reflexivity.
  - intros p text d Hp Hdate Hd. vm_compute in Hp. injection Hp as <-.
    vm_compute in Hdate. injection Hdate as <-.
    vm_compute in Hd. injection Hd as <-.
    apply Nat.leb_le. reflexivity.
  - discriminate.
Defined.



Lemma add_age_migrates_witness :
  exists f',
    add_age_to_stats_if_missing legacy = Some f'
    /\ find_table "player_stats" f'
       = Some (mktable
                 ["player_id"; "TSI"; "salary"; "fitness"; "form"; "skills";
                  "date"; "age"]
                 [[Some "1"; Some "1200"; Some "300"; Some "7"; Some "6";
                   Some "{}"; Some "2024-03-17"; None];
                  [Some "1"; Some "1250"; Some "310"; Some "7"; Some "7";
                   Some "{}"; Some "2024-03-24"; None]])
    /\ (forall name, same_name "player_stats" name = false ->
                     find_table name f' = find_table name legacy)
    /\ add_age_to_stats_if_missing f' = Some f'.
Proof.
  exact (add_age_migrates_without_loss legacy _ eq_refl eq_refl).
Defined.

Lemma startup_legacy_witness :
  (exists p, find_table "players" migrated = Some p)
  /\ has_column "player_stats" "age" migrated
  /\ (forall name t,
         find_table name legacy = Some t ->
         find_table name migrated = Some t
         \/ find_table name migrated
            = Some (mktable (columns t ++ ["age"])%list
                            (map (fun r => r ++ [None])%list (records t))))
  /\ startup migrated = Some migrated.
Proof.
  exact (startup_makes_the_schema_ready legacy migrated eq_refl).
Defined.

(** ** Remarks on the start-up *)

(** On a new file the start-up makes the two tables as declared. *)
Example startup_on_a_new_file :
  startup []
  = Some [("players", mktable players_columns []);
          ("player_stats", mktable player_stats_columns [])].
Proof. reflexivity. Qed.

(** A column [AGE] is not found by the check and is refused by SQLite as a
    duplicate: the start-up fails. *)
Example startup_fails_on_other_case : startup shouting = None.
Proof. reflexivity. Qed.

End FurtherWitnesses.
